(** * Notion MCP server: retry loop, pagination walkers and the tool handler

    A shallow embedding of the request pipeline of the Notion MCP server:
    - [NotionClientWithRateLimiting.executeWithRetry] (docs/rate-limiting.md),
    - [NotionClientSimple.request] (the simplified reactive client),
    - the pagination walkers [getAllDatabaseRows], [paginateQuery] and
      [getFullProperty],
    - the [CallToolRequestSchema] handler of http-server.js.

    Asynchronous code is modelled in direct style: an awaited promise either
    resolves with a value or rejects with a thrown value.  The network is an
    oracle indexed by the number of the request; every function returns its
    outcome together with the trace of the requests it sent and the timers
    it awaited. *)

From Stdlib Require Import ZArith List String Ascii Bool Lia QArith Lqa.
From Stdlib Require Import DecimalString DecimalPos Sorted.
Import ListNotations.

#[local] Set Warnings "-register-all".
Local Open Scope string_scope.
Local Open Scope Z_scope.

(** ** The JavaScript values and built-ins the code relies on *)

Module JS.

(** Numbers that reach a timer: an integer or [NaN].  Doubles represent the
    integers of this development exactly below 2^53. *)
Inductive number : Type :=
| Finite (z : Z)
| NaN.

Definition mul (a b : number) : number :=
  match a, b with
  | Finite x, Finite y => Finite (x * y)
  | _, _ => NaN
  end.

(** [Math.pow(2, n)] for a natural exponent. *)
Definition pow2 (n : nat) : number := Finite (2 ^ Z.of_nat n).

(** Strings are sequences of code units below 256. *)
Definition truthy_string (s : string) : bool :=
  match s with
  | EmptyString => false
  | String _ _ => true
  end.

(** [hay.includes(needle)]. *)
Fixpoint includes (needle hay : string) : bool :=
  String.prefix needle hay ||
  match hay with
  | EmptyString => false
  | String _ rest => includes needle rest
  end.

(** *** [parseInt(s)] with the radix left out (ECMAScript 19.2.5) *)

Definition is_white_space (c : ascii) : bool :=
  let n := nat_of_ascii c in
  ((n =? 9) || (n =? 10) || (n =? 11) || (n =? 12) || (n =? 13)
   || (n =? 32) || (n =? 160))%nat.

Fixpoint trim_start (s : string) : string :=
  match s with
  | String c rest => if is_white_space c then trim_start rest else s
  | EmptyString => EmptyString
  end.

Definition digit_value (c : ascii) : option Z :=
  let n := Z.of_nat (nat_of_ascii c) in
  if (48 <=? n) && (n <=? 57) then Some (n - 48)
  else if (97 <=? n) && (n <=? 122) then Some (n - 87)
  else if (65 <=? n) && (n <=? 90) then Some (n - 55)
  else None.

(** The value of the longest prefix of digits of the radix; [None] when that
    prefix is empty. *)
Fixpoint parse_digits (radix : Z) (s : string) (acc : option Z) : option Z :=
  match s with
  | String c rest =>
      match digit_value c with
      | Some d =>
          if d <? radix
          then parse_digits radix rest
                 (Some (match acc with Some a => a * radix + d | None => d end))
          else acc
      | None => acc
      end
  | EmptyString => acc
  end.

Definition strip_sign (s : string) : Z * string :=
  match s with
  | String "-" rest => (-1, rest)
  | String "+" rest => (1, rest)
  | _ => (1, s)
  end.

Definition strip_radix_prefix (s : string) : Z * string :=
  match s with
  | String "0" (String "x" rest) => (16, rest)
  | String "0" (String "X" rest) => (16, rest)
  | _ => (10, s)
  end.

Definition parseInt (input : string) : number :=
  let (sign, s1) := strip_sign (trim_start input) in
  let (radix, s2) := strip_radix_prefix s1 in
  match parse_digits radix s2 None with
  | Some n => Finite (sign * n)
  | None => NaN
  end.

(** *** JSON values, as [response.json()] and the MCP transport deliver them *)

Inductive json : Type :=
| JNull
| JBool (b : bool)
| JNumber (n : Z)
| JString (s : string)
| JArray (items : list json)
| JObject (fields : list (string * json)).

(** A JavaScript value that may be [undefined]. *)
Definition value : Type := option json.
Definition undefined : value := None.

Definition truthy (v : json) : bool :=
  match v with
  | JNull => false
  | JBool b => b
  | JNumber n => negb (n =? 0)
  | JString s => truthy_string s
  | JArray _ | JObject _ => true
  end.

Definition truthy_value (v : value) : bool :=
  match v with
  | Some j => truthy j
  | None => false
  end.

Fixpoint lookup (key : string) (fields : list (string * json)) : value :=
  match fields with
  | [] => undefined
  | (k, v) :: rest => if String.eqb k key then Some v else lookup key rest
  end.

(** [v.key] for a value [v] that is neither [null] nor [undefined]; the keys
    read by the code are not properties of any prototype. *)
Definition get (v : json) (key : string) : value :=
  match v with
  | JObject fields => lookup key fields
  | _ => undefined
  end.

Definition string_of_Z (z : Z) : string :=
  NilEmpty.string_of_int (Z.to_int z).

(** [String(v)], also the conversion of a template literal. *)
Fixpoint to_string (v : json) : string :=
  match v with
  | JNull => "null"
  | JBool true => "true"
  | JBool false => "false"
  | JNumber n => string_of_Z n
  | JString s => s
  | JArray items =>
      (fix join (l : list json) : string :=
         match l with
         | [] => ""
         | x :: rest =>
             let here := match x with JNull => "" | _ => to_string x end in
             match rest with
             | [] => here
             | _ :: _ => here ++ "," ++ join rest
             end
         end) items
  | JObject _ => "[object Object]"
  end.

(** [typeof v === 'object']. *)
Definition typeof_object (v : json) : bool :=
  match v with
  | JNull | JArray _ | JObject _ => true
  | _ => false
  end.

(** A thrown [Error] object with the properties the code sets and reads. *)
Record error : Type := mkError {
  error_message : string;
  error_status : option Z;
  error_code : value
}.

Definition Error (message : string) : error :=
  {| error_message := message; error_status := None; error_code := undefined |}.

(** The [TypeError] of reading a property of [null]. *)
Definition null_property_error (key : string) : error :=
  Error ("Cannot read properties of null (reading '" ++ key ++ "')").

End JS.

Import JS.

(** ** What a call can come to *)

Inductive completion (A : Type) : Type :=
| Returned (a : A)
| Threw (e : error)
| OutOfFuel.

Arguments Returned {A} a.
Arguments Threw {A} e.
Arguments OutOfFuel {A}.

(** ** [fetch] and its responses *)

Module Fetch.

(** What [await response.json()] does: it resolves with the parsed body, or
    rejects (the body is not JSON, or the connection fails while it is read)
    with an error that carries a message and no [status]. *)
Inductive body_result : Type :=
| Json (data : json)
| Unreadable (message : string).

Record Response : Type := mkResponse {
  status : Z;
  statusText : string;
  retry_after : option string;   (* headers.get('Retry-After'), null if absent *)
  body : body_result
}.

(** [response.ok] *)
Definition ok (r : Response) : bool := (200 <=? status r) && (status r <=? 299).

(** [await fetch(...)]: a response, or a rejection whose error carries a
    message and no [status]. *)
Inductive outcome : Type :=
| Resolved (r : Response)
| Rejected (message : string).

(** The network answers the n-th request of one call, counted from 0. *)
Definition network : Type := nat -> outcome.

(** [data.message || response.statusText] as the text of an error message,
    for parsed data other than [null]. *)
Definition upstream_message (data : json) (r : Response) : string :=
  match get data "message" with
  | Some m => if truthy m then to_string m else statusText r
  | None => statusText r
  end.

(** The same expression for any parsed data: reading a property of [null]
    throws a [TypeError]. *)
Definition message_or_statusText (data : json) (r : Response) : error + string :=
  match data with
  | JNull => inl (null_property_error "message")
  | _ => inr (upstream_message data r)
  end.

End Fetch.

Import Fetch.

(** ** The retry loop *)

Module Retry.

(** A timer awaited before a retry: the delay before jitter and, when jitter
    is applied, the sample of [Math.random()] it is computed from. *)
Record timer : Type := mkTimer {
  delay : number;
  random_sample : option Q
}.

(** [delay + delay * 0.25 * (Math.random() * 2 - 1)], the argument of
    [setTimeout], over the rationals; [None] stands for [NaN]. *)
Definition finalDelay (t : timer) : option Q :=
  match delay t, random_sample t with
  | Finite d, Some u => Some (inject_Z d + inject_Z d * (1 # 4) * (u * 2 - 1))%Q
  | Finite d, None => Some (inject_Z d)
  | NaN, _ => None
  end.

(** What a call does on the way: the requests it sends, numbered from 0,
    and the timers it awaits. *)
Inductive event : Type :=
| Request (n : nat)
| Sleep (t : timer).

(** One pass through the body of the loop. *)
Inductive step : Type :=
| Again (t : timer)       (* await the timer; attempt++; continue *)
| Give (data : json)      (* return data *)
| Throw (e : error).      (* throw error *)

(** What the [try] block does before control leaves it. *)
Inductive attempt_result : Type :=
| Retry (t : timer)
| Return (data : json)
| Raise (e : error).

(** [Math.pow(2, attempt + 1) * 1000] *)
Definition backoff (attempt : nat) : number :=
  mul (pow2 (attempt + 1)) (Finite 1000).

Section Loop.

Variable iteration : nat -> step.
Variable maxRetries : nat.

(** [let attempt = 0; while (attempt < maxRetries) { ... }
    throw new Error('Max retries exceeded')] *)
Fixpoint loop (fuel attempt : nat) : completion json * list event :=
  match fuel with
  | O => (OutOfFuel, [])
  | S fuel' =>
      if (attempt <? maxRetries)%nat then
        match iteration attempt with
        | Give data => (Returned data, [Request attempt])
        | Throw e => (Threw e, [Request attempt])
        | Again t =>
            let (c, tr) := loop fuel' (S attempt) in
            (c, Request attempt :: Sleep t :: tr)
        end
      else (Threw (Error "Max retries exceeded"), [])
  end.

(** The executions of the loop from a given value of [attempt], as a
    relation: how the call completes and what it did on the way. *)
Inductive run : nat -> completion json -> list event -> Prop :=
| run_exit attempt :
    (maxRetries <= attempt)%nat ->
    run attempt (Threw (Error "Max retries exceeded")) []
| run_give attempt data :
    (attempt < maxRetries)%nat ->
    iteration attempt = Give data ->
    run attempt (Returned data) [Request attempt]
| run_throw attempt e :
    (attempt < maxRetries)%nat ->
    iteration attempt = Throw e ->
    run attempt (Threw e) [Request attempt]
| run_again attempt t c tr :
    (attempt < maxRetries)%nat ->
    iteration attempt = Again t ->
    run (S attempt) c tr ->
    run attempt c (Request attempt :: Sleep t :: tr).

End Loop.

Definition requests (tr : list event) : list nat :=
  flat_map (fun e => match e with Request n => [n] | Sleep _ => [] end) tr.

(** Request [n] was answered by a retry: the timer [t] was awaited and
    request [n + 1] sent. *)
Definition retried_after (tr : list event) (n : nat) (t : timer) : Prop :=
  exists pre post, tr = (pre ++ Request n :: Sleep t :: Request (S n) :: post)%list.

(** Request [n] is the last thing the call did. *)
Definition ends_with_request (tr : list event) (n : nat) : Prop :=
  exists pre, tr = (pre ++ [Request n])%list.

End Retry.

Import Retry.

(** ** [NotionClientWithRateLimiting] (docs/rate-limiting.md) *)

Module NotionClientWithRateLimiting.

(** [retryAfter ? parseInt(retryAfter) * 1000 : Math.pow(2, attempt + 1) * 1000] *)
Definition rate_limit_delay (retryAfter : option string) (attempt : nat) : number :=
  match retryAfter with
  | Some s =>
      if truthy_string s then mul (parseInt s) (Finite 1000) else backoff attempt
  | None => backoff attempt
  end.

(** The statements after the rate-limit check. *)
Definition read_response (r : Response) : attempt_result :=
  match body r with
  | Unreadable message => Raise (Error message)
  | Json data =>
      if negb (ok r) then
        match message_or_statusText data r with
        | inl e => Raise e
        | inr m => Raise (Error ("Notion API error: " ++ m))
        end
      else Return data
  end.

Section Call.

Variable net : network.
Variable random : nat -> Q.     (* the sample [Math.random()] draws in a pass *)
Variable maxRetries : nat.

(** The [try] block of the pass with the given value of [attempt].  Every
    pass sends one request, so this is request number [attempt] of the call.
    The body runs under [attempt < maxRetries], where [maxRetries - 1] is
    the same over the naturals and over the numbers of the source. *)
Definition try_block (attempt : nat) : attempt_result :=
  match net attempt with
  | Rejected message => Raise (Error message)
  | Resolved response =>
      if status response =? 429 then
        let delay := rate_limit_delay (retry_after response) attempt in
        if (attempt <? maxRetries - 1)%nat
        then Retry {| delay := delay; random_sample := Some (random attempt) |}
        else read_response response
      else read_response response
  end.

(** The [catch (error)] clause, under [// Network errors - retry with
    backoff]. *)
Definition catch_block (attempt : nat) (e : error) : step :=
  if (attempt <? maxRetries - 1)%nat
     && negb (includes "Notion API error" (error_message e))
  then Again {| delay := backoff attempt; random_sample := None |}
  else Throw e.

(** One pass: the [try] block, and the [catch] clause for what it throws. *)
Definition iteration (attempt : nat) : step :=
  match try_block attempt with
  | Retry t => Again t
  | Return data => Give data
  | Raise e => catch_block attempt e
  end.

(** [executeWithRetry(endpoint, options, maxRetries)]: how the call
    completes, and the requests and timers on the way.  [this.throttle()]
    only waits on the clock and is left out. *)
Definition executeWithRetry : completion json * list event :=
  loop iteration maxRetries (S maxRetries) 0.

End Call.

End NotionClientWithRateLimiting.

(** ** [NotionClientSimple] (the reactive client) *)

Module NotionClientSimple.

(** [retryAfter ? parseInt(retryAfter) : Math.pow(2, attempt + 1)] *)
Definition waitSeconds (retryAfter : option string) (attempt : nat) : number :=
  match retryAfter with
  | Some s => if truthy_string s then parseInt s else pow2 (attempt + 1)
  | None => pow2 (attempt + 1)
  end.

(** The error built by [new Error(data.message || response.statusText)],
    [error.status = response.status] and [error.code = data.code]. *)
Definition api_error (message : string) (data : json) (r : Response) : error :=
  {| error_message := message;
     error_status := Some (status r);
     error_code := get data "code" |}.

(** The statements under [// Parse response]. *)
Definition read_response (r : Response) : attempt_result :=
  match body r with
  | Unreadable message => Raise (Error message)
  | Json data =>
      if negb (ok r) then
        match message_or_statusText data r with
        | inl e => Raise e
        | inr m => Raise (api_error m data r)
        end
      else Return data
  end.

(** [!error.status] *)
Definition no_status (e : error) : bool :=
  match error_status e with
  | Some s => s =? 0
  | None => true
  end.

Section Call.

Variable net : network.
Variable maxRetries : nat.

(** The [try] block of the pass with the given value of [attempt]. *)
Definition try_block (attempt : nat) : attempt_result :=
  match net attempt with
  | Rejected message => Raise (Error message)
  | Resolved response =>
      if status response =? 429 then
        let waitSeconds := waitSeconds (retry_after response) attempt in
        if (attempt <? maxRetries - 1)%nat
        then Retry {| delay := mul waitSeconds (Finite 1000);
                      random_sample := None |}
        else read_response response
      else read_response response
  end.

(** The [catch (error)] clause, under [// Retry network errors, but not API
    errors]. *)
Definition catch_block (attempt : nat) (e : error) : step :=
  if (attempt <? maxRetries - 1)%nat && no_status e
  then Again {| delay := backoff attempt; random_sample := None |}
  else Throw e.

(** One pass: the [try] block, and the [catch] clause for what it throws. *)
Definition iteration (attempt : nat) : step :=
  match try_block attempt with
  | Retry t => Again t
  | Return data => Give data
  | Raise e => catch_block attempt e
  end.

(** [request(endpoint, options, maxRetries)] *)
Definition request : completion json * list event :=
  loop iteration maxRetries (S maxRetries) 0.

End Call.

End NotionClientSimple.

(** ** The pagination walkers

    A walker returns how it completes together with the [start_cursor] of
    each request it sent, in order. *)

Module Pagination.

(** The value of [next_cursor], and of the walkers' variable [cursor]. *)
Inductive cursor_value : Type :=
| Undefined
| Null
| Cursor (s : string).

(** A paginated list response of the API. *)
Record page : Type := mkPage {
  results : list json;
  has_more : bool;
  next_cursor : cursor_value
}.

Definition truthy_cursor (c : cursor_value) : bool :=
  match c with
  | Cursor s => truthy_string s
  | Undefined | Null => false
  end.

(** [c === 'null'] *)
Definition is_null_string (c : cursor_value) : bool :=
  match c with
  | Cursor s => String.eqb s "null"
  | Undefined | Null => false
  end.

(** A cursor the validating walkers accept: a non-empty string other than
    "null". *)
Definition usable (c : cursor_value) : Prop :=
  truthy_cursor c = true /\ is_null_string c = false.

(** What awaiting one page request does. *)
Inductive reply : Type :=
| Page (response : page)
| Failure (e : error).

(** The upstream answers the n-th request of a walk (from 0), sent with the
    given [start_cursor]. *)
Definition server : Type := nat -> cursor_value -> reply.

Section Walkers.

Variable srv : server.

(** *** [getAllDatabaseRows] (implementation guide, pattern 4) *)

(** [response.has_more && response.next_cursor
     && response.next_cursor !== 'null'] *)
Definition valid_cursor (response : page) : bool :=
  has_more response && truthy_cursor (next_cursor response)
  && negb (is_null_string (next_cursor response)).

(** The [do ... while (cursor && pageCount < maxPages)] loop; the walk has
    sent [pageCount] requests when a pass begins. *)
Fixpoint getAllDatabaseRows_loop (maxPages fuel : nat) (allRows : list json)
    (cursor : cursor_value) (pageCount : nat)
  : completion (list json) * list cursor_value :=
  match fuel with
  | O => (OutOfFuel, [])
  | S fuel' =>
      match srv pageCount cursor with
      | Failure e => (Threw e, [cursor])
      | Page response =>
          let allRows := (allRows ++ results response)%list in
          if valid_cursor response then
            let cursor' := next_cursor response in
            let pageCount := S pageCount in
            if truthy_cursor cursor' && (pageCount <? maxPages)%nat then
              let (c, tr) :=
                getAllDatabaseRows_loop maxPages fuel' allRows cursor' pageCount in
              (c, cursor :: tr)
            else (Returned allRows, [cursor])
          else (Returned allRows, [cursor])
      end
  end.

(** The walker for a given safety limit. *)
Definition getAllDatabaseRows_limit (maxPages : nat)
  : completion (list json) * list cursor_value :=
  getAllDatabaseRows_loop maxPages (S maxPages) [] Undefined 0.

(** [const maxPages = 100;  // Safety limit] *)
Definition getAllDatabaseRows : completion (list json) * list cursor_value :=
  getAllDatabaseRows_limit 100.

(** *** [paginateQuery] (pain points, section 4) *)

(** [!response.has_more || !response.next_cursor
     || response.next_cursor === "null"] *)
Definition last_page (response : page) : bool :=
  negb (has_more response) || negb (truthy_cursor (next_cursor response))
  || is_null_string (next_cursor response).

(** The [while (attempts < maxAttempts)] loop; [attempts] is also the
    number of requests sent so far. *)
Fixpoint paginateQuery_loop (maxAttempts fuel : nat) (allResults : list json)
    (cursor : cursor_value) (attempts : nat)
  : completion (list json) * list cursor_value :=
  match fuel with
  | O => (OutOfFuel, [])
  | S fuel' =>
      if (attempts <? maxAttempts)%nat then
        match srv attempts cursor with
        | Failure e => (Threw e, [cursor])
        | Page response =>
            let allResults := (allResults ++ results response)%list in
            if last_page response then (Returned allResults, [cursor])
            else
              let (c, tr) :=
                paginateQuery_loop maxAttempts fuel' allResults
                  (next_cursor response) (S attempts) in
              (c, cursor :: tr)
        end
      else (Returned allResults, [])
  end.

Definition paginateQuery_limit (maxAttempts : nat)
  : completion (list json) * list cursor_value :=
  paginateQuery_loop maxAttempts (S maxAttempts) [] Undefined 0.

(** [const maxAttempts = 100; // Safety limit] *)
Definition paginateQuery : completion (list json) * list cursor_value :=
  paginateQuery_limit 100.

(** *** [getFullProperty] (pain points, section 6) *)

(** The [while (true)] loop, which has no counter of its own: [sent] is
    the number of requests sent so far, and the fuel bounds the passes. *)
Fixpoint getFullProperty_loop (fuel : nat) (allItems : list json)
    (cursor : cursor_value) (sent : nat)
  : completion (list json) * list cursor_value :=
  match fuel with
  | O => (OutOfFuel, [])
  | S fuel' =>
      match srv sent cursor with
      | Failure e => (Threw e, [cursor])
      | Page response =>
          let allItems := (allItems ++ results response)%list in
          if negb (has_more response) then (Returned allItems, [cursor])
          else
            let (c, tr) :=
              getFullProperty_loop fuel' allItems (next_cursor response) (S sent) in
            (c, cursor :: tr)
      end
  end.

Definition getFullProperty (fuel : nat) : completion (list json) * list cursor_value :=
  getFullProperty_loop fuel [] Undefined 0.

End Walkers.

(** The pages a walk received, from the requests it sent. *)
Fixpoint received (srv : server) (sent : nat) (tr : list cursor_value) : list page :=
  match tr with
  | [] => []
  | c :: rest =>
      match srv sent c with
      | Page response => response :: received srv (S sent) rest
      | Failure _ => received srv (S sent) rest
      end
  end.

(** A simulated upstream: the n-th request gets the n-th page of the list,
    whatever its cursor; requests beyond the list fail. *)
Definition serve (pages : list page) : server :=
  fun n _ =>
    match nth_error pages n with
    | Some p => Page p
    | None => Failure (Error "no such page")
    end.

End Pagination.

(** ** The [CallToolRequestSchema] handler of http-server.js *)

Module HttpServer.

(** A thrown value: an [Error] object or anything else. *)
Inductive thrown : Type :=
| ThrownError (e : error)
| ThrownValue (v : value).

(** [error instanceof Error ? error.message : String(error)] *)
Definition thrown_message (t : thrown) : string :=
  match t with
  | ThrownError e => error_message e
  | ThrownValue (Some v) => to_string v
  | ThrownValue None => "undefined"
  end.

(** The methods of [NotionClientWrapper] the handler calls, with the
    arguments it passes. *)
Inductive client_call : Type :=
| appendBlockChildren (block_id children : value)
| retrieveBlock (block_id : value)
| retrieveBlockChildren (block_id start_cursor page_size : value)
| deleteBlock (block_id : value)
| updateBlock (block_id block : value)
| retrievePage (page_id : value)
| updatePageProperties (page_id properties : value)
| listAllUsers (start_cursor page_size : value)
| retrieveUser (user_id : value)
| retrieveBotUser
| createDatabase (parent properties title is_inline : value)
| queryDatabase (database_id filter sorts start_cursor page_size : value)
| retrieveDatabase (database_id : value)
| updateDatabase (database_id title description properties : value)
| createDatabaseItem (parent properties : value)
| createComment (parent rich_text : value)
| retrieveComments (block_id start_cursor page_size : value)
| search (query filter sort start_cursor page_size : value).

(** Awaiting a client method: the parsed body of the upstream response, or a
    rejection. *)
Inductive client_reply : Type :=
| Resolves (response : json)
| Rejects (t : thrown).

(** [request.params] *)
Record CallToolRequest : Type := mkRequest {
  name : string;
  arguments : value
}.

Record TextContent : Type := mkText {
  type : string;
  text : string
}.

Record CallToolResult : Type := mkResult {
  content : list TextContent
}.

(** [{ error: message }] *)
Definition error_object (message : string) : json :=
  JObject [("error", JString message)].

(** The names the [switch] statement has a case for. *)
Definition tool_names : list string :=
  [ "notion_append_block_children"; "notion_retrieve_block";
    "notion_retrieve_block_children"; "notion_delete_block";
    "notion_update_block"; "notion_retrieve_page";
    "notion_update_page_properties"; "notion_list_all_users";
    "notion_retrieve_user"; "notion_retrieve_bot_user";
    "notion_create_database"; "notion_query_database";
    "notion_retrieve_database"; "notion_update_database";
    "notion_create_database_item"; "notion_create_comment";
    "notion_retrieve_comments"; "notion_search" ].

Section Server.

Variable notionClient : client_call -> client_reply.
(** [JSON.stringify(v, null, space)]; [space] is 0 when it is left out. *)
Variable JSON_stringify : json -> nat -> string.
(** [process.env.NOTION_MARKDOWN_CONVERSION === 'true'] *)
Variable enableMarkdownConversion : bool.

Definition await (r : client_reply) : thrown + json :=
  match r with
  | Resolves response => inr response
  | Rejects t => inl t
  end.

Definition throw_Error (message : string) : thrown + json :=
  inl (ThrownError (Error message)).

(** [!v] *)
Definition not (v : value) : bool := negb (truthy_value v).

(** The [switch (request.params.name)] statement. *)
Definition switch (name : string) (args : json) : thrown + json :=
  let arg := get args in
  if String.eqb name "notion_append_block_children" then
    if not (arg "block_id") || not (arg "children")
    then throw_Error "Missing required arguments: block_id and children"
    else await (notionClient (appendBlockChildren (arg "block_id") (arg "children")))
  else if String.eqb name "notion_retrieve_block" then
    if not (arg "block_id")
    then throw_Error "Missing required argument: block_id"
    else await (notionClient (retrieveBlock (arg "block_id")))
  else if String.eqb name "notion_retrieve_block_children" then
    if not (arg "block_id")
    then throw_Error "Missing required argument: block_id"
    else await (notionClient (retrieveBlockChildren
                  (arg "block_id") (arg "start_cursor") (arg "page_size")))
  else if String.eqb name "notion_delete_block" then
    if not (arg "block_id")
    then throw_Error "Missing required argument: block_id"
    else await (notionClient (deleteBlock (arg "block_id")))
  else if String.eqb name "notion_update_block" then
    if not (arg "block_id") || not (arg "block")
    then throw_Error "Missing required arguments: block_id and block"
    else await (notionClient (updateBlock (arg "block_id") (arg "block")))
  else if String.eqb name "notion_retrieve_page" then
    if not (arg "page_id")
    then throw_Error "Missing required argument: page_id"
    else await (notionClient (retrievePage (arg "page_id")))
  else if String.eqb name "notion_update_page_properties" then
    if not (arg "page_id") || not (arg "properties")
    then throw_Error "Missing required arguments: page_id and properties"
    else await (notionClient (updatePageProperties (arg "page_id") (arg "properties")))
  else if String.eqb name "notion_list_all_users" then
    await (notionClient (listAllUsers (arg "start_cursor") (arg "page_size")))
  else if String.eqb name "notion_retrieve_user" then
    if not (arg "user_id")
    then throw_Error "Missing required argument: user_id"
    else await (notionClient (retrieveUser (arg "user_id")))
  else if String.eqb name "notion_retrieve_bot_user" then
    await (notionClient retrieveBotUser)
  else if String.eqb name "notion_create_database" then
    if not (arg "parent") || not (arg "properties")
    then throw_Error "Missing required arguments: parent and properties"
    else await (notionClient (createDatabase
                  (arg "parent") (arg "properties") (arg "title") (arg "is_inline")))
  else if String.eqb name "notion_query_database" then
    if not (arg "database_id")
    then throw_Error "Missing required argument: database_id"
    else await (notionClient (queryDatabase
                  (arg "database_id") (arg "filter") (arg "sorts")
                  (arg "start_cursor") (arg "page_size")))
  else if String.eqb name "notion_retrieve_database" then
    if not (arg "database_id")
    then throw_Error "Missing required argument: database_id"
    else await (notionClient (retrieveDatabase (arg "database_id")))
  else if String.eqb name "notion_update_database" then
    if not (arg "database_id")
    then throw_Error "Missing required argument: database_id"
    else await (notionClient (updateDatabase
                  (arg "database_id") (arg "title") (arg "description")
                  (arg "properties")))
  else if String.eqb name "notion_create_database_item" then
    if not (arg "parent") || not (arg "properties")
    then throw_Error "Missing required arguments: parent and properties"
    else await (notionClient (createDatabaseItem (arg "parent") (arg "properties")))
  else if String.eqb name "notion_create_comment" then
    if not (arg "parent") || not (arg "rich_text")
    then throw_Error "Missing required arguments: parent and rich_text"
    else await (notionClient (createComment (arg "parent") (arg "rich_text")))
  else if String.eqb name "notion_retrieve_comments" then
    if not (arg "block_id")
    then throw_Error "Missing required argument: block_id"
    else await (notionClient (retrieveComments
                  (arg "block_id") (arg "start_cursor") (arg "page_size")))
  else if String.eqb name "notion_search" then
    await (notionClient (search
             (arg "query") (arg "filter") (arg "sort")
             (arg "start_cursor") (arg "page_size")))
  else throw_Error ("Unknown tool: " ++ name).

Definition text_result (s : string) : CallToolResult :=
  {| content := [ {| type := "text"; text := s |} ] |}.

(** The statements under [// Format response]. *)
Definition format_response (response : json) : CallToolResult :=
  if enableMarkdownConversion && truthy response && typeof_object response then
    let markdown := JSON_stringify response 2 in
    text_result markdown
  else
    text_result (JSON_stringify response 2).

(** The body of the [try] block: its value, or what it throws. *)
Definition try_block (request : CallToolRequest) : thrown + CallToolResult :=
  match arguments request with
  | Some args =>
      if truthy args then
        match switch (name request) args with
        | inr response => inr (format_response response)
        | inl t => inl t
        end
      else inl (ThrownError (Error "No arguments provided"))
  | None => inl (ThrownError (Error "No arguments provided"))
  end.

(** The [catch (error)] clause. *)
Definition catch_block (t : thrown) : CallToolResult :=
  text_result (JSON_stringify (error_object (thrown_message t)) 0).

(** The handler: what the promise it returns settles to, a fulfilment
    ([inr]) or a rejection ([inl]). *)
Definition handler (request : CallToolRequest) : thrown + CallToolResult :=
  match try_block request with
  | inr result => inr result
  | inl t => inr (catch_block t)
  end.

End Server.

End HttpServer.

(** ** Simulated upstreams *)

Module Scenario.

(** The network answers from a list, then with a fixed outcome. *)
Definition script (answers : list outcome) (then_ : outcome) : network :=
  fun n => nth n answers then_.

Definition rate_limited (retryAfter : option string) : Response :=
  {| status := 429; statusText := "Too Many Requests"; retry_after := retryAfter;
     body := Json (JObject [("message", JString "Rate limited");
                            ("code", JString "rate_limited")]) |}.

Definition success (data : json) : Response :=
  {| status := 200; statusText := "OK"; retry_after := None; body := Json data |}.

(** An error response with the error body of the API. *)
Definition api_failure (status : Z) (statusText message code : string) : Response :=
  {| status := status; statusText := statusText; retry_after := None;
     body := Json (JObject [("message", JString message); ("code", JString code)]) |}.

(** An error response whose body is not JSON, as a proxy may send. *)
Definition html_failure (status : Z) (statusText : string) : Response :=
  {| status := status; statusText := statusText; retry_after := None;
     body := Unreadable "Unexpected token < in JSON at position 0" |}.

(** [Math.random()] always drawing 0.5, which makes the jitter zero. *)
Definition centred : nat -> Q := fun _ => (1 # 2)%Q.

Definition a_page : json := JObject [("object", JString "page"); ("id", JString "abc123")].

(** A page of a listing whose rows are numbers. *)
Definition rows (numbers : list Z) (has_more : bool)
    (next_cursor : Pagination.cursor_value) : Pagination.page :=
  {| Pagination.results := map JNumber numbers;
     Pagination.has_more := has_more;
     Pagination.next_cursor := next_cursor |}.

(** A listing of [n] pages of one row each, the last of which reports
    [has_more: false]. *)
Definition listing (n : nat) : list Pagination.page :=
  map (fun i => rows [Z.of_nat i] (S i <? n)%nat
                  (if (S i <? n)%nat then Pagination.Cursor "next" else Pagination.Null))
      (seq 0 n).

(** [JSON.stringify] on the JSON values of this development, for the runs
    below; the properties of the handler hold for any function in its
    place. *)
Definition hex_digit (n : nat) : ascii :=
  ascii_of_nat (if (n <? 10)%nat then 48 + n else 87 + n).

Definition escape (c : ascii) : string :=
  let n := nat_of_ascii c in
  if (n =? 34)%nat then "\" ++ String c ""
  else if (n =? 92)%nat then "\\"
  else if (n =? 8)%nat then "\b"
  else if (n =? 9)%nat then "\t"
  else if (n =? 10)%nat then "\n"
  else if (n =? 12)%nat then "\f"
  else if (n =? 13)%nat then "\r"
  else if (n <? 32)%nat
       then "\u00" ++ String (hex_digit (n / 16)) (String (hex_digit (n mod 16)) "")
  else String c "".

Fixpoint escape_all (s : string) : string :=
  match s with
  | EmptyString => ""
  | String c rest => escape c ++ escape_all rest
  end.

Definition quote (s : string) : string :=
  String (ascii_of_nat 34) (escape_all s ++ String (ascii_of_nat 34) "").

Definition newline : string := String (ascii_of_nat 10) "".

Definition bracket (opening closing gap indent : string) (members : list string) : string :=
  match members with
  | [] => opening ++ closing
  | _ :: _ =>
      if truthy_string gap
      then opening ++ newline ++ indent ++ gap
           ++ String.concat ("," ++ newline ++ indent ++ gap) members
           ++ newline ++ indent ++ closing
      else opening ++ String.concat "," members ++ closing
  end.

Fixpoint stringify_at (gap indent : string) (v : json) : string :=
  match v with
  | JNull => "null"
  | JBool true => "true"
  | JBool false => "false"
  | JNumber n => string_of_Z n
  | JString s => quote s
  | JArray items =>
      bracket "[" "]" gap indent
        ((fix elements (l : list json) : list string :=
            match l with
            | [] => []
            | x :: rest => stringify_at gap (indent ++ gap) x :: elements rest
            end) items)
  | JObject fields =>
      bracket "{" "}" gap indent
        ((fix members (l : list (string * json)) : list string :=
            match l with
            | [] => []
            | (k, x) :: rest =>
                (quote k ++ (if truthy_string gap then ": " else ":")
                 ++ stringify_at gap (indent ++ gap) x) :: members rest
            end) fields)
  end.

Fixpoint spaces (n : nat) : string :=
  match n with
  | O => ""
  | S m => String " " (spaces m)
  end.

Definition stringify (v : json) (space : nat) : string :=
  stringify_at (spaces (Nat.min 10 space)) "" v.

(** A client whose every call is rejected by the upstream. *)
Definition failing_client : HttpServer.client_call -> HttpServer.client_reply :=
  fun _ => HttpServer.Rejects (HttpServer.ThrownError (Error "Could not find page")).

(** A client that answers every call with the same page. *)
Definition page_client : HttpServer.client_call -> HttpServer.client_reply :=
  fun _ => HttpServer.Resolves a_page.

(** An upstream that never runs out of pages. *)
Definition endless : Pagination.server :=
  fun n _ => Pagination.Page (rows [Z.of_nat n] true (Pagination.Cursor "next")).

End Scenario.

(** Short names for the two clients. *)
Module E := NotionClientWithRateLimiting.
Module C := NotionClientSimple.

(** ** [notionRequest] (reactive handling of 429) *)

Module NotionRequest.

(** One pass through the body of the loop: besides returning and throwing,
    a pass retries after a timer (the 429 branch) or at once (the [catch]
    clause, which only does [attempt++]). *)
Inductive step : Type :=
| Wait (t : timer)
| Immediately
| Give (data : json)
| Throw (e : error).

(** [retryAfter ? parseInt(retryAfter) : Math.pow(2, attempt)] *)
Definition waitSeconds (retryAfter : option string) (attempt : nat) : number :=
  match retryAfter with
  | Some s => if truthy_string s then parseInt s else pow2 attempt
  | None => pow2 attempt
  end.

(** [new Error(`HTTP ${response.status}: ${response.statusText}`)] *)
Definition http_error (r : Response) : error :=
  Error ("HTTP " ++ string_of_Z (status r) ++ ": " ++ statusText r).

Section Call.

Variable net : network.
Variable maxRetries : nat.

(** The [try] block of the pass with the given value of [attempt]. *)
Definition try_block (attempt : nat) : attempt_result :=
  match net attempt with
  | Rejected message => Raise (Error message)
  | Resolved response =>
      if status response =? 429 then
        let waitSeconds := waitSeconds (retry_after response) attempt in
        Retry {| delay := mul waitSeconds (Finite 1000); random_sample := None |}
      else if negb (ok response) then Raise (http_error response)
      else
        match body response with
        | Json data => Return data
        | Unreadable message => Raise (Error message)
        end
  end.

(** [if (attempt >= maxRetries - 1) throw error; attempt++;] *)
Definition catch_block (attempt : nat) (e : error) : step :=
  if (maxRetries - 1 <=? attempt)%nat then Throw e else Immediately.

Definition iteration (attempt : nat) : step :=
  match try_block attempt with
  | Retry t => Wait t
  | Return data => Give data
  | Raise e => catch_block attempt e
  end.

(** [let attempt = 0; while (attempt < maxRetries) { ... }
    throw new Error('Max retries exceeded')] *)
Fixpoint loop (fuel attempt : nat) : completion json * list event :=
  match fuel with
  | O => (OutOfFuel, [])
  | S fuel' =>
      if (attempt <? maxRetries)%nat then
        match iteration attempt with
        | Give data => (Returned data, [Request attempt])
        | Throw e => (Threw e, [Request attempt])
        | Wait t =>
            let (c, tr) := loop fuel' (S attempt) in
            (c, Request attempt :: Sleep t :: tr)
        | Immediately =>
            let (c, tr) := loop fuel' (S attempt) in
            (c, Request attempt :: tr)
        end
      else (Threw (Error "Max retries exceeded"), [])
  end.

(** [notionRequest(url, options, maxRetries)] *)
Definition notionRequest : completion json * list event :=
  loop (S maxRetries) 0.

(** The executions of the loop from a given value of [attempt]. *)
Inductive run : nat -> completion json -> list event -> Prop :=
| run_exit attempt :
    (maxRetries <= attempt)%nat ->
    run attempt (Threw (Error "Max retries exceeded")) []
| run_give attempt data :
    (attempt < maxRetries)%nat ->
    iteration attempt = Give data ->
    run attempt (Returned data) [Request attempt]
| run_throw attempt e :
    (attempt < maxRetries)%nat ->
    iteration attempt = Throw e ->
    run attempt (Threw e) [Request attempt]
| run_wait attempt t c tr :
    (attempt < maxRetries)%nat ->
    iteration attempt = Wait t ->
    run (S attempt) c tr ->
    run attempt c (Request attempt :: Sleep t :: tr)
| run_immediately attempt c tr :
    (attempt < maxRetries)%nat ->
    iteration attempt = Immediately ->
    run (S attempt) c tr ->
    run attempt c (Request attempt :: tr).

End Call.

(** Request [n] was followed at once by request [n + 1]. *)
Definition retried_at_once (tr : list event) (n : nat) : Prop :=
  exists pre post, tr = (pre ++ Request n :: Request (S n) :: post)%list.

End NotionRequest.

(** ** [retryWithBackoff] and [withRetry] *)

Module RetryWithBackoff.

(** What awaiting [fn()] does: it resolves with a value, or rejects with an
    error; [retry_after] is [error.headers?.get('retry-after')], absent also
    when the error has no [headers]. *)
Inductive call_outcome : Type :=
| Resolves (result : json)
| RejectsWith (e : error) (retry_after : option string).

(** [fn] answers its n-th call, counted from 0. *)
Definition thunk : Type := nat -> call_outcome.

(** [error.status !== 429] *)
Definition not_rate_limited (e : error) : bool :=
  match error_status e with
  | Some s => negb (s =? 429)
  | None => true
  end.

Section Call.

Variable fn : thunk.
Variable random : nat -> Q.
Variable maxRetries : nat.

(** One pass of the variant that reads the [retry-after] header
    (docs/rate-limiting.md, "Use retry-after Header", and the exponential
    fallback of the reactive guide, which only differs in the fraction of
    jitter applied to the delay). *)
Definition iteration (attempt : nat) : Retry.step :=
  match fn attempt with
  | Resolves result => Retry.Give result
  | RejectsWith e retryAfter =>
      if not_rate_limited e || (maxRetries - 1 <=? attempt)%nat then Retry.Throw e
      else Again {| delay := NotionClientWithRateLimiting.rate_limit_delay retryAfter attempt;
                    random_sample := Some (random attempt) |}
  end.

(** [retryWithBackoff(fn, maxRetries)]; a [Request] of the trace is a call of
    [fn]. *)
Definition retryWithBackoff : completion json * list event :=
  Retry.loop iteration maxRetries (S maxRetries) 0.

(** One pass of the variant without the header (docs/rate-limiting.md,
    "Exponential Backoff with Jitter", and [withRetry] of the implementation
    guide): [baseDelay = Math.pow(2, attempt + 1) * 1000]. *)
Definition plain_iteration (attempt : nat) : Retry.step :=
  match fn attempt with
  | Resolves result => Retry.Give result
  | RejectsWith e _ =>
      if not_rate_limited e || (maxRetries - 1 <=? attempt)%nat then Retry.Throw e
      else Again {| delay := backoff attempt;
                    random_sample := Some (random attempt) |}
  end.

(** [withRetry(fn, maxRetries)] *)
Definition withRetry : completion json * list event :=
  Retry.loop plain_iteration maxRetries (S maxRetries) 0.

End Call.

End RetryWithBackoff.

(** ** Further simulated upstreams *)

Module Cases.

(** A thunk that answers from a list, then with a fixed outcome. *)
Definition answers (l : list RetryWithBackoff.call_outcome)
    (then_ : RetryWithBackoff.call_outcome) : RetryWithBackoff.thunk :=
  fun n => nth n l then_.

(** The rejection of an SDK call that was rate limited. *)
Definition rate_limit_error : error :=
  {| error_message := "Rate limited"; error_status := Some 429;
     error_code := Some (JString "rate_limited") |}.

(** The rejection of an SDK call for an object that does not exist. *)
Definition not_found_error : error :=
  {| error_message := "Could not find page"; error_status := Some 404;
     error_code := Some (JString "object_not_found") |}.

End Cases.

(** ** [getFullProperty] of the implementation guide (pattern 3) *)

Module PropertyItems.

Import Pagination.

(** A response of [retrievePagePropertyItem]: [self] is the response object,
    [results] its array of items, absent when the property has a single
    item. *)
Record response : Type := mkResponse {
  self : json;
  results : option (list json);
  has_more : bool;
  next_cursor : cursor_value
}.

(** [response.results || [response]] *)
Definition items (r : response) : list json :=
  match results r with
  | Some l => l
  | None => [self r]
  end.

Inductive reply : Type :=
| Answer (r : response)
| Failure (e : error).

Definition server : Type := nat -> cursor_value -> reply.

Section Walk.

Variable srv : server.

(** The [do ... while (cursor)] loop; [sent] is the number of requests sent
    so far, and the fuel bounds the passes. *)
Fixpoint getFullProperty_loop (fuel : nat) (allItems : list json)
    (cursor : cursor_value) (sent : nat)
  : completion (list json) * list cursor_value :=
  match fuel with
  | O => (OutOfFuel, [])
  | S fuel' =>
      match srv sent cursor with
      | Failure e => (Threw e, [cursor])
      | Answer response =>
          let allItems := (allItems ++ items response)%list in
          if has_more response then
            let cursor' := next_cursor response in
            if truthy_cursor cursor' then
              let (c, tr) := getFullProperty_loop fuel' allItems cursor' (S sent) in
              (c, cursor :: tr)
            else (Returned allItems, [cursor])
          else (Returned allItems, [cursor])
      end
  end.

Definition getFullProperty (fuel : nat) : completion (list json) * list cursor_value :=
  getFullProperty_loop fuel [] Undefined 0.

End Walk.

(** The responses a walk received, from the requests it sent. *)
Fixpoint received (srv : server) (sent : nat) (tr : list cursor_value) : list response :=
  match tr with
  | [] => []
  | c :: rest =>
      match srv sent c with
      | Answer r => r :: received srv (S sent) rest
      | Failure _ => received srv (S sent) rest
      end
  end.

End PropertyItems.

(** ** [fetchAllBlocks] of the implementation guide (pattern 1) *)

Module Blocks.

(** A block object of the API: the two properties the code reads, and the
    rest of the object. *)
Record block : Type := mkBlock {
  id : string;
  has_children : bool;
  content : json
}.

(** A block as [fetchAllBlocks] returns it: [children] is the property the
    loop sets, absent on the blocks it does not set it on. *)
Inductive fetched : Type :=
| Fetched (b : block) (children : option (list fetched)).

(** What awaiting [client.retrieveBlockChildren(blockId)] does; [Children]
    carries [response.results]. *)
Inductive reply : Type :=
| Children (blocks : list block)
| Failure (e : error).

(** The upstream answers the n-th request of a call (from 0), made for the
    given block. *)
Definition server : Type := nat -> string -> reply.

(** The [for (const block of blocks)] loop, for a given way of fetching the
    children of one block; [sent] is the number of requests sent so far. *)
Fixpoint for_each
    (fetch : string -> nat -> completion (list fetched) * list string)
    (blocks : list block) (sent : nat)
  : completion (list fetched) * list string :=
  match blocks with
  | [] => (Returned [], [])
  | b :: rest =>
      if has_children b then
        match fetch (id b) sent with
        | (Returned children, tr) =>
            match for_each fetch rest (sent + List.length tr) with
            | (Returned done, tr') =>
                (Returned (Fetched b (Some children) :: done), (tr ++ tr')%list)
            | (Threw e, tr') => (Threw e, (tr ++ tr')%list)
            | (OutOfFuel, tr') => (OutOfFuel, (tr ++ tr')%list)
            end
        | (Threw e, tr) => (Threw e, tr)
        | (OutOfFuel, tr) => (OutOfFuel, tr)
        end
      else
        match for_each fetch rest sent with
        | (Returned done, tr') => (Returned (Fetched b None :: done), tr')
        | (Threw e, tr') => (Threw e, tr')
        | (OutOfFuel, tr') => (OutOfFuel, tr')
        end
  end.

Section Fetch.

Variable srv : server.

(** [fetchAllBlocks(blockId, depth, maxDepth)]: what it returns or throws,
    and the blocks it requested the children of, in order. *)
Fixpoint fetchAllBlocks_from (fuel : nat) (blockId : string)
    (depth maxDepth sent : nat)
  : completion (list fetched) * list string :=
  match fuel with
  | O => (OutOfFuel, [])
  | S fuel' =>
      if (maxDepth <=? depth)%nat then (Returned [], [])
      else
        match srv sent blockId with
        | Failure e => (Threw e, [blockId])
        | Children blocks =>
            let (c, tr) :=
              for_each
                (fun child sent' =>
                   fetchAllBlocks_from fuel' child (depth + 1) maxDepth sent')
                blocks (S sent) in
            (c, blockId :: tr)
        end
  end.

Definition fetchAllBlocks (blockId : string) (depth maxDepth : nat)
  : completion (list fetched) * list string :=
  fetchAllBlocks_from (S (maxDepth - depth)) blockId depth maxDepth 0.

End Fetch.

(** A forest of fetched blocks that is cut [levels] levels down: a block
    carries [children] exactly when it reports [has_children], the forests
    below are cut one level less, and the forest at level 0 is empty. *)
Fixpoint cut_at (levels : nat) (l : list fetched) : Prop :=
  match levels with
  | O => l = []
  | S k =>
      Forall (fun f =>
                match f with
                | Fetched b None => has_children b = false
                | Fetched b (Some children) =>
                    has_children b = true /\ cut_at k children
                end) l
  end.

End Blocks.

(** ** [validateNotionId] of the implementation guide *)

Module Validation.

(** [[0-9a-f]] under the [i] flag *)
Definition is_hex (c : ascii) : bool :=
  let n := nat_of_ascii c in
  (((48 <=? n) && (n <=? 57)) || ((97 <=? n) && (n <=? 102))
   || ((65 <=? n) && (n <=? 70)))%nat.

(** [[0-9a-f]{n}] at the start of a string: what is left after [n]
    hexadecimal digits. *)
Fixpoint hex (n : nat) (s : string) : option string :=
  match n with
  | O => Some s
  | S m =>
      match s with
      | String c rest => if is_hex c then hex m rest else None
      | EmptyString => None
      end
  end.

(** [-?]; a dash is not a hexadecimal digit, so taking it when it is there
    loses no match. *)
Definition dash (s : string) : string :=
  match s with
  | String "-" rest => rest
  | _ => s
  end.

Definition then_hex (n : nat) (s : option string) : option string :=
  match s with
  | Some rest => hex n (dash rest)
  | None => None
  end.

(** [$] *)
Definition at_end (s : option string) : bool :=
  match s with
  | Some EmptyString => true
  | _ => false
  end.

(** [/^[0-9a-f]{8}-?[0-9a-f]{4}-?[0-9a-f]{4}-?[0-9a-f]{4}-?[0-9a-f]{12}$/i.test(id)] *)
Definition uuidRegex (id : string) : bool :=
  at_end (then_hex 12 (then_hex 4 (then_hex 4 (then_hex 4 (hex 8 id))))).

(** [/^[0-9a-f]{32}$/i.test(id)] *)
Definition shortIdRegex (id : string) : bool := at_end (hex 32 id).

Definition validateNotionId (id name : string) : completion string :=
  if negb (uuidRegex id) && negb (shortIdRegex id) then
    Threw (Error ("Invalid " ++ name ++ ": " ++ id
                  ++ ". Must be a valid UUID or 32-character hex string"))
  else Returned id.

(** An id without its dashes. *)
Fixpoint compact (s : string) : string :=
  match s with
  | EmptyString => EmptyString
  | String c rest => if Ascii.eqb c "-" then compact rest else String c (compact rest)
  end.

End Validation.

(** ** The configuration of the deployment guide (config.js) *)

Module Config.

(** [parseInt(process.env.NAME) || fallback]; an unset variable is
    [undefined], which [parseInt] reads as the string "undefined". *)
Definition parseInt_or (variable : option string) (fallback : Z) : number :=
  match parseInt (match variable with Some s => s | None => "undefined" end) with
  | Finite n => if n =? 0 then Finite fallback else Finite n
  | NaN => Finite fallback
  end.

(** [process.env.NAME || fallback] *)
Definition string_or (variable : option string) (fallback : string) : string :=
  match variable with
  | Some s => if truthy_string s then s else fallback
  | None => fallback
  end.

Record settings : Type := mkSettings {
  rateLimitPerSecond : number;
  retryAttempts : number;
  enableMarkdown : bool;
  port : number;
  host : string
}.

(** [config.notion] and [config.server], without the token. *)
Definition config (env : string -> option string) : settings :=
  {| rateLimitPerSecond := parseInt_or (env "NOTION_RATE_LIMIT") 2;
     retryAttempts := parseInt_or (env "NOTION_RETRY_ATTEMPTS") 4;
     enableMarkdown :=
       match env "NOTION_MARKDOWN_CONVERSION" with
       | Some s => String.eqb s "true"
       | None => false
       end;
     port := parseInt_or (env "PORT") 3000;
     host := string_or (env "HOST") "0.0.0.0" |}.

End Config.

(** ** The sessions of http-server.js *)

Module Sessions.

(** The two classes of transport the routes tell apart with [instanceof]. *)
Inductive transport : Type :=
| StreamableHTTP
| SSE.

(** The own properties of the object [transports], with distinct keys. *)
Definition registry : Type := list (string * transport).

Fixpoint own (t : registry) (key : string) : option transport :=
  match t with
  | [] => None
  | (k, v) :: rest => if String.eqb k key then Some v else own rest key
  end.

(** The property names [transports] inherits from [Object.prototype]; their
    values are truthy and are not transports. *)
Definition Object_prototype : list string :=
  [ "constructor"; "__defineGetter__"; "__defineSetter__"; "hasOwnProperty";
    "__lookupGetter__"; "__lookupSetter__"; "isPrototypeOf";
    "propertyIsEnumerable"; "toString"; "valueOf"; "__proto__";
    "toLocaleString" ].

(** What [transports[key]] evaluates to. *)
Inductive entry : Type :=
| Own (v : transport)
| Inherited
| Missing.

Definition lookup (t : registry) (key : string) : entry :=
  match own t key with
  | Some v => Own v
  | None => if existsb (String.eqb key) Object_prototype then Inherited else Missing
  end.

(** [transports[key] = v], for a key that is a generated session id. *)
Fixpoint assign (t : registry) (key : string) (v : transport) : registry :=
  match t with
  | [] => [(key, v)]
  | (k, x) :: rest =>
      if String.eqb k key then (k, v) :: rest else (k, x) :: assign rest key v
  end.

(** [delete transports[key]] *)
Definition delete (t : registry) (key : string) : registry :=
  filter (fun kv => negb (String.eqb (fst kv) key)) t.

(** [isInitializeRequest(body)]: [body && body.method === 'initialize'] *)
Definition isInitializeRequest (body : value) : bool :=
  match body with
  | Some b =>
      truthy b &&
      match get b "method" with
      | Some (JString m) => String.eqb m "initialize"
      | _ => false
      end
  | None => false
  end.

(** What a route does with a request: it hands it to the transport of a
    session, opens a new Streamable HTTP session for it, or answers with an
    error of JSON-RPC. *)
Inductive outcome : Type :=
| Handled (sessionId : string) (by_ : transport)
| Opened
| Refused (status : Z) (code : Z) (message : string).

(** The route [/mcp], up to the call of [transport.handleRequest];
    [sessionId] is [req.headers['mcp-session-id']]. *)
Definition mcp (transports : registry) (sessionId : option string)
    (method : string) (body : value) : outcome :=
  match sessionId with
  | Some sid =>
      if truthy_string sid then
        match lookup transports sid with
        | Own StreamableHTTP => Handled sid StreamableHTTP
        | Own SSE | Inherited =>
            Refused 400 (-32000)
              "Bad Request: Session exists but uses a different transport protocol"
        | Missing =>
            Refused 400 (-32000)
              "Bad Request: No valid session ID provided or not an initialize request"
        end
      else if String.eqb method "POST" && isInitializeRequest body then Opened
      else
        Refused 400 (-32000)
          "Bad Request: No valid session ID provided or not an initialize request"
  | None =>
      if String.eqb method "POST" && isInitializeRequest body then Opened
      else
        Refused 400 (-32000)
          "Bad Request: No valid session ID provided or not an initialize request"
  end.

(** The route [/messages]; [sessionId] is [req.query.sessionId], and an
    absent one indexes [transports] as the string "undefined". *)
Definition messages (transports : registry) (sessionId : option string) : outcome :=
  let key := match sessionId with Some sid => sid | None => "undefined" end in
  match lookup transports key with
  | Own SSE => Handled key SSE
  | _ =>
      Refused 400 (-32000) "Bad Request: No transport found or wrong transport type"
  end.

(** [onsessioninitialized]: [transports[sessionId] = transport] *)
Definition onsessioninitialized (transports : registry) (sessionId : string) : registry :=
  assign transports sessionId StreamableHTTP.

(** The route [/sse]: [transports[transport.sessionId] = transport] *)
Definition sse (transports : registry) (sessionId : string) : registry :=
  assign transports sessionId SSE.

(** [transport.onclose]: [if (sid && transports[sid]) delete transports[sid]] *)
Definition onclose (transports : registry) (sid : option string) : registry :=
  match sid with
  | Some s =>
      if truthy_string s then
        match lookup transports s with
        | Missing => transports
        | _ => delete transports s
        end
      else transports
  | None => transports
  end.

(** [res.on('close', ...)] of the route [/sse] *)
Definition sse_close (transports : registry) (sessionId : string) : registry :=
  delete transports sessionId.

End Sessions.

(** ** [createRichText] of the implementation guide (pattern 5) *)

Module RichText.

(** The property names that are array indices: the canonical numerals of
    the integers from 0 to 2^32 - 2. *)
Definition array_index (key : string) : option Z :=
  match parseInt key with
  | Finite n =>
      if (0 <=? n) && (n <? 4294967295) && String.eqb (string_of_Z n) key
      then Some n
      else None
  | NaN => None
  end.

(** The own properties of an object are kept in the order in which
    JavaScript lists them: the array indices first, ascending, then the
    other names in the order of their creation. *)

(** Setting a property that exists keeps its place. *)
Fixpoint replace (target : list (string * json)) (key : string) (v : json)
  : list (string * json) :=
  match target with
  | [] => []
  | (k, x) :: rest =>
      if String.eqb k key then (k, v) :: rest else (k, x) :: replace rest key v
  end.

(** A new array index goes before the first property that is not a smaller
    array index. *)
Fixpoint insert_index (target : list (string * json)) (n : Z) (key : string) (v : json)
  : list (string * json) :=
  match target with
  | [] => [(key, v)]
  | (k, x) :: rest =>
      match array_index k with
      | Some m =>
          if m <? n then (k, x) :: insert_index rest n key v else (key, v) :: target
      | None => (key, v) :: target
      end
  end.

(** Setting one property of the target, as the spread does. *)
Definition set (target : list (string * json)) (key : string) (v : json)
  : list (string * json) :=
  match lookup key target with
  | Some _ => replace target key v
  | None =>
      match array_index key with
      | Some n => insert_index target n key v
      | None => (target ++ [(key, v)])%list
      end
  end.

(** [{ ...target, ...source }] on the properties of two objects: each
    property of the source is set on the target, in order. *)
Fixpoint spread (target source : list (string * json)) : list (string * json) :=
  match source with
  | [] => target
  | (k, v) :: rest => spread (set target k v) rest
  end.

Definition defaults : list (string * json) :=
  [("bold", JBool false); ("italic", JBool false); ("strikethrough", JBool false);
   ("underline", JBool false); ("code", JBool false); ("color", JString "default")].

(** [createRichText(content, annotations)], for a string [content] and the
    properties of the object [annotations]. *)
Definition createRichText (content : string) (annotations : list (string * json)) : json :=
  JObject [("type", JString "text");
           ("text", JObject [("content", JString content)]);
           ("annotations", JObject (spread defaults annotations))].

(** One array index is listed before another. *)
Definition index_lt (a b : string) : Prop :=
  match array_index a, array_index b with
  | Some m, Some n => m < n
  | _, _ => False
  end.

(** The names of an object that was built from [base], whose names are not
    array indices: array indices, ascending, then the names of [base], then
    the other new names. *)
Definition listed (base : list string) (target : list (string * json)) : Prop :=
  exists indices extra,
    map fst target = (indices ++ base ++ extra)%list
    /\ Forall (fun k => array_index k <> None) indices
    /\ StronglySorted index_lt indices
    /\ Forall (fun k => array_index k = None) extra.

End RichText.

(** ** The arguments the tool handler requires *)

Module Required.

(** The arguments each [case] of the handler tests before it calls the
    client. *)
Definition arguments_of : list (string * list string) :=
  [ ("notion_append_block_children", ["block_id"; "children"]);
    ("notion_retrieve_block", ["block_id"]);
    ("notion_retrieve_block_children", ["block_id"]);
    ("notion_delete_block", ["block_id"]);
    ("notion_update_block", ["block_id"; "block"]);
    ("notion_retrieve_page", ["page_id"]);
    ("notion_update_page_properties", ["page_id"; "properties"]);
    ("notion_list_all_users", []);
    ("notion_retrieve_user", ["user_id"]);
    ("notion_retrieve_bot_user", []);
    ("notion_create_database", ["parent"; "properties"]);
    ("notion_query_database", ["database_id"]);
    ("notion_retrieve_database", ["database_id"]);
    ("notion_update_database", ["database_id"]);
    ("notion_create_database_item", ["parent"; "properties"]);
    ("notion_create_comment", ["parent"; "rich_text"]);
    ("notion_retrieve_comments", ["block_id"]);
    ("notion_search", []) ].

Fixpoint required (name : string) (table : list (string * list string))
  : option (list string) :=
  match table with
  | [] => None
  | (k, keys) :: rest => if String.eqb k name then Some keys else required name rest
  end.

(** The message of the error thrown for them. *)
Definition message (keys : list string) : string :=
  match keys with
  | [k] => "Missing required argument: " ++ k
  | [k1; k2] => "Missing required arguments: " ++ k1 ++ " and " ++ k2
  | _ => ""
  end.

End Required.

(** ** Further simulated listings *)

Module Listings.

Import Pagination.

(** A listing whose pages all report more pages, with a cursor the
    validating walkers refuse on its first page. *)
Definition unchecked : list page :=
  [ Scenario.rows [1] true (Cursor "null");
    Scenario.rows [2] true Undefined;
    Scenario.rows [3] false Null ].

(** A property with a single item. *)
Definition single_item : PropertyItems.response :=
  {| PropertyItems.self := JObject [("object", JString "property_item");
                                    ("type", JString "number");
                                    ("number", JNumber 7)];
     PropertyItems.results := None;
     PropertyItems.has_more := false;
     PropertyItems.next_cursor := Undefined |}.

(** A page of relation items that reports more items without a cursor. *)
Definition more_without_cursor : PropertyItems.response :=
  {| PropertyItems.self := JObject [("object", JString "list")];
     PropertyItems.results := Some [JString "r1"; JString "r2"];
     PropertyItems.has_more := true;
     PropertyItems.next_cursor := Null |}.

End Listings.

(** ** Simulated block trees and identifiers *)

Module Trees.

Import Blocks.

Definition leaf (name : string) : block :=
  {| id := name; has_children := false; content := JObject [] |}.

Definition container (name : string) : block :=
  {| id := name; has_children := true; content := JObject [] |}.

(** An upstream whose every block holds itself: a tree that never ends. *)
Definition cyclic : server := fun _ blockId => Children [container blockId].

(** The block of a fetched block. *)
Definition block_of (f : fetched) : block :=
  match f with
  | Fetched b _ => b
  end.

(** What a call of [fetchAllBlocks] that started at request [sent] may end
    with, [levels] levels above the cut: a forest cut there, or the failure
    of the last request it sent. *)
Definition fetch_ends (srv : server) (levels sent : nat)
    (r : completion (list fetched) * list string) : Prop :=
  match fst r with
  | Returned forest => cut_at levels forest
  | Threw e =>
      exists before b,
        snd r = (before ++ [b])%list
        /\ srv (sent + List.length before)%nat b = Failure e
  | OutOfFuel => False
  end.

(** The 32 hexadecimal digits of an identifier, and its dashed form. *)
Definition short_id : string := "0123456789abcdefABCDEF0123456789".
Definition dashed_id : string := "01234567-89ab-cdef-ABCD-EF0123456789".

End Trees.

(** ** Simulated environments and session registries *)

Module Deployments.

(** An environment that only sets the port and the retry attempts. *)
Definition env (variable : string) : option string :=
  if String.eqb variable "PORT" then Some (string_of_Z 8080)
  else if String.eqb variable "NOTION_RETRY_ATTEMPTS" then Some (string_of_Z 0)
  else if String.eqb variable "NOTION_RATE_LIMIT" then Some (string_of_Z 3)
  else None.

(** Two sessions, one of each protocol. *)
Definition open_sessions : Sessions.registry :=
  [("7f3c", Sessions.StreamableHTTP); ("a91e", Sessions.SSE)].

End Deployments.

(** * Properties *)

(** ** The retry loop *)

Section LoopFacts.

Variable iteration : nat -> step.
Variable maxRetries : nat.

Local Abbreviation loop := (Retry.loop iteration maxRetries).
Local Abbreviation run := (Retry.run iteration maxRetries).

(** With a unit of fuel more than the attempts that are left, the loop
    function computes an execution of the loop. *)
Lemma loop_run fuel attempt :
  (maxRetries - attempt < fuel)%nat ->
  run attempt (fst (loop fuel attempt)) (snd (loop fuel attempt)).
Proof.
  revert attempt; induction fuel as [|fuel IH]; intros attempt Hfuel; [lia|].
  simpl. destruct (Nat.ltb_spec attempt maxRetries) as [Hlt|Hge].
  - destruct (iteration attempt) as [t|data|e] eqn:Hit.
    + specialize (IH (S attempt) ltac:(lia)).
      destruct (loop fuel (S attempt)) as [c tr]; simpl in *.
      now apply run_again.
    + now apply run_give.
    + now apply run_throw.
  - now apply run_exit.
Qed.

Lemma run_not_OutOfFuel attempt c tr : run attempt c tr -> c <> OutOfFuel.
Proof. induction 1; congruence. Qed.

(** The requests of an execution are numbered by the successive values of
    [attempt], and stop before [maxRetries]. *)
Lemma run_requests attempt c tr :
  run attempt c tr ->
  exists k, requests tr = seq attempt k /\ (attempt + k <= Nat.max attempt maxRetries)%nat.
Proof.
  induction 1 as [a Hge|a d Hlt Hit|a e Hlt Hit|a t c tr Hlt Hit Hrun [k [Hk Hle]]].
  - exists 0%nat; simpl; split; [reflexivity|lia].
  - exists 1%nat; simpl; split; [reflexivity|lia].
  - exists 1%nat; simpl; split; [reflexivity|lia].
  - exists (S k); simpl; rewrite Hk; split; [reflexivity|lia].
Qed.

Lemma run_starts attempt c tr :
  run attempt c tr -> (attempt < maxRetries)%nat ->
  exists rest, tr = Request attempt :: rest.
Proof. destruct 1; intros; try lia; eauto. Qed.

(** A pass that asks for a retry before the last attempt is followed by
    its timer and by the next request. *)
Lemma run_retried attempt c tr :
  run attempt c tr ->
  forall n t, In (Request n) tr -> iteration n = Again t ->
    (S n < maxRetries)%nat -> retried_after tr n t.
Proof.
  induction 1 as [a Hge|a d Hlt Hit|a e Hlt Hit|a t0 c tr Hlt Hit Hrun IH];
    intros n t Hin Hn Hlast.
  - destruct Hin.
  - destruct Hin as [Heq|[]]; congruence.
  - destruct Hin as [Heq|[]]; congruence.
  - destruct Hin as [Heq|[Heq|Hin]]; [|discriminate|].
    + injection Heq as <-. rewrite Hit in Hn; injection Hn as <-.
      destruct (run_starts _ _ _ Hrun Hlast) as [rest ->].
      now exists [], rest.
    + destruct (IH n t Hin Hn Hlast) as [pre [post ->]].
      now exists (Request a :: Sleep t0 :: pre), post.
Qed.

(** A pass that throws ends the call with what it throws. *)
Lemma run_thrown attempt c tr :
  run attempt c tr ->
  forall n e, In (Request n) tr -> iteration n = Throw e ->
    c = Threw e /\ ends_with_request tr n.
Proof.
  induction 1 as [a Hge|a d Hlt Hit|a e0 Hlt Hit|a t0 c tr Hlt Hit Hrun IH];
    intros n e Hin Hn.
  - destruct Hin.
  - destruct Hin as [Heq|[]]; congruence.
  - destruct Hin as [Heq|[]].
    injection Heq as <-. rewrite Hit in Hn; injection Hn as <-.
    split; [reflexivity|now exists []].
  - destruct Hin as [Heq|[Heq|Hin]]; [congruence|discriminate|].
    destruct (IH n e Hin Hn) as [-> [pre ->]].
    split; [reflexivity|now exists (Request a :: Sleep t0 :: pre)].
Qed.

(** A pass that returns ends the call with what it returns. *)
Lemma run_returned attempt c tr :
  run attempt c tr ->
  forall n data, In (Request n) tr -> iteration n = Give data ->
    c = Returned data /\ ends_with_request tr n.
Proof.
  induction 1 as [a Hge|a d Hlt Hit|a e0 Hlt Hit|a t0 c tr Hlt Hit Hrun IH];
    intros n data Hin Hn.
  - destruct Hin.
  - destruct Hin as [Heq|[]].
    injection Heq as <-. rewrite Hit in Hn; injection Hn as <-.
    split; [reflexivity|now exists []].
  - destruct Hin as [Heq|[]]; congruence.
  - destruct Hin as [Heq|[Heq|Hin]]; [congruence|discriminate|].
    destruct (IH n data Hin Hn) as [-> [pre ->]].
    split; [reflexivity|now exists (Request a :: Sleep t0 :: pre)].
Qed.

Lemma run_request_in_range attempt c tr :
  run attempt c tr -> forall n, In (Request n) tr -> (attempt <= n < maxRetries)%nat.
Proof.
  induction 1 as [a Hge|a d Hlt Hit|a e0 Hlt Hit|a t0 c tr Hlt Hit Hrun IH];
    intros n Hin.
  - destruct Hin.
  - destruct Hin as [Heq|[]]; injection Heq as <-; lia.
  - destruct Hin as [Heq|[]]; injection Heq as <-; lia.
  - destruct Hin as [Heq|[Heq|Hin]]; [injection Heq as <-; lia|discriminate|].
    specialize (IH n Hin); lia.
Qed.

End LoopFacts.

(** ** The two clients *)

Lemma In_Request_requests tr n : In (Request n) tr -> In n (requests tr).
Proof.
  intros Hin. unfold requests. apply in_flat_map.
  exists (Request n). split; [assumption|now left].
Qed.

Lemma backoff_value attempt :
  backoff attempt = Finite (2 ^ (Z.of_nat attempt + 1) * 1000).
Proof. unfold backoff, pow2. simpl. now rewrite Nat2Z.inj_add. Qed.

Lemma includes_marker m : includes "Notion API error" ("Notion API error: " ++ m) = true.
Proof. reflexivity. Qed.

Section ClientFacts.

Variable net : network.
Variable random : nat -> Q.
Variable maxRetries : nat.

Lemma executeWithRetry_run :
  run (E.iteration net random maxRetries) maxRetries 0
    (fst (E.executeWithRetry net random maxRetries))
    (snd (E.executeWithRetry net random maxRetries)).
Proof. apply loop_run. lia. Qed.

Lemma request_run :
  run (C.iteration net maxRetries) maxRetries 0
    (fst (C.request net maxRetries)) (snd (C.request net maxRetries)).
Proof. apply loop_run. lia. Qed.

(** *** What one pass does, by the outcome of its request *)

Lemma wait_delay_agree h attempt :
  mul (C.waitSeconds h attempt) (Finite 1000) = E.rate_limit_delay h attempt.
Proof.
  unfold C.waitSeconds, E.rate_limit_delay, backoff.
  destruct h as [s|]; [destruct (truthy_string s)|]; reflexivity.
Qed.

Lemma E_rate_limited attempt r :
  net attempt = Resolved r -> status r = 429 -> (attempt + 1 < maxRetries)%nat ->
  E.iteration net random maxRetries attempt
  = Again {| delay := E.rate_limit_delay (retry_after r) attempt;
             random_sample := Some (random attempt) |}.
Proof.
  intros Hnet Hst Hlt. unfold E.iteration, E.try_block. rewrite Hnet, Hst. simpl.
  destruct (Nat.ltb_spec attempt (maxRetries - 1)); [reflexivity|lia].
Qed.

Lemma C_rate_limited attempt r :
  net attempt = Resolved r -> status r = 429 -> (attempt + 1 < maxRetries)%nat ->
  C.iteration net maxRetries attempt
  = Again {| delay := E.rate_limit_delay (retry_after r) attempt;
             random_sample := None |}.
Proof.
  intros Hnet Hst Hlt. unfold C.iteration, C.try_block. rewrite Hnet, Hst. simpl.
  rewrite wait_delay_agree.
  destruct (Nat.ltb_spec attempt (maxRetries - 1)); [reflexivity|lia].
Qed.

Lemma E_rejected attempt message :
  net attempt = Rejected message ->
  includes "Notion API error" message = false ->
  E.iteration net random maxRetries attempt
  = if (attempt <? maxRetries - 1)%nat
    then Again {| delay := backoff attempt; random_sample := None |}
    else Throw (Error message).
Proof.
  intros Hnet Hm. unfold E.iteration, E.try_block, E.catch_block.
  rewrite Hnet. simpl. rewrite Hm. now destruct (attempt <? maxRetries - 1)%nat.
Qed.

Lemma C_rejected attempt message :
  net attempt = Rejected message ->
  C.iteration net maxRetries attempt
  = if (attempt <? maxRetries - 1)%nat
    then Again {| delay := backoff attempt; random_sample := None |}
    else Throw (Error message).
Proof.
  intros Hnet. unfold C.iteration, C.try_block, C.catch_block.
  rewrite Hnet. simpl. now destruct (attempt <? maxRetries - 1)%nat.
Qed.

(** A response that is neither a 429 nor a success and whose body is JSON
    other than [null] is thrown as an API error, at any attempt. *)
Lemma E_api_error attempt r data :
  net attempt = Resolved r -> status r <> 429 -> ok r = false ->
  body r = Json data -> data <> JNull ->
  E.iteration net random maxRetries attempt
  = Throw (Error ("Notion API error: " ++ upstream_message data r)).
Proof.
  intros Hnet Hst Hok Hbody Hdata.
  unfold E.iteration, E.try_block, E.read_response, E.catch_block.
  rewrite Hnet. apply Z.eqb_neq in Hst. rewrite Hst, Hbody, Hok.
  assert (Hcatch : forall m,
    E.catch_block maxRetries attempt (Error ("Notion API error: " ++ m))
    = Throw (Error ("Notion API error: " ++ m))).
  { intros m. unfold E.catch_block.
    change (error_message (Error ("Notion API error: " ++ m)))
      with ("Notion API error: " ++ m).
    now rewrite includes_marker, andb_false_r. }
  destruct data; try congruence; apply Hcatch.
Qed.

Lemma C_api_error attempt r data :
  net attempt = Resolved r -> status r <> 429 -> status r <> 0 -> ok r = false ->
  body r = Json data -> data <> JNull ->
  C.iteration net maxRetries attempt
  = Throw (C.api_error (upstream_message data r) data r).
Proof.
  intros Hnet Hst Hst0 Hok Hbody Hdata.
  unfold C.iteration, C.try_block, C.read_response, C.catch_block.
  rewrite Hnet. pose proof Hst as Hst'. apply Z.eqb_neq in Hst'.
  rewrite Hst', Hbody, Hok.
  assert (Hno : C.no_status (C.api_error (upstream_message data r) data r) = false).
  { unfold C.no_status, C.api_error; simpl. now apply Z.eqb_neq. }
  assert (Hcatch :
    C.catch_block maxRetries attempt (C.api_error (upstream_message data r) data r)
    = Throw (C.api_error (upstream_message data r) data r)).
  { unfold C.catch_block. now rewrite Hno, andb_false_r. }
  destruct data; try congruence; apply Hcatch.
Qed.

Lemma E_success attempt r data :
  net attempt = Resolved r -> ok r = true -> body r = Json data ->
  E.iteration net random maxRetries attempt = Give data.
Proof.
  intros Hnet Hok Hbody. unfold E.iteration, E.try_block, E.read_response.
  rewrite Hnet.
  assert (Hst : (status r =? 429) = false).
  { apply Z.eqb_neq. intros H. unfold ok in Hok. rewrite H in Hok. discriminate. }
  rewrite Hst, Hbody, Hok. reflexivity.
Qed.

Lemma C_success attempt r data :
  net attempt = Resolved r -> ok r = true -> body r = Json data ->
  C.iteration net maxRetries attempt = Give data.
Proof.
  intros Hnet Hok Hbody. unfold C.iteration, C.try_block, C.read_response.
  rewrite Hnet.
  assert (Hst : (status r =? 429) = false).
  { apply Z.eqb_neq. intros H. unfold ok in Hok. rewrite H in Hok. discriminate. }
  rewrite Hst, Hbody, Hok. reflexivity.
Qed.

End ClientFacts.

(** With a sample of [Math.random()] in [0, 1), the timer set for a
    non-negative delay is within a quarter of it. *)
Lemma finalDelay_within_quarter (d : Z) (u : Q) :
  0 <= d -> (0 <= u)%Q -> (u < 1)%Q ->
  exists q, finalDelay {| delay := Finite d; random_sample := Some u |} = Some q
            /\ (inject_Z d * (3 # 4) <= q)%Q /\ (q <= inject_Z d * (5 # 4))%Q.
Proof.
  intros Hd H0 H1. eexists. split; [reflexivity|].
  assert (Hq : (0 <= inject_Z d)%Q).
  { change 0%Q with (inject_Z 0). rewrite <- Zle_Qle. lia. }
  split; nra.
Qed.

Lemma backoff_schedule :
  backoff 0 = Finite 2000 /\ backoff 1 = Finite 4000 /\ backoff 2 = Finite 8000.
Proof. repeat split. Qed.

(** ** The claims about the retry loop *)

(** C1 (amended).  When request [attempt] of a call is answered by a 429 and
    a retry is still allowed, the call awaits a timer and sends the next
    request; the delay of the timer before jitter is the parsed
    [Retry-After] value times 1000 ms when the header is present and
    parseable, and [2^(attempt+1) * 1000] ms when the header is absent or
    empty.  A request that fails on the network is retried after
    [2^(attempt+1) * 1000] ms as well.  This holds for [executeWithRetry]
    and for [NotionClientSimple.request]. *)
Theorem C1_retry_delay_before_jitter
    (net : network) (random : nat -> Q) (maxRetries attempt : nat) :
  (attempt + 1 < maxRetries)%nat ->
  match net attempt with
  | Resolved r =>
      status r = 429 ->
      exists d : number,
        (forall s n, retry_after r = Some s -> s <> "" -> parseInt s = Finite n ->
           d = Finite (n * 1000))
        /\ (retry_after r = None \/ retry_after r = Some "" ->
            d = Finite (2 ^ (Z.of_nat attempt + 1) * 1000))
        /\ (In (Request attempt) (snd (E.executeWithRetry net random maxRetries)) ->
            retried_after (snd (E.executeWithRetry net random maxRetries)) attempt
              {| delay := d; random_sample := Some (random attempt) |})
        /\ (In (Request attempt) (snd (C.request net maxRetries)) ->
            retried_after (snd (C.request net maxRetries)) attempt
              {| delay := d; random_sample := None |})
  | Rejected message =>
      (includes "Notion API error" message = false ->
       In (Request attempt) (snd (E.executeWithRetry net random maxRetries)) ->
       retried_after (snd (E.executeWithRetry net random maxRetries)) attempt
         {| delay := Finite (2 ^ (Z.of_nat attempt + 1) * 1000);
            random_sample := None |})
      /\ (In (Request attempt) (snd (C.request net maxRetries)) ->
          retried_after (snd (C.request net maxRetries)) attempt
            {| delay := Finite (2 ^ (Z.of_nat attempt + 1) * 1000);
               random_sample := None |})
  end.
Proof.
  intros Hlt. destruct (net attempt) as [r|message] eqn:Hnet.
  - intros Hst. exists (E.rate_limit_delay (retry_after r) attempt).
    split; [|split; [|split]].
    + intros s n Hs Hne Hparse. rewrite Hs. unfold E.rate_limit_delay.
      destruct s as [|c s]; [congruence|]. simpl truthy_string. cbv iota.
      now rewrite Hparse.
    + intros [H|H]; rewrite H; apply backoff_value.
    + intros Hin.
      apply (run_retried _ _ _ _ _ (executeWithRetry_run net random maxRetries));
        [assumption|now apply E_rate_limited|lia].
    + intros Hin.
      apply (run_retried _ _ _ _ _ (request_run net maxRetries));
        [assumption|now apply C_rate_limited|lia].
  - rewrite <- backoff_value. split.
    + intros Hm Hin.
      apply (run_retried _ _ _ _ _ (executeWithRetry_run net random maxRetries));
        [assumption| |lia].
      rewrite (E_rejected net random maxRetries attempt message Hnet Hm).
      destruct (Nat.ltb_spec attempt (maxRetries - 1)); [reflexivity|lia].
    + intros Hin.
      apply (run_retried _ _ _ _ _ (request_run net maxRetries)); [assumption| |lia].
      rewrite (C_rejected net maxRetries attempt message Hnet).
      destruct (Nat.ltb_spec attempt (maxRetries - 1)); [reflexivity|lia].
Qed.

(** C1, two runs: a 429 with [Retry-After: 30] is retried after 30000 ms,
    and the third of three 429 responses without the header after 8000 ms. *)
Lemma C1_retry_delay_witness :
  (0 + 1 < 3)%nat
  /\ retried_after
       (snd (E.executeWithRetry
               (Scenario.script [Resolved (Scenario.rate_limited (Some "30"))]
                  (Resolved (Scenario.success Scenario.a_page)))
               Scenario.centred 3))
       0 {| delay := Finite 30000; random_sample := Some (1 # 2)%Q |}
  /\ (2 + 1 < 4)%nat
  /\ retried_after
       (snd (C.request
               (Scenario.script [Resolved (Scenario.rate_limited None);
                                 Resolved (Scenario.rate_limited None);
                                 Resolved (Scenario.rate_limited None)]
                  (Resolved (Scenario.success Scenario.a_page)))
               4))
       2 {| delay := Finite 8000; random_sample := None |}.
Proof.
  split; [lia|]. split; [|split; [lia|]].
  - pose proof (C1_retry_delay_before_jitter
                  (Scenario.script [Resolved (Scenario.rate_limited (Some "30"))]
                     (Resolved (Scenario.success Scenario.a_page)))
                  Scenario.centred 3 0 ltac:(lia) eq_refl) as [d [Hd [_ [Hrun _]]]].
    rewrite (Hd "30" 30 eq_refl ltac:(discriminate) eq_refl) in Hrun.
    apply Hrun. left. reflexivity.
  - pose proof (C1_retry_delay_before_jitter
                  (Scenario.script [Resolved (Scenario.rate_limited None);
                                    Resolved (Scenario.rate_limited None);
                                    Resolved (Scenario.rate_limited None)]
                     (Resolved (Scenario.success Scenario.a_page)))
                  Scenario.centred 4 2 ltac:(lia) eq_refl) as [d [_ [Hd [_ Hrun]]]].
    rewrite (Hd (or_introl eq_refl)) in Hrun.
    apply Hrun. simpl. do 4 right. left. reflexivity.
Defined.

(** C1 as stated fails: a [Retry-After] header that is present but is not a
    number (here an HTTP date) does not select the exponential delay; the
    delay is [parseInt(header) * 1000], which is [NaN]. *)
Lemma C1_unparseable_header_counterexample :
  let header := "Wed, 21 Oct 2015 07:28:00 GMT" in
  let net := Scenario.script [Resolved (Scenario.rate_limited (Some header))]
               (Resolved (Scenario.success Scenario.a_page)) in
  parseInt header = NaN
  /\ E.executeWithRetry net Scenario.centred 4
     = (Returned Scenario.a_page,
        [Request 0;
         Sleep {| delay := NaN; random_sample := Some (1 # 2)%Q |};
         Request 1])
  /\ C.request net 4
     = (Returned Scenario.a_page,
        [Request 0; Sleep {| delay := NaN; random_sample := None |}; Request 1])
  /\ NaN <> Finite (2 ^ (Z.of_nat 0 + 1) * 1000).
Proof. repeat split; try reflexivity. discriminate. Qed.

(** C2 (amended).  A request that fails on the network is retried after the
    exponential delay as long as a further attempt is allowed, and surfaces
    to the caller only from attempt [maxRetries - 1], when [maxRetries]
    requests have been sent.  A response with a status of 500 or more whose
    JSON body is read is not retried: it ends the call at once as an API
    error, like the other error responses. *)
Theorem C2_transport_errors_retried_until_exhausted
    (net : network) (random : nat -> Q) (maxRetries n : nat) :
  match net n with
  | Rejected message =>
      (includes "Notion API error" message = false ->
       In (Request n) (snd (E.executeWithRetry net random maxRetries)) ->
       (S n < maxRetries ->
        retried_after (snd (E.executeWithRetry net random maxRetries)) n
          {| delay := backoff n; random_sample := None |})%nat
       /\ (S n = maxRetries ->
           fst (E.executeWithRetry net random maxRetries) = Threw (Error message)
           /\ ends_with_request (snd (E.executeWithRetry net random maxRetries)) n
           /\ List.length (requests (snd (E.executeWithRetry net random maxRetries)))
              = maxRetries))
      /\ (In (Request n) (snd (C.request net maxRetries)) ->
          (S n < maxRetries ->
           retried_after (snd (C.request net maxRetries)) n
             {| delay := backoff n; random_sample := None |})%nat
          /\ (S n = maxRetries ->
              fst (C.request net maxRetries) = Threw (Error message)
              /\ ends_with_request (snd (C.request net maxRetries)) n
              /\ List.length (requests (snd (C.request net maxRetries))) = maxRetries))
  | Resolved r =>
      500 <= status r ->
      forall data, body r = Json data -> data <> JNull ->
      (In (Request n) (snd (E.executeWithRetry net random maxRetries)) ->
       fst (E.executeWithRetry net random maxRetries)
       = Threw (Error ("Notion API error: " ++ upstream_message data r))
       /\ ends_with_request (snd (E.executeWithRetry net random maxRetries)) n)
      /\ (In (Request n) (snd (C.request net maxRetries)) ->
          fst (C.request net maxRetries)
          = Threw (C.api_error (upstream_message data r) data r)
          /\ ends_with_request (snd (C.request net maxRetries)) n)
  end.
Proof.
  pose proof (executeWithRetry_run net random maxRetries) as HE.
  pose proof (request_run net maxRetries) as HC.
  destruct (net n) as [r|message] eqn:Hnet.
  - intros Hst data Hbody Hdata.
    assert (Hok : ok r = false).
    { unfold ok. destruct (Z.leb_spec (status r) 299); [lia|apply andb_false_r]. }
    split; intros Hin.
    + apply (run_thrown _ _ _ _ _ HE); [assumption|].
      apply E_api_error; auto; lia.
    + apply (run_thrown _ _ _ _ _ HC); [assumption|].
      apply C_api_error; auto; lia.
  - split; [intros Hm Hin|intros Hin]; (split; [intros Hlt|intros Hlast]).
    + apply (run_retried _ _ _ _ _ HE); [assumption| |lia].
      rewrite (E_rejected net random maxRetries n message Hnet Hm).
      destruct (Nat.ltb_spec n (maxRetries - 1)); [reflexivity|lia].
    + assert (Hit : E.iteration net random maxRetries n = Throw (Error message)).
      { rewrite (E_rejected net random maxRetries n message Hnet Hm).
        destruct (Nat.ltb_spec n (maxRetries - 1)); [lia|reflexivity]. }
      destruct (run_thrown _ _ _ _ _ HE n _ Hin Hit) as [Hc Hend].
      split; [assumption|split; [assumption|]].
      destruct (run_requests _ _ _ _ _ HE) as [k [Hk Hle]].
      apply In_Request_requests in Hin. rewrite Hk in Hin |- *.
      apply in_seq in Hin. rewrite length_seq. lia.
    + apply (run_retried _ _ _ _ _ HC); [assumption| |lia].
      rewrite (C_rejected net maxRetries n message Hnet).
      destruct (Nat.ltb_spec n (maxRetries - 1)); [reflexivity|lia].
    + assert (Hit : C.iteration net maxRetries n = Throw (Error message)).
      { rewrite (C_rejected net maxRetries n message Hnet).
        destruct (Nat.ltb_spec n (maxRetries - 1)); [lia|reflexivity]. }
      destruct (run_thrown _ _ _ _ _ HC n _ Hin Hit) as [Hc Hend].
      split; [assumption|split; [assumption|]].
      destruct (run_requests _ _ _ _ _ HC) as [k [Hk Hle]].
      apply In_Request_requests in Hin. rewrite Hk in Hin |- *.
      apply in_seq in Hin. rewrite length_seq. lia.
Qed.

(** C2, a run: with every request failing on the network and
    [maxRetries = 3], the error surfaces from the third request. *)
Lemma C2_transport_errors_witness :
  includes "Notion API error" "socket hang up" = false
  /\ In (Request 2)
       (snd (E.executeWithRetry (Scenario.script [] (Rejected "socket hang up"))
               Scenario.centred 3))
  /\ fst (E.executeWithRetry (Scenario.script [] (Rejected "socket hang up"))
            Scenario.centred 3)
     = Threw (Error "socket hang up")
  /\ retried_after
       (snd (E.executeWithRetry (Scenario.script [] (Rejected "socket hang up"))
               Scenario.centred 3))
       0 {| delay := Finite 2000; random_sample := None |}.
Proof.
  assert (Hin : forall n, (n < 3)%nat ->
            In (Request n)
              (snd (E.executeWithRetry (Scenario.script [] (Rejected "socket hang up"))
                      Scenario.centred 3))).
  { intros n Hn. destruct n as [|[|[|n]]]; [| | |lia]; simpl;
      repeat first [left; reflexivity|right]. }
  split; [reflexivity|]. split; [apply Hin; lia|]. split.
  - destruct (C2_transport_errors_retried_until_exhausted
                (Scenario.script [] (Rejected "socket hang up")) Scenario.centred 3 2)
      as [HE _].
    destruct (HE eq_refl (Hin 2%nat ltac:(lia))) as [_ Hlast].
    exact (proj1 (Hlast eq_refl)).
  - destruct (C2_transport_errors_retried_until_exhausted
                (Scenario.script [] (Rejected "socket hang up")) Scenario.centred 3 0)
      as [HE _].
    destruct (HE eq_refl (Hin 0%nat ltac:(lia))) as [Hretry _].
    apply Hretry. lia.
Defined.

(** C2 as stated fails: a 503 response with the error body of the API is not
    retried.  With [maxRetries = 4] one request is sent and the error
    surfaces at once. *)
Lemma C2_server_error_counterexample :
  let net := Scenario.script []
               (Resolved (Scenario.api_failure 503 "Service Unavailable"
                            "Notion is unavailable" "service_unavailable")) in
  E.executeWithRetry net Scenario.centred 4
  = (Threw (Error "Notion API error: Notion is unavailable"), [Request 0])
  /\ C.request net 4
     = (Threw {| error_message := "Notion is unavailable";
                 error_status := Some 503;
                 error_code := Some (JString "service_unavailable") |},
        [Request 0]).
Proof. split; reflexivity. Qed.

(** C3 (amended).  A response with a status in 400-499 other than 429 whose
    body is read as JSON other than [null] is never retried: the request
    that received it is the last thing the call does, and the call throws
    the API error with the upstream message.  When it answers the first
    request, exactly one request is sent. *)
Theorem C3_client_errors_not_retried
    (net : network) (random : nat -> Q) (maxRetries n : nat)
    (r : Response) (data : json) :
  net n = Resolved r ->
  400 <= status r <= 499 -> status r <> 429 ->
  body r = Json data -> data <> JNull ->
  (In (Request n) (snd (E.executeWithRetry net random maxRetries)) ->
   fst (E.executeWithRetry net random maxRetries)
   = Threw (Error ("Notion API error: " ++ upstream_message data r))
   /\ ends_with_request (snd (E.executeWithRetry net random maxRetries)) n)
  /\ (In (Request n) (snd (C.request net maxRetries)) ->
      fst (C.request net maxRetries)
      = Threw (C.api_error (upstream_message data r) data r)
      /\ ends_with_request (snd (C.request net maxRetries)) n)
  /\ (n = 0%nat -> (0 < maxRetries)%nat ->
      snd (E.executeWithRetry net random maxRetries) = [Request 0]
      /\ snd (C.request net maxRetries) = [Request 0]).
Proof.
  intros Hnet Hst H429 Hbody Hdata.
  assert (Hok : ok r = false).
  { unfold ok. destruct (Z.leb_spec 200 (status r)); [|reflexivity].
    destruct (Z.leb_spec (status r) 299); [lia|reflexivity]. }
  assert (HitE : E.iteration net random maxRetries n
                 = Throw (Error ("Notion API error: " ++ upstream_message data r))).
  { apply E_api_error; auto. }
  assert (HitC : C.iteration net maxRetries n
                 = Throw (C.api_error (upstream_message data r) data r)).
  { apply C_api_error; auto; lia. }
  split; [|split].
  - intros Hin.
    now apply (run_thrown _ _ _ _ _ (executeWithRetry_run net random maxRetries)).
  - intros Hin. now apply (run_thrown _ _ _ _ _ (request_run net maxRetries)).
  - intros -> Hpos. unfold E.executeWithRetry, C.request.
    destruct maxRetries as [|m]; [lia|].
    simpl loop. rewrite HitE, HitC. split; reflexivity.
Qed.

(** C3, a run: a 404 with the error body of the API, one request. *)
Lemma C3_client_errors_witness :
  (400 <= 404 <= 499 /\ 404 <> 429)
  /\ E.executeWithRetry
       (Scenario.script []
          (Resolved (Scenario.api_failure 404 "Not Found" "Could not find page"
                       "object_not_found")))
       Scenario.centred 3
     = (Threw (Error "Notion API error: Could not find page"), [Request 0]).
Proof.
  split; [lia|].
  destruct (C3_client_errors_not_retried
              (Scenario.script []
                 (Resolved (Scenario.api_failure 404 "Not Found" "Could not find page"
                              "object_not_found")))
              Scenario.centred 3 0
              (Scenario.api_failure 404 "Not Found" "Could not find page"
                 "object_not_found")
              (JObject [("message", JString "Could not find page");
                        ("code", JString "object_not_found")])
              eq_refl ltac:(simpl; lia) ltac:(simpl; lia) eq_refl ltac:(discriminate))
    as [HE [_ Hone]].
  destruct (Hone eq_refl ltac:(lia)) as [Htr _].
  destruct (HE ltac:(rewrite Htr; now left)) as [Hc _].
  rewrite (surjective_pairing (E.executeWithRetry _ _ _)), Hc, Htr. reflexivity.
Defined.

(** C3 as stated fails: a 404 whose body is not JSON makes
    [response.json()] reject with an error that has no status, which the
    [catch] clause retries like a network error.  With [maxRetries = 3]
    three requests are sent. *)
Lemma C3_unreadable_body_counterexample :
  let net := Scenario.script [] (Resolved (Scenario.html_failure 404 "Not Found")) in
  let retried :=
    [Request 0; Sleep {| delay := Finite 2000; random_sample := None |};
     Request 1; Sleep {| delay := Finite 4000; random_sample := None |};
     Request 2] in
  E.executeWithRetry net Scenario.centred 3
  = (Threw (Error "Unexpected token < in JSON at position 0"), retried)
  /\ C.request net 3
     = (Threw (Error "Unexpected token < in JSON at position 0"), retried).
Proof. split; reflexivity. Qed.

(** C6.  Two 429 responses without a [Retry-After] header and then a 200,
    with [maxRetries = 4]: three requests are sent, the waits before jitter
    are 2000 ms and 4000 ms, and the call returns the parsed body of the
    200 response; nothing is thrown. *)
Theorem C6_two_rate_limits_then_success
    (net : network) (random : nat -> Q) (r0 r1 r2 : Response) (data : json) :
  net 0%nat = Resolved r0 -> status r0 = 429 -> retry_after r0 = None ->
  net 1%nat = Resolved r1 -> status r1 = 429 -> retry_after r1 = None ->
  net 2%nat = Resolved r2 -> status r2 = 200 -> body r2 = Json data ->
  E.executeWithRetry net random 4
  = (Returned data,
     [Request 0;
      Sleep {| delay := Finite 2000; random_sample := Some (random 0%nat) |};
      Request 1;
      Sleep {| delay := Finite 4000; random_sample := Some (random 1%nat) |};
      Request 2])
  /\ C.request net 4
     = (Returned data,
        [Request 0; Sleep {| delay := Finite 2000; random_sample := None |};
         Request 1; Sleep {| delay := Finite 4000; random_sample := None |};
         Request 2])
  /\ List.length (requests (snd (E.executeWithRetry net random 4))) = 3%nat
  /\ List.length (requests (snd (C.request net 4))) = 3%nat.
Proof.
  intros H0 S0 A0 H1 S1 A1 H2 S2 B2.
  assert (Hok : ok r2 = true) by (unfold ok; now rewrite S2).
  assert (HE : E.executeWithRetry net random 4
               = (Returned data,
                  [Request 0;
                   Sleep {| delay := Finite 2000; random_sample := Some (random 0%nat) |};
                   Request 1;
                   Sleep {| delay := Finite 4000; random_sample := Some (random 1%nat) |};
                   Request 2])).
  { unfold E.executeWithRetry. cbn [loop Nat.ltb Nat.leb].
    rewrite (E_rate_limited net random 4 0 r0 H0 S0 ltac:(lia)).
    rewrite (E_rate_limited net random 4 1 r1 H1 S1 ltac:(lia)).
    rewrite (E_success net random 4 2 r2 data H2 Hok B2).
    now rewrite A0, A1. }
  assert (HC : C.request net 4
               = (Returned data,
                  [Request 0; Sleep {| delay := Finite 2000; random_sample := None |};
                   Request 1; Sleep {| delay := Finite 4000; random_sample := None |};
                   Request 2])).
  { unfold C.request. cbn [loop Nat.ltb Nat.leb].
    rewrite (C_rate_limited net 4 0 r0 H0 S0 ltac:(lia)).
    rewrite (C_rate_limited net 4 1 r1 H1 S1 ltac:(lia)).
    rewrite (C_success net 4 2 r2 data H2 Hok B2).
    now rewrite A0, A1. }
  rewrite HE, HC. repeat split.
Qed.

(** C6, the scenario run on a simulated upstream. *)
Lemma C6_two_rate_limits_witness :
  E.executeWithRetry
    (Scenario.script [Resolved (Scenario.rate_limited None);
                      Resolved (Scenario.rate_limited None);
                      Resolved (Scenario.success Scenario.a_page)]
       (Rejected "unreachable"))
    Scenario.centred 4
  = (Returned Scenario.a_page,
     [Request 0; Sleep {| delay := Finite 2000; random_sample := Some (1 # 2)%Q |};
      Request 1; Sleep {| delay := Finite 4000; random_sample := Some (1 # 2)%Q |};
      Request 2]).
Proof.
  exact (proj1 (C6_two_rate_limits_then_success
                  (Scenario.script [Resolved (Scenario.rate_limited None);
                                    Resolved (Scenario.rate_limited None);
                                    Resolved (Scenario.success Scenario.a_page)]
                     (Rejected "unreachable"))
                  Scenario.centred
                  (Scenario.rate_limited None) (Scenario.rate_limited None)
                  (Scenario.success Scenario.a_page) Scenario.a_page
                  eq_refl eq_refl eq_refl eq_refl eq_refl eq_refl
                  eq_refl eq_refl eq_refl)).
Defined.

(** C8.  For every behaviour of the network the retry loop terminates, the
    requests of one call are numbered by the successive values of [attempt]
    from 0, and there are at most [maxRetries] of them. *)
Theorem C8_retry_loop_terminates_within_maxRetries
    (net : network) (random : nat -> Q) (maxRetries : nat) :
  (fst (E.executeWithRetry net random maxRetries) <> OutOfFuel
   /\ requests (snd (E.executeWithRetry net random maxRetries))
      = seq 0 (List.length (requests (snd (E.executeWithRetry net random maxRetries))))
   /\ (List.length (requests (snd (E.executeWithRetry net random maxRetries)))
       <= maxRetries)%nat)
  /\ (fst (C.request net maxRetries) <> OutOfFuel
      /\ requests (snd (C.request net maxRetries))
         = seq 0 (List.length (requests (snd (C.request net maxRetries))))
      /\ (List.length (requests (snd (C.request net maxRetries))) <= maxRetries)%nat).
Proof.
  split.
  - pose proof (executeWithRetry_run net random maxRetries) as H.
    split; [exact (run_not_OutOfFuel _ _ _ _ _ H)|].
    destruct (run_requests _ _ _ _ _ H) as [k [-> Hle]].
    rewrite length_seq. split; [reflexivity|lia].
  - pose proof (request_run net maxRetries) as H.
    split; [exact (run_not_OutOfFuel _ _ _ _ _ H)|].
    destruct (run_requests _ _ _ _ _ H) as [k [-> Hle]].
    rewrite length_seq. split; [reflexivity|lia].
Qed.

(** ** The pagination walkers *)

Import Pagination.

Section WalkerFacts.

Variable srv : server.

Local Abbreviation G := (getAllDatabaseRows_loop srv).
Local Abbreviation P := (paginateQuery_loop srv).

Lemma last_page_valid_cursor p : last_page p = negb (valid_cursor p).
Proof.
  unfold last_page, valid_cursor.
  destruct (has_more p), (truthy_cursor (next_cursor p)),
    (is_null_string (next_cursor p)); reflexivity.
Qed.

Lemma valid_cursor_usable p : valid_cursor p = true -> usable (next_cursor p).
Proof.
  unfold valid_cursor, usable. intros H.
  apply andb_prop in H as [H Hnull]. apply andb_prop in H as [_ Htruthy].
  split; [assumption|now apply negb_true_iff].
Qed.

(** Below the limit, and with fuel for the passes that are left,
    [paginateQuery] and [getAllDatabaseRows] are the same walk. *)
Lemma walkers_agree maxPages fuel acc cursor sent :
  (sent < maxPages)%nat -> (maxPages - sent < fuel)%nat ->
  P maxPages fuel acc cursor sent = G maxPages fuel acc cursor sent.
Proof.
  revert acc cursor sent; induction fuel as [|fuel IH];
    intros acc cursor sent Hlt Hfuel; [lia|].
  simpl. destruct (Nat.ltb_spec sent maxPages) as [_|]; [|lia].
  destruct (srv sent cursor) as [p|e]; [|reflexivity].
  rewrite last_page_valid_cursor.
  destruct (valid_cursor p) eqn:Hv; simpl; [|reflexivity].
  apply valid_cursor_usable in Hv as [-> _]. simpl.
  destruct (Nat.ltb_spec (S sent) maxPages) as [Hlt'|Hge].
  - rewrite IH by lia. reflexivity.
  - destruct fuel as [|fuel]; [lia|]. simpl.
    destruct (Nat.ltb_spec (S sent) maxPages); [lia|reflexivity].
Qed.

(** *** [getAllDatabaseRows] *)

(** The walk ends; what it returns is the rows it started with followed by
    the results of the pages it received, in the order of their arrival;
    what it throws is the failure of a request. *)
Lemma G_result maxPages fuel acc cursor sent :
  (maxPages - sent < fuel)%nat ->
  match fst (G maxPages fuel acc cursor sent) with
  | Returned rows =>
      rows = (acc ++ flat_map results
                       (received srv sent (snd (G maxPages fuel acc cursor sent))))%list
  | Threw e => exists n c, srv n c = Failure e
  | OutOfFuel => False
  end.
Proof.
  revert acc cursor sent; induction fuel as [|fuel IH];
    intros acc cursor sent Hfuel; [lia|].
  simpl. destruct (srv sent cursor) as [p|e] eqn:Hsrv.
  - destruct (valid_cursor p) eqn:Hv.
    + apply valid_cursor_usable in Hv as [-> _]. simpl andb.
      destruct (Nat.ltb_spec (S sent) maxPages) as [Hlt|Hge].
      * specialize (IH (acc ++ results p)%list (next_cursor p) (S sent) ltac:(lia)).
        destruct (G maxPages fuel (acc ++ results p)%list (next_cursor p) (S sent))
          as [c tr]. simpl in *. rewrite Hsrv.
        destruct c; [|assumption..]. simpl. now rewrite app_assoc.
      * simpl. rewrite Hsrv. simpl. now rewrite app_nil_r.
    + simpl. rewrite Hsrv. simpl. now rewrite app_nil_r.
  - simpl. now exists sent, cursor.
Qed.

(** The first request carries the cursor the walk starts from, and every
    later one a usable cursor. *)
Lemma G_cursors maxPages fuel acc cursor sent :
  exists rest,
    snd (G maxPages (S fuel) acc cursor sent) = cursor :: rest
    /\ Forall usable rest.
Proof.
  revert acc cursor sent; induction fuel as [|fuel IH]; intros acc cursor sent.
  - simpl. destruct (srv sent cursor) as [p|e]; [|now exists []].
    destruct (valid_cursor p); [|now exists []].
    destruct (truthy_cursor (next_cursor p) && (S sent <? maxPages)%nat);
      now exists [].
  - change (G maxPages (S (S fuel)) acc cursor sent)
      with (match srv sent cursor with
            | Failure e => (Threw e, [cursor])
            | Page response =>
                let allRows := (acc ++ results response)%list in
                if valid_cursor response then
                  if truthy_cursor (next_cursor response) && (S sent <? maxPages)%nat
                  then let (c, tr) :=
                         G maxPages (S fuel) allRows (next_cursor response) (S sent) in
                       (c, cursor :: tr)
                  else (Returned allRows, [cursor])
                else (Returned allRows, [cursor])
            end).
    destruct (srv sent cursor) as [p|e]; [|now exists []].
    cbv zeta. destruct (valid_cursor p) eqn:Hv; [|now exists []].
    destruct (truthy_cursor (next_cursor p) && (S sent <? maxPages)%nat);
      [|now exists []].
    destruct (IH (acc ++ results p)%list (next_cursor p) (S sent)) as [rest [Htr Hall]].
    destruct (G maxPages (S fuel) (acc ++ results p)%list (next_cursor p) (S sent))
      as [c tr]. simpl in *. subst tr.
    exists (next_cursor p :: rest). split; [reflexivity|].
    constructor; [now apply valid_cursor_usable|assumption].
Qed.

(** A walk sends at most [maxPages] requests (and one when [maxPages] is 0:
    the loop tests the limit after its body). *)
Lemma G_length maxPages fuel acc cursor sent :
  (List.length (snd (G maxPages fuel acc cursor sent))
   <= Nat.max 1 (maxPages - sent))%nat.
Proof.
  revert acc cursor sent; induction fuel as [|fuel IH]; intros acc cursor sent;
    [cbn [getAllDatabaseRows_loop snd Datatypes.length]; lia|].
  cbn [getAllDatabaseRows_loop].
  destruct (srv sent cursor) as [p|e]; [|cbn [snd Datatypes.length]; lia].
  cbv zeta. destruct (valid_cursor p); [|cbn [snd Datatypes.length]; lia].
  destruct (truthy_cursor (next_cursor p)); cbn [andb];
    [|cbn [snd Datatypes.length]; lia].
  destruct (Nat.ltb_spec (S sent) maxPages) as [Hlt|Hge];
    [|cbn [snd Datatypes.length]; lia].
  specialize (IH (acc ++ results p)%list (next_cursor p) (S sent)).
  destruct (G maxPages fuel (acc ++ results p)%list (next_cursor p) (S sent))
    as [c tr]. cbn [snd Datatypes.length] in *. lia.
Qed.

(** A page without a valid cursor ends the walk, wherever it arrives. *)
Lemma G_stops maxPages fuel acc cursor sent i c p :
  nth_error (snd (G maxPages fuel acc cursor sent)) i = Some c ->
  srv (sent + i)%nat c = Page p -> valid_cursor p = false ->
  List.length (snd (G maxPages fuel acc cursor sent)) = S i
  /\ exists rows, fst (G maxPages fuel acc cursor sent) = Returned rows.
Proof.
  revert acc cursor sent i; induction fuel as [|fuel IH];
    intros acc cursor sent i Hnth Hsrv Hv.
  - destruct i; discriminate.
  - simpl in *. destruct (srv sent cursor) as [q|e] eqn:Hq.
    + destruct (valid_cursor q) eqn:Hvq.
      * destruct (truthy_cursor (next_cursor q) && (S sent <? maxPages)%nat).
        -- specialize (IH (acc ++ results q)%list (next_cursor q) (S sent)).
           destruct (G maxPages fuel (acc ++ results q)%list (next_cursor q) (S sent))
             as [c' tr]. simpl in *.
           destruct i as [|i].
           ++ injection Hnth as <-. rewrite Nat.add_0_r, Hq in Hsrv. congruence.
           ++ simpl in Hnth. rewrite <- Nat.add_succ_comm in Hsrv.
              destruct (IH i Hnth Hsrv Hv) as [Hlen Hret].
              split; [now rewrite Hlen|assumption].
        -- destruct i as [|[|i]]; try discriminate.
           injection Hnth as <-. rewrite Nat.add_0_r, Hq in Hsrv. congruence.
      * destruct i as [|[|i]]; try discriminate. simpl. eauto.
    + destruct i as [|[|i]]; try discriminate.
      injection Hnth as <-. rewrite Nat.add_0_r, Hq in Hsrv. discriminate.
Qed.

(** When every request below the limit is answered by a page with a valid
    cursor, the walk stops at the limit. *)
Lemma G_truncated maxPages fuel acc cursor sent :
  (sent < maxPages)%nat -> (maxPages - sent < fuel)%nat ->
  (forall n c, (n < maxPages)%nat -> exists p, srv n c = Page p /\ valid_cursor p = true) ->
  List.length (snd (G maxPages fuel acc cursor sent)) = (maxPages - sent)%nat
  /\ exists rows, fst (G maxPages fuel acc cursor sent) = Returned rows.
Proof.
  intros Hlt Hfuel Hsrv.
  revert acc cursor sent Hlt Hfuel; induction fuel as [|fuel IH];
    intros acc cursor sent Hlt Hfuel; [lia|].
  simpl. destruct (Hsrv sent cursor Hlt) as [p [-> Hv]]. rewrite Hv.
  apply valid_cursor_usable in Hv as [-> _]. simpl andb.
  destruct (Nat.ltb_spec (S sent) maxPages) as [Hlt'|Hge].
  - destruct (IH (acc ++ results p)%list (next_cursor p) (S sent) Hlt' ltac:(lia))
      as [Hlen Hret].
    destruct (G maxPages fuel (acc ++ results p)%list (next_cursor p) (S sent))
      as [c tr]. simpl in *. split; [lia|assumption].
  - simpl. split; [lia|eauto].
Qed.

End WalkerFacts.

Lemma paginateQuery_limit_agrees (srv : server) (limit : nat) :
  (0 < limit)%nat -> paginateQuery_limit srv limit = getAllDatabaseRows_limit srv limit.
Proof.
  intros Hpos. unfold paginateQuery_limit, getAllDatabaseRows_limit.
  apply walkers_agree; lia.
Qed.

Lemma paginateQuery_agrees (srv : server) : paginateQuery srv = getAllDatabaseRows srv.
Proof. apply paginateQuery_limit_agrees. lia. Qed.

(** The validating walkers stop, without an error, at a page that reports
    [has_more: true] with a cursor that is absent, [null], empty or the
    string "null", and the cursors they send after the first are usable. *)
Lemma validating_walkers_stop_on_unusable_cursor (srv : server) (i : nat)
    (c : cursor_value) (p : page) :
  nth_error (snd (getAllDatabaseRows srv)) i = Some c ->
  srv i c = Page p -> has_more p = true ->
  (next_cursor p = Undefined \/ next_cursor p = Null
   \/ next_cursor p = Cursor "" \/ next_cursor p = Cursor "null") ->
  (List.length (snd (getAllDatabaseRows srv)) = S i
   /\ exists rows, fst (getAllDatabaseRows srv) = Returned rows)
  /\ (List.length (snd (paginateQuery srv)) = S i
      /\ exists rows, fst (paginateQuery srv) = Returned rows)
  /\ ~ In (Cursor "null") (snd (getAllDatabaseRows srv))
  /\ ~ In (Cursor "null") (snd (paginateQuery srv)).
Proof.
  intros Hnth Hsrv Hmore Hcur. rewrite paginateQuery_agrees.
  assert (Hv : valid_cursor p = false).
  { unfold valid_cursor. rewrite Hmore.
    destruct Hcur as [ -> | [ -> | [ -> | -> ] ] ]; reflexivity. }
  assert (Hstop := G_stops srv 100 101 [] Undefined 0 i c p Hnth Hsrv Hv).
  assert (Hnull : ~ In (Cursor "null") (snd (getAllDatabaseRows srv))).
  { destruct (G_cursors srv 100 100 [] Undefined 0) as [rest [Htr Hall]].
    unfold getAllDatabaseRows, getAllDatabaseRows_limit. rewrite Htr.
    intros [H|H]; [discriminate|].
    rewrite Forall_forall in Hall. destruct (Hall _ H) as [_ Hn]. discriminate. }
  repeat split; try apply Hstop; assumption.
Qed.

(** ** The claims about pagination *)

(** C4 at the failing input.  [getFullProperty] only tests [has_more]: a
    first page with [has_more: true] and [next_cursor: "null"] makes it
    send a second request whose cursor is the string "null". *)
Theorem C4_getFullProperty_sends_null_cursor :
  getFullProperty
    (serve [Scenario.rows [1; 2] true (Cursor "null");
            Scenario.rows [3] false Null])
    2
  = (Returned [JNumber 1; JNumber 2; JNumber 3], [Undefined; Cursor "null"]).
Proof. reflexivity. Qed.

(** On the same pages the validating walkers stop after the first request. *)
Lemma validating_walkers_on_null_cursor :
  getAllDatabaseRows
    (serve [Scenario.rows [1; 2] true (Cursor "null"); Scenario.rows [3] false Null])
  = (Returned [JNumber 1; JNumber 2], [Undefined])
  /\ paginateQuery
       (serve [Scenario.rows [1; 2] true (Cursor "null"); Scenario.rows [3] false Null])
     = (Returned [JNumber 1; JNumber 2], [Undefined]).
Proof. split; reflexivity. Qed.

(** With [has_more: true] and no cursor at all, [getFullProperty] asks for
    the first page again and again: no amount of fuel lets it return. *)
Lemma getFullProperty_never_stops_without_cursor (fuel : nat) :
  fst (getFullProperty (fun _ _ => Page (Scenario.rows [1] true Undefined)) fuel)
  = OutOfFuel.
Proof.
  assert (H : forall acc cursor sent,
             fst (getFullProperty_loop
                    (fun _ _ => Page (Scenario.rows [1] true Undefined))
                    fuel acc cursor sent) = OutOfFuel).
  { induction fuel as [|fuel IH]; intros acc cursor sent; [reflexivity|].
    simpl. specialize (IH (acc ++ [JNumber 1])%list Undefined (S sent)).
    destruct (getFullProperty_loop _ fuel _ Undefined (S sent)) as [c tr].
    exact IH. }
  apply H.
Qed.

(** For every upstream, a walk of [getAllDatabaseRows] or of
    [paginateQuery] ends, and the rows it returns are the concatenation of
    the [results] arrays of the pages it received, in the order of their
    arrival.  The only other way a walk ends is by throwing the failure of
    one of its requests. *)
Lemma walk_returns_received_pages (srv : server) :
  match fst (getAllDatabaseRows srv) with
  | Returned rows =>
      rows = flat_map results (received srv 0 (snd (getAllDatabaseRows srv)))
      /\ List.length rows
         = list_sum (map (fun p => List.length (results p))
                       (received srv 0 (snd (getAllDatabaseRows srv))))
  | Threw e => exists n c, srv n c = Failure e
  | OutOfFuel => False
  end
  /\ match fst (paginateQuery srv) with
     | Returned rows =>
         rows = flat_map results (received srv 0 (snd (paginateQuery srv)))
         /\ List.length rows
            = list_sum (map (fun p => List.length (results p))
                          (received srv 0 (snd (paginateQuery srv))))
     | Threw e => exists n c, srv n c = Failure e
     | OutOfFuel => False
     end.
Proof.
  rewrite paginateQuery_agrees.
  assert (H := G_result srv 100 101 [] Undefined 0 ltac:(lia)).
  fold (getAllDatabaseRows_limit srv 100) in H. fold (getAllDatabaseRows srv) in H.
  assert (H' : match fst (getAllDatabaseRows srv) with
               | Returned rows =>
                   rows = flat_map results (received srv 0 (snd (getAllDatabaseRows srv)))
                   /\ List.length rows
                      = list_sum (map (fun p => List.length (results p))
                                    (received srv 0 (snd (getAllDatabaseRows srv))))
               | Threw e => exists n c, srv n c = Failure e
               | OutOfFuel => False
               end).
  { destruct (fst (getAllDatabaseRows srv)); [|assumption..].
    simpl in H. split; [assumption|]. rewrite H at 1. apply length_flat_map. }
  split; exact H'.
Qed.

(** A listing served page by page: when every page but the last carries a
    valid cursor, the last does not, and the listing fits under the limit,
    the walk requests every page and returns all the rows. *)
Lemma G_listing (maxPages : nat) (pages : list page) :
  forall (suffix pre : list page) (acc : list json) (cursor : cursor_value) (fuel : nat),
    pages = (pre ++ suffix)%list -> suffix <> [] ->
    (List.length pages <= maxPages)%nat -> (List.length suffix <= fuel)%nat ->
    Forall (fun p => valid_cursor p = true) (removelast suffix) ->
    valid_cursor (last suffix (Scenario.rows [] false Null)) = false ->
    getAllDatabaseRows_loop (serve pages) maxPages fuel acc cursor (List.length pre)
    = (Returned (acc ++ flat_map results suffix)%list,
       cursor :: map next_cursor (removelast suffix)).
Proof.
  induction suffix as [|p rest IH]; intros pre acc cursor fuel Hpages Hne Hmax Hfuel Hall Hlast;
    [congruence|].
  destruct fuel as [|fuel]; [simpl in Hfuel; lia|].
  assert (Hnth : nth_error pages (List.length pre) = Some p).
  { rewrite Hpages, nth_error_app2, Nat.sub_diag by lia. reflexivity. }
  cbn [getAllDatabaseRows_loop]. unfold serve at 1. rewrite Hnth. cbv zeta.
  destruct rest as [|q rest].
  - simpl in Hlast. rewrite Hlast. simpl. now rewrite app_nil_r.
  - assert (Hv : valid_cursor p = true) by (now inversion Hall).
    rewrite Hv. destruct (valid_cursor_usable p Hv) as [Ht _]. rewrite Ht. simpl andb.
    assert (Hlen : (S (List.length pre) < maxPages)%nat).
    { rewrite Hpages, length_app in Hmax. simpl in Hmax. lia. }
    destruct (Nat.ltb_spec (S (List.length pre)) maxPages) as [_|]; [|lia].
    specialize (IH (pre ++ [p])%list (acc ++ results p)%list (next_cursor p) fuel).
    rewrite length_app, Nat.add_1_r in IH.
    rewrite IH.
    + change (flat_map results (p :: q :: rest))
        with (results p ++ flat_map results (q :: rest))%list.
      rewrite app_assoc. reflexivity.
    + now rewrite <- app_assoc.
    + discriminate.
    + assumption.
    + simpl in Hfuel. simpl. lia.
    + now inversion Hall.
    + exact Hlast.
Qed.

Lemma complete_listing_walked (pages : list page) :
  pages <> [] -> (List.length pages <= 100)%nat ->
  Forall (fun p => valid_cursor p = true) (removelast pages) ->
  valid_cursor (last pages (Scenario.rows [] false Null)) = false ->
  getAllDatabaseRows (serve pages)
  = (Returned (flat_map results pages), Undefined :: map next_cursor (removelast pages))
  /\ paginateQuery (serve pages)
     = (Returned (flat_map results pages), Undefined :: map next_cursor (removelast pages)).
Proof.
  intros Hne Hlen Hall Hlast. rewrite paginateQuery_agrees.
  assert (H := G_listing 100 pages pages [] [] Undefined 101 eq_refl Hne Hlen
                 ltac:(lia) Hall Hlast).
  split; exact H.
Qed.

(** C5 (amended).  For a listing of at most 100 pages served page by page,
    in which every page but the last reports [has_more: true] with a
    [next_cursor] that is a non-empty string other than "null", and the last
    page reports [has_more: false], [getAllDatabaseRows] and [paginateQuery]
    request each page once, in order, and return the concatenation of the
    [results] arrays of all the pages in the order of their arrival: the
    length is the sum of the lengths of the pages, and nothing is reordered,
    dropped or deduplicated. *)
Theorem C5_complete_listing_in_arrival_order (pages : list page) :
  pages <> [] -> (List.length pages <= 100)%nat ->
  Forall (fun p => has_more p = true /\ usable (next_cursor p)) (removelast pages) ->
  has_more (last pages (Scenario.rows [] false Null)) = false ->
  getAllDatabaseRows (serve pages)
  = (Returned (flat_map results pages), Undefined :: map next_cursor (removelast pages))
  /\ paginateQuery (serve pages)
     = (Returned (flat_map results pages), Undefined :: map next_cursor (removelast pages))
  /\ List.length (flat_map results pages)
     = list_sum (map (fun p => List.length (results p)) pages).
Proof.
  intros Hne Hlen Hall Hlast.
  assert (Hvalid : Forall (fun p => valid_cursor p = true) (removelast pages)).
  { eapply Forall_impl; [|exact Hall].
    intros p [Hmore [Htruthy Hnull]]. unfold valid_cursor.
    now rewrite Hmore, Htruthy, Hnull. }
  assert (Hend : valid_cursor (last pages (Scenario.rows [] false Null)) = false).
  { unfold valid_cursor. now rewrite Hlast. }
  destruct (complete_listing_walked pages Hne Hlen Hvalid Hend) as [Hrows Hquery].
  split; [exact Hrows|]. split; [exact Hquery|]. apply length_flat_map.
Qed.

(** C5 (amended), a run: three pages of two, no and one row. *)
Lemma C5_complete_listing_witness :
  getAllDatabaseRows
    (serve [Scenario.rows [1; 2] true (Cursor "c1");
            Scenario.rows [] true (Cursor "c2");
            Scenario.rows [3] false Null])
  = (Returned [JNumber 1; JNumber 2; JNumber 3], [Undefined; Cursor "c1"; Cursor "c2"])
  /\ paginateQuery
       (serve [Scenario.rows [1; 2] true (Cursor "c1");
               Scenario.rows [] true (Cursor "c2");
               Scenario.rows [3] false Null])
     = (Returned [JNumber 1; JNumber 2; JNumber 3], [Undefined; Cursor "c1"; Cursor "c2"]).
Proof.
  destruct (C5_complete_listing_in_arrival_order
              [Scenario.rows [1; 2] true (Cursor "c1");
               Scenario.rows [] true (Cursor "c2");
               Scenario.rows [3] false Null]
              ltac:(discriminate) ltac:(simpl; lia)
              ltac:(repeat constructor) eq_refl) as [Hrows [Hquery _]].
  split; [exact Hrows|exact Hquery].
Defined.

(** C5 as stated fails: the claim only asks that every page but the last
    reports [has_more: true].  A listing of 101 pages of one row each meets
    that, and both walkers return 100 rows, not 101: the page limit cuts the
    walk.  Two pages of which the first reports [has_more: true] with the
    cursor "null" meet it too, and both walkers return the rows of the first
    page alone: the cursor test ends the walk. *)
Lemma C5_page_limit_counterexample :
  let long := Scenario.listing 101 in
  let quirk := [Scenario.rows [1; 2] true (Cursor "null"); Scenario.rows [3] false Null] in
  forallb has_more (removelast long) = true
  /\ has_more (last long (Scenario.rows [] false Null)) = false
  /\ list_sum (map (fun p => List.length (results p)) long) = 101%nat
  /\ (exists rows, fst (getAllDatabaseRows (serve long)) = Returned rows
                   /\ List.length rows = 100%nat)
  /\ (exists rows, fst (paginateQuery (serve long)) = Returned rows
                   /\ List.length rows = 100%nat)
  /\ forallb has_more (removelast quirk) = true
  /\ has_more (last quirk (Scenario.rows [] false Null)) = false
  /\ flat_map results quirk = [JNumber 1; JNumber 2; JNumber 3]
  /\ getAllDatabaseRows (serve quirk) = (Returned [JNumber 1; JNumber 2], [Undefined])
  /\ paginateQuery (serve quirk) = (Returned [JNumber 1; JNumber 2], [Undefined]).
Proof.
  cbv zeta. repeat split; try (vm_compute; reflexivity).
  - eexists. split; vm_compute; reflexivity.
  - eexists. split; vm_compute; reflexivity.
Qed.

(** Two pages: [a, b] with a cursor, then [c]. *)
Lemma two_pages_walked :
  getAllDatabaseRows
    (serve [Scenario.rows [1; 2] true (Cursor "c1"); Scenario.rows [3] false Undefined])
  = (Returned [JNumber 1; JNumber 2; JNumber 3], [Undefined; Cursor "c1"])
  /\ paginateQuery
       (serve [Scenario.rows [1; 2] true (Cursor "c1"); Scenario.rows [3] false Undefined])
     = (Returned [JNumber 1; JNumber 2; JNumber 3], [Undefined; Cursor "c1"]).
Proof. split; reflexivity. Qed.

(** C7 (amended).  When every request below the page limit is answered by a
    page that reports more pages with a valid cursor, the walk stops after
    exactly [limit] requests and throws nothing; it returns the rows of the
    pages received as a plain array, which carries no mark of truncation.
    [getAllDatabaseRows] and [paginateQuery] are the instances with the
    limit 100 of the source. *)
Theorem C7_walk_stops_at_page_limit (srv : server) (limit : nat) :
  (1 <= limit)%nat ->
  (forall n c, (n < limit)%nat -> exists p, srv n c = Page p /\ valid_cursor p = true) ->
  (List.length (snd (getAllDatabaseRows_limit srv limit)) = limit
   /\ fst (getAllDatabaseRows_limit srv limit)
      = Returned (flat_map results
                    (received srv 0 (snd (getAllDatabaseRows_limit srv limit)))))
  /\ (List.length (snd (paginateQuery_limit srv limit)) = limit
      /\ fst (paginateQuery_limit srv limit)
         = Returned (flat_map results
                       (received srv 0 (snd (paginateQuery_limit srv limit))))).
Proof.
  intros Hpos Hsrv. rewrite paginateQuery_limit_agrees by lia.
  assert (H : List.length (snd (getAllDatabaseRows_limit srv limit)) = limit
              /\ fst (getAllDatabaseRows_limit srv limit)
                 = Returned (flat_map results
                               (received srv 0 (snd (getAllDatabaseRows_limit srv limit))))).
  { unfold getAllDatabaseRows_limit.
    destruct (G_truncated srv limit (S limit) [] Undefined 0 ltac:(lia) ltac:(lia) Hsrv)
      as [Hlen [rows Hret]].
    split; [lia|].
    assert (Hres := G_result srv limit (S limit) [] Undefined 0 ltac:(lia)).
    rewrite Hret in Hres |- *. simpl in Hres. now rewrite Hres. }
  split; exact H.
Qed.

(** C7, two runs: a limit of 2 with three pages available, and the limit
    100 of the source with an upstream that never runs out of pages. *)
Lemma C7_walk_stops_at_page_limit_witness :
  (1 <= 2)%nat
  /\ List.length
       (snd (getAllDatabaseRows_limit
               (serve [Scenario.rows [1] true (Cursor "c1");
                       Scenario.rows [2] true (Cursor "c2");
                       Scenario.rows [3] false Null])
               2)) = 2%nat
  /\ (1 <= 100)%nat
  /\ List.length (snd (getAllDatabaseRows Scenario.endless)) = 100%nat
  /\ List.length (snd (paginateQuery Scenario.endless)) = 100%nat.
Proof.
  split; [lia|]. split; [|split; [lia|]].
  - destruct (C7_walk_stops_at_page_limit
                (serve [Scenario.rows [1] true (Cursor "c1");
                        Scenario.rows [2] true (Cursor "c2");
                        Scenario.rows [3] false Null])
                2 ltac:(lia)) as [[HG _] _].
    + intros n c Hn. destruct n as [|[|n]]; [| |lia].
      * exists (Scenario.rows [1] true (Cursor "c1")). split; reflexivity.
      * exists (Scenario.rows [2] true (Cursor "c2")). split; reflexivity.
    + exact HG.
  - destruct (C7_walk_stops_at_page_limit Scenario.endless 100 ltac:(lia))
      as [[HG _] [HP _]].
    + intros n c _. exists (Scenario.rows [Z.of_nat n] true (Cursor "next")).
      split; reflexivity.
    + split; assumption.
Defined.

(** C7 as stated fails: the value returned by a walk cut at the limit is the
    bare array of rows.  With a limit of 2, a listing of three pages and a
    listing that ends with its second page give the same result after the
    same two requests; and at the limit 100 of the source, a listing of 101
    pages gives what the listing of its first 100 pages gives. *)
Lemma C7_no_truncation_mark_counterexample :
  let three := serve [Scenario.rows [1] true (Cursor "c1");
                      Scenario.rows [2] true (Cursor "c2");
                      Scenario.rows [3] false Null] in
  let two := serve [Scenario.rows [1] true (Cursor "c1");
                    Scenario.rows [2] false Null] in
  getAllDatabaseRows_limit three 2 = (Returned [JNumber 1; JNumber 2], [Undefined; Cursor "c1"])
  /\ getAllDatabaseRows_limit two 2 = (Returned [JNumber 1; JNumber 2], [Undefined; Cursor "c1"])
  /\ paginateQuery_limit three 2 = paginateQuery_limit two 2
  /\ getAllDatabaseRows (serve (Scenario.listing 101))
     = getAllDatabaseRows (serve (Scenario.listing 100))
  /\ paginateQuery (serve (Scenario.listing 101))
     = paginateQuery (serve (Scenario.listing 100)).
Proof. repeat split; vm_compute; reflexivity. Qed.

(** ** The tool handler *)

Import HttpServer.

Lemma switch_unknown_tool (notionClient : client_call -> client_reply)
    (name : string) (args : json) :
  ~ In name tool_names ->
  switch notionClient name args = throw_Error ("Unknown tool: " ++ name).
Proof.
  intros Hnot. unfold switch.
  repeat match goal with
  | |- context [String.eqb name ?known] =>
      destruct (String.eqb_spec name known) as [Heq|_];
      [exfalso; apply Hnot; rewrite Heq; simpl; tauto|]
  end.
  reflexivity.
Qed.

Lemma format_response_text (JSON_stringify : json -> nat -> string)
    (flag : bool) (response : json) :
  format_response JSON_stringify flag response
  = text_result (JSON_stringify response 2%nat).
Proof.
  unfold format_response.
  now destruct (flag && truthy response && typeof_object response).
Qed.

Lemma try_block_flag (notionClient : client_call -> client_reply)
    (JSON_stringify : json -> nat -> string) (request : CallToolRequest) :
  try_block notionClient JSON_stringify true request
  = try_block notionClient JSON_stringify false request.
Proof.
  unfold try_block. destruct (arguments request) as [args|]; [|reflexivity].
  destruct (truthy args); [|reflexivity].
  destruct (switch notionClient (name request) args) as [t|response]; [reflexivity|].
  now rewrite !format_response_text.
Qed.

(** C9.  For every request the promise of the handler is fulfilled with a
    result that holds one text item; nothing is rejected to the transport.
    Whatever the [try] block throws, in the validation of the arguments, in
    the routing or in the client call, ends as the text
    [JSON.stringify({ error: message })]; in particular a request without
    arguments and a request for an unknown tool do. *)
Theorem C9_handler_returns_text_for_every_request
    (notionClient : client_call -> client_reply)
    (JSON_stringify : json -> nat -> string)
    (enableMarkdownConversion : bool) (request : CallToolRequest) :
  exists s : string,
    handler notionClient JSON_stringify enableMarkdownConversion request
    = inr (text_result s)
    /\ (forall t,
          try_block notionClient JSON_stringify enableMarkdownConversion request = inl t ->
          s = JSON_stringify (error_object (thrown_message t)) 0%nat)
    /\ (truthy_value (arguments request) = false ->
        s = JSON_stringify (error_object "No arguments provided") 0%nat)
    /\ (truthy_value (arguments request) = true ->
        ~ In (name request) tool_names ->
        s = JSON_stringify (error_object ("Unknown tool: " ++ name request)) 0%nat).
Proof.
  unfold handler.
  destruct (try_block notionClient JSON_stringify enableMarkdownConversion request)
    as [t|result] eqn:Htry.
  - exists (JSON_stringify (error_object (thrown_message t)) 0%nat).
    split; [reflexivity|split; [|split]].
    + intros t' Ht'. now injection Ht' as <-.
    + intros Hfalsy. unfold try_block in Htry.
      destruct (arguments request) as [args|]; simpl in Hfalsy.
      * rewrite Hfalsy in Htry. now injection Htry as <-.
      * now injection Htry as <-.
    + intros Htruthy Hnot. unfold try_block in Htry.
      destruct (arguments request) as [args|]; simpl in Htruthy; [|discriminate].
      rewrite Htruthy, (switch_unknown_tool notionClient _ _ Hnot) in Htry.
      now injection Htry as <-.
  - unfold try_block in Htry.
    destruct (arguments request) as [args|] eqn:Hargs; [|discriminate].
    destruct (truthy args) eqn:Htruthy; [|discriminate].
    destruct (switch notionClient (name request) args) as [t|response] eqn:Hsw;
      [discriminate|].
    injection Htry as <-. rewrite format_response_text.
    exists (JSON_stringify response 2%nat).
    split; [reflexivity|split; [|split]].
    + discriminate.
    + simpl. congruence.
    + intros _ Hnot. rewrite (switch_unknown_tool notionClient _ _ Hnot) in Hsw.
      discriminate.
Qed.

(** C9, three requests: an unknown tool, a missing required argument, and a
    call the upstream rejects. *)
Lemma C9_handler_witness :
  handler Scenario.failing_client Scenario.stringify false
    {| name := "notion_delete_page"; arguments := Some (JObject []) |}
  = inr (text_result
           (Scenario.stringify (error_object "Unknown tool: notion_delete_page") 0))
  /\ handler Scenario.failing_client Scenario.stringify false
       {| name := "notion_retrieve_page"; arguments := Some (JObject []) |}
     = inr (text_result
              (Scenario.stringify (error_object "Missing required argument: page_id") 0))
  /\ handler Scenario.failing_client Scenario.stringify false
       {| name := "notion_retrieve_page";
          arguments := Some (JObject [("page_id", JString "abc123")]) |}
     = inr (text_result (Scenario.stringify (error_object "Could not find page") 0)).
Proof.
  split; [|split; reflexivity].
  destruct (C9_handler_returns_text_for_every_request
              Scenario.failing_client Scenario.stringify false
              {| name := "notion_delete_page"; arguments := Some (JObject []) |})
    as [s [Hs [_ [_ Hunknown]]]].
  rewrite Hs. rewrite (Hunknown eq_refl); [reflexivity|].
  simpl. intros H.
  repeat (destruct H as [H|H]; [discriminate H|]). exact H.
Defined.

(** C10.  Whatever the response and whatever the flag, the formatted text is
    [JSON.stringify(response, null, 2%nat)]: both branches of the formatting
    step compute it, and the handler settles to the same result with the
    flag on and off. *)
Theorem C10_markdown_flag_has_no_effect
    (notionClient : client_call -> client_reply)
    (JSON_stringify : json -> nat -> string)
    (enableMarkdownConversion : bool) (request : CallToolRequest) (response : json) :
  format_response JSON_stringify enableMarkdownConversion response
  = text_result (JSON_stringify response 2%nat)
  /\ handler notionClient JSON_stringify true request
     = handler notionClient JSON_stringify false request
  /\ (forall args,
        arguments request = Some args -> truthy args = true ->
        switch notionClient (name request) args = inr response ->
        handler notionClient JSON_stringify enableMarkdownConversion request
        = inr (text_result (JSON_stringify response 2%nat))).
Proof.
  split; [apply format_response_text|split].
  - unfold handler. now rewrite try_block_flag.
  - intros args Hargs Htruthy Hsw. unfold handler, try_block.
    now rewrite Hargs, Htruthy, Hsw, format_response_text.
Qed.

(** C10, a run: a page retrieved with the flag on. *)
Lemma C10_markdown_flag_witness :
  handler Scenario.page_client Scenario.stringify true
    {| name := "notion_retrieve_page";
       arguments := Some (JObject [("page_id", JString "abc123")]) |}
  = inr (text_result (Scenario.stringify Scenario.a_page 2)).
Proof.
  exact (proj2 (proj2 (C10_markdown_flag_has_no_effect
                         Scenario.page_client Scenario.stringify true
                         {| name := "notion_retrieve_page";
                            arguments := Some (JObject [("page_id", JString "abc123")]) |}
                         Scenario.a_page))
           (JObject [("page_id", JString "abc123")]) eq_refl eq_refl eq_refl).
Defined.

(** * Further properties of the code *)

(** ** [notionRequest] *)

Section NotionRequestFacts.

Variable net : network.
Variable maxRetries : nat.

Local Abbreviation nr_loop := (NotionRequest.loop net maxRetries).
Local Abbreviation nr_run := (NotionRequest.run net maxRetries).
Local Abbreviation nr_iteration := (NotionRequest.iteration net maxRetries).

Lemma notionRequest_loop_run fuel attempt :
  (maxRetries - attempt < fuel)%nat ->
  nr_run attempt (fst (nr_loop fuel attempt)) (snd (nr_loop fuel attempt)).
Proof.
  revert attempt; induction fuel as [|fuel IH]; intros attempt Hfuel; [lia|].
  simpl. destruct (Nat.ltb_spec attempt maxRetries) as [Hlt|Hge].
  - destruct (nr_iteration attempt) as [t| |data|e] eqn:Hit.
    + specialize (IH (S attempt) ltac:(lia)).
      destruct (nr_loop fuel (S attempt)) as [c tr]; simpl in *.
      now apply NotionRequest.run_wait.
    + specialize (IH (S attempt) ltac:(lia)).
      destruct (nr_loop fuel (S attempt)) as [c tr]; simpl in *.
      now apply NotionRequest.run_immediately.
    + now apply NotionRequest.run_give.
    + now apply NotionRequest.run_throw.
  - now apply NotionRequest.run_exit.
Qed.

Lemma notionRequest_run :
  nr_run 0 (fst (NotionRequest.notionRequest net maxRetries))
    (snd (NotionRequest.notionRequest net maxRetries)).
Proof. apply notionRequest_loop_run. lia. Qed.

Lemma nr_run_requests attempt c tr :
  nr_run attempt c tr ->
  c <> OutOfFuel
  /\ exists k, requests tr = seq attempt k
               /\ (attempt + k <= Nat.max attempt maxRetries)%nat.
Proof.
  induction 1 as [a Hge|a d Hlt Hit|a e Hlt Hit
                 |a t c tr Hlt Hit Hrun [Hc [k [Hk Hle]]]
                 |a c tr Hlt Hit Hrun [Hc [k [Hk Hle]]]].
  - split; [discriminate|]. exists 0%nat; simpl; split; [reflexivity|lia].
  - split; [discriminate|]. exists 1%nat; simpl; split; [reflexivity|lia].
  - split; [discriminate|]. exists 1%nat; simpl; split; [reflexivity|lia].
  - split; [assumption|]. exists (S k); simpl; rewrite Hk; split; [reflexivity|lia].
  - split; [assumption|]. exists (S k); simpl; rewrite Hk; split; [reflexivity|lia].
Qed.

Lemma nr_run_starts attempt c tr :
  nr_run attempt c tr -> (attempt < maxRetries)%nat ->
  exists rest, tr = Request attempt :: rest.
Proof. destruct 1; intros; try lia; eauto. Qed.

(** Every timer of a run is the one a pass asked for. *)
Lemma nr_run_sleeps attempt c tr :
  nr_run attempt c tr ->
  forall t, In (Sleep t) tr ->
    exists n, (attempt <= n < maxRetries)%nat /\ nr_iteration n = NotionRequest.Wait t.
Proof.
  induction 1 as [a Hge|a d Hlt Hit|a e Hlt Hit
                 |a t0 c tr Hlt Hit Hrun IH|a c tr Hlt Hit Hrun IH]; intros t Hin.
  - destruct Hin.
  - destruct Hin as [Heq|[]]; discriminate.
  - destruct Hin as [Heq|[]]; discriminate.
  - destruct Hin as [Heq|[Heq|Hin]]; [discriminate| |].
    + injection Heq as <-. exists a. split; [lia|assumption].
    + destruct (IH t Hin) as [n [Hn Hw]]. exists n. split; [lia|assumption].
  - destruct Hin as [Heq|Hin]; [discriminate|].
    destruct (IH t Hin) as [n [Hn Hw]]. exists n. split; [lia|assumption].
Qed.

Lemma nr_run_waited attempt c tr :
  nr_run attempt c tr ->
  forall n t, In (Request n) tr -> nr_iteration n = NotionRequest.Wait t ->
    In (Sleep t) tr.
Proof.
  induction 1 as [a Hge|a d Hlt Hit|a e Hlt Hit
                 |a t0 c tr Hlt Hit Hrun IH|a c tr Hlt Hit Hrun IH]; intros n t Hin Hn.
  - destruct Hin.
  - destruct Hin as [Heq|[]]; congruence.
  - destruct Hin as [Heq|[]]; congruence.
  - destruct Hin as [Heq|[Heq|Hin]]; [|discriminate|].
    + injection Heq as <-. rewrite Hit in Hn. injection Hn as <-. right; now left.
    + right; right. now apply (IH n).
  - destruct Hin as [Heq|Hin].
    + injection Heq as <-. congruence.
    + right. now apply (IH n).
Qed.

Lemma nr_run_at_once attempt c tr :
  nr_run attempt c tr ->
  forall n, In (Request n) tr -> nr_iteration n = NotionRequest.Immediately ->
    (S n < maxRetries)%nat -> NotionRequest.retried_at_once tr n.
Proof.
  induction 1 as [a Hge|a d Hlt Hit|a e Hlt Hit
                 |a t0 c tr Hlt Hit Hrun IH|a c tr Hlt Hit Hrun IH]; intros n Hin Hn Hlast.
  - destruct Hin.
  - destruct Hin as [Heq|[]]; congruence.
  - destruct Hin as [Heq|[]]; congruence.
  - destruct Hin as [Heq|[Heq|Hin]]; [congruence|discriminate|].
    destruct (IH n Hin Hn Hlast) as [pre [post ->]].
    now exists (Request a :: Sleep t0 :: pre), post.
  - destruct Hin as [Heq|Hin].
    + injection Heq as <-.
      destruct (nr_run_starts _ _ _ Hrun Hlast) as [rest ->].
      now exists [], rest.
    + destruct (IH n Hin Hn Hlast) as [pre [post ->]].
      now exists (Request a :: pre), post.
Qed.

Lemma nr_run_thrown attempt c tr :
  nr_run attempt c tr ->
  forall n e, In (Request n) tr -> nr_iteration n = NotionRequest.Throw e ->
    c = Threw e /\ ends_with_request tr n.
Proof.
  induction 1 as [a Hge|a d Hlt Hit|a e0 Hlt Hit
                 |a t0 c tr Hlt Hit Hrun IH|a c tr Hlt Hit Hrun IH]; intros n e Hin Hn.
  - destruct Hin.
  - destruct Hin as [Heq|[]]; congruence.
  - destruct Hin as [Heq|[]].
    injection Heq as <-. rewrite Hit in Hn; injection Hn as <-.
    split; [reflexivity|now exists []].
  - destruct Hin as [Heq|[Heq|Hin]]; [congruence|discriminate|].
    destruct (IH n e Hin Hn) as [-> [pre ->]].
    split; [reflexivity|now exists (Request a :: Sleep t0 :: pre)].
  - destruct Hin as [Heq|Hin]; [congruence|].
    destruct (IH n e Hin Hn) as [-> [pre ->]].
    split; [reflexivity|now exists (Request a :: pre)].
Qed.

(** When every pass from [attempt] on asks for a timer, the loop runs to
    its end and gives up there. *)
Lemma nr_run_all_wait attempt c tr :
  nr_run attempt c tr ->
  (forall n, (attempt <= n < maxRetries)%nat -> exists t, nr_iteration n = NotionRequest.Wait t) ->
  c = Threw (Error "Max retries exceeded")
  /\ requests tr = seq attempt (maxRetries - attempt)
  /\ (forall n, (attempt <= n < maxRetries)%nat -> In (Request n) tr).
Proof.
  induction 1 as [a Hge|a d Hlt Hit|a e Hlt Hit
                 |a t0 c tr Hlt Hit Hrun IH|a c tr Hlt Hit Hrun IH]; intros Hall.
  - split; [reflexivity|]. replace (maxRetries - a)%nat with 0%nat by lia.
    split; [reflexivity|]. intros n Hn. lia.
  - destruct (Hall a ltac:(lia)) as [t Ht]. congruence.
  - destruct (Hall a ltac:(lia)) as [t Ht]. congruence.
  - destruct IH as [Hc [Hreq Hin]]; [intros n Hn; apply Hall; lia|].
    split; [assumption|]. split.
    + simpl. rewrite Hreq.
      replace (maxRetries - a)%nat with (S (maxRetries - S a)) by lia. reflexivity.
    + intros n Hn. destruct (Nat.eq_dec n a) as [->|Hne]; [now left|].
      right; right. apply Hin. lia.
  - destruct (Hall a ltac:(lia)) as [t Ht]. congruence.
Qed.

Lemma nr_rate_limited n r :
  net n = Resolved r -> status r = 429 ->
  nr_iteration n
  = NotionRequest.Wait
      {| delay := mul (NotionRequest.waitSeconds (retry_after r) n) (Finite 1000);
         random_sample := None |}.
Proof.
  intros Hnet Hst. unfold NotionRequest.iteration, NotionRequest.try_block.
  now rewrite Hnet, Hst.
Qed.

Lemma nr_wait_only_on_429 n t :
  nr_iteration n = NotionRequest.Wait t ->
  exists r, net n = Resolved r /\ status r = 429
            /\ t = {| delay := mul (NotionRequest.waitSeconds (retry_after r) n)
                                 (Finite 1000);
                      random_sample := None |}.
Proof.
  unfold NotionRequest.iteration, NotionRequest.try_block, NotionRequest.catch_block.
  destruct (net n) as [r|message] eqn:Hnet.
  - destruct (Z.eqb_spec (status r) 429) as [Hst|Hst].
    + intros H. injection H as <-. now exists r.
    + destruct (negb (ok r)).
      * destruct (maxRetries - 1 <=? n)%nat; discriminate.
      * destruct (body r); [discriminate|].
        destruct (maxRetries - 1 <=? n)%nat; discriminate.
  - destruct (maxRetries - 1 <=? n)%nat; discriminate.
Qed.

Lemma nr_raise n e :
  NotionRequest.try_block net n = Raise e ->
  nr_iteration n
  = if (maxRetries - 1 <=? n)%nat then NotionRequest.Throw e
    else NotionRequest.Immediately.
Proof.
  intros H. unfold NotionRequest.iteration. rewrite H. reflexivity.
Qed.

End NotionRequestFacts.

(** X1.  [notionRequest] terminates for every behaviour of the network and
    sends at most [maxRetries] requests, numbered by [attempt].  It waits
    only after a 429 response: every timer of a run belongs to a request
    that was answered by a 429, and its delay is the [Retry-After] value
    times 1000 ms when the header is present, [2^attempt * 1000] ms
    otherwise. *)
Theorem notionRequest_waits_only_after_429 (net : network) (maxRetries : nat) :
  fst (NotionRequest.notionRequest net maxRetries) <> OutOfFuel
  /\ requests (snd (NotionRequest.notionRequest net maxRetries))
     = seq 0 (List.length (requests (snd (NotionRequest.notionRequest net maxRetries))))
  /\ (List.length (requests (snd (NotionRequest.notionRequest net maxRetries)))
      <= maxRetries)%nat
  /\ forall t, In (Sleep t) (snd (NotionRequest.notionRequest net maxRetries)) ->
       exists n r,
         (n < maxRetries)%nat /\ net n = Resolved r /\ status r = 429
         /\ random_sample t = None
         /\ delay t = match retry_after r with
                      | Some (String c s) => mul (parseInt (String c s)) (Finite 1000)
                      | _ => Finite (2 ^ Z.of_nat n * 1000)
                      end.
Proof.
  pose proof (notionRequest_run net maxRetries) as Hrun.
  destruct (nr_run_requests _ _ _ _ _ Hrun) as [Hc [k [Hk Hle]]].
  split; [assumption|]. rewrite Hk, length_seq.
  split; [reflexivity|]. split; [lia|].
  intros t Hin.
  destruct (nr_run_sleeps _ _ _ _ _ Hrun t Hin) as [n [Hn Hw]].
  destruct (nr_wait_only_on_429 _ _ _ _ Hw) as [r [Hnet [Hst ->]]].
  exists n, r. repeat split; try assumption; try lia.
  simpl. unfold NotionRequest.waitSeconds.
  destruct (retry_after r) as [[|c s]|]; reflexivity.
Qed.

(** X2.  [notionRequest] retries a 429 on every attempt, the last one
    included: when each of the [maxRetries] requests is answered by a 429,
    all of them are sent, a timer is awaited after each, and the call ends
    with [Max retries exceeded], not with the error of the upstream. *)
Theorem notionRequest_gives_up_after_rate_limits (net : network) (maxRetries : nat) :
  (forall n, (n < maxRetries)%nat -> exists r, net n = Resolved r /\ status r = 429) ->
  fst (NotionRequest.notionRequest net maxRetries)
  = Threw (Error "Max retries exceeded")
  /\ requests (snd (NotionRequest.notionRequest net maxRetries)) = seq 0 maxRetries
  /\ forall n r, (n < maxRetries)%nat -> net n = Resolved r ->
       In (Sleep {| delay := mul (NotionRequest.waitSeconds (retry_after r) n)
                               (Finite 1000);
                    random_sample := None |})
          (snd (NotionRequest.notionRequest net maxRetries)).
Proof.
  intros Hall. pose proof (notionRequest_run net maxRetries) as Hrun.
  assert (Hwait : forall n, (0 <= n < maxRetries)%nat ->
            exists t, NotionRequest.iteration net maxRetries n = NotionRequest.Wait t).
  { intros n Hn. destruct (Hall n ltac:(lia)) as [r [Hnet Hst]].
    eexists. exact (nr_rate_limited net maxRetries n r Hnet Hst). }
  destruct (nr_run_all_wait _ _ _ _ _ Hrun Hwait) as [Hc [Hreq Hin]].
  split; [assumption|]. rewrite Nat.sub_0_r in Hreq. split; [assumption|].
  intros n r Hn Hnet. destruct (Hall n Hn) as [r' [Hnet' Hst]].
  assert (r' = r) by congruence. subst r'.
  apply (nr_run_waited _ _ _ _ _ Hrun n); [apply Hin; lia|].
  exact (nr_rate_limited net maxRetries n r Hnet Hst).
Qed.

(** X2, a run: three 429 responses without the header and [maxRetries = 3]. *)
Lemma notionRequest_gives_up_witness :
  NotionRequest.notionRequest
    (Scenario.script [] (Resolved (Scenario.rate_limited None))) 3
  = (Threw (Error "Max retries exceeded"),
     [Request 0; Sleep {| delay := Finite 1000; random_sample := None |};
      Request 1; Sleep {| delay := Finite 2000; random_sample := None |};
      Request 2; Sleep {| delay := Finite 4000; random_sample := None |}]).
Proof.
  destruct (notionRequest_gives_up_after_rate_limits
              (Scenario.script [] (Resolved (Scenario.rate_limited None))) 3)
    as [Hc _].
  - intros n _. exists (Scenario.rate_limited None).
    split; [|reflexivity]. unfold Scenario.script. now destruct n.
  - rewrite (surjective_pairing (NotionRequest.notionRequest _ _)), Hc. reflexivity.
Defined.

(** X3.  [notionRequest] retries whatever its [try] block throws, without
    waiting: a request that fails on the network, and an error response
    other than 429 (thrown as [HTTP <status>: <statusText>]), is followed at
    once by the next request while a further attempt is allowed, and the
    error surfaces from attempt [maxRetries - 1]. *)
Theorem notionRequest_retries_errors_at_once
    (net : network) (maxRetries n : nat) :
  In (Request n) (snd (NotionRequest.notionRequest net maxRetries)) ->
  match net n with
  | Rejected message =>
      (S n < maxRetries ->
       NotionRequest.retried_at_once
         (snd (NotionRequest.notionRequest net maxRetries)) n)%nat
      /\ (S n = maxRetries ->
          fst (NotionRequest.notionRequest net maxRetries) = Threw (Error message)
          /\ ends_with_request (snd (NotionRequest.notionRequest net maxRetries)) n)
  | Resolved r =>
      status r <> 429 -> ok r = false ->
      (S n < maxRetries ->
       NotionRequest.retried_at_once
         (snd (NotionRequest.notionRequest net maxRetries)) n)%nat
      /\ (S n = maxRetries ->
          fst (NotionRequest.notionRequest net maxRetries)
          = Threw (Error ("HTTP " ++ string_of_Z (status r) ++ ": " ++ statusText r))
          /\ ends_with_request (snd (NotionRequest.notionRequest net maxRetries)) n)
  end.
Proof.
  intros Hin. pose proof (notionRequest_run net maxRetries) as Hrun.
  assert (Hgen : forall e, NotionRequest.try_block net n = Raise e ->
            (S n < maxRetries ->
             NotionRequest.retried_at_once
               (snd (NotionRequest.notionRequest net maxRetries)) n)%nat
            /\ (S n = maxRetries ->
                fst (NotionRequest.notionRequest net maxRetries) = Threw e
                /\ ends_with_request (snd (NotionRequest.notionRequest net maxRetries)) n)).
  { intros e He. pose proof (nr_raise net maxRetries n e He) as Hit. split.
    - intros Hlt. apply (nr_run_at_once _ _ _ _ _ Hrun); [assumption| |assumption].
      rewrite Hit. destruct (Nat.leb_spec (maxRetries - 1) n); [lia|reflexivity].
    - intros Hlast. apply (nr_run_thrown _ _ _ _ _ Hrun); [assumption|].
      rewrite Hit. destruct (Nat.leb_spec (maxRetries - 1) n); [reflexivity|lia]. }
  destruct (net n) as [r|message] eqn:Hnet.
  - intros Hst Hok. apply Hgen. unfold NotionRequest.try_block.
    apply Z.eqb_neq in Hst. now rewrite Hnet, Hst, Hok.
  - apply Hgen. unfold NotionRequest.try_block. now rewrite Hnet.
Qed.

(** X3, a run: a 404 is requested three times in a row. *)
Lemma notionRequest_retries_errors_witness :
  NotionRequest.notionRequest
    (Scenario.script []
       (Resolved (Scenario.api_failure 404 "Not Found" "Could not find page"
                    "object_not_found"))) 3
  = (Threw (Error "HTTP 404: Not Found"), [Request 0; Request 1; Request 2]).
Proof.
  assert (Hin : In (Request 2)
                  (snd (NotionRequest.notionRequest
                          (Scenario.script []
                             (Resolved (Scenario.api_failure 404 "Not Found"
                                          "Could not find page" "object_not_found")))
                          3))).
  { simpl. right; right; left. reflexivity. }
  destruct (notionRequest_retries_errors_at_once _ 3 2 Hin
              ltac:(simpl; lia) eq_refl) as [_ Hlast].
  destruct (Hlast eq_refl) as [Hc _].
  rewrite (surjective_pairing (NotionRequest.notionRequest _ _)), Hc. reflexivity.
Defined.

(** ** [retryWithBackoff] and [withRetry] *)

Lemma loop_ext (f g : nat -> step) (maxRetries : nat) :
  (forall n, f n = g n) ->
  forall fuel attempt,
    Retry.loop f maxRetries fuel attempt = Retry.loop g maxRetries fuel attempt.
Proof.
  intros Hfg. induction fuel as [|fuel IH]; intros attempt; [reflexivity|].
  simpl. rewrite Hfg, IH. reflexivity.
Qed.

Section RetryWithBackoffFacts.

Variable fn : RetryWithBackoff.thunk.
Variable random : nat -> Q.
Variable maxRetries : nat.

Lemma retryWithBackoff_run :
  run (RetryWithBackoff.iteration fn random maxRetries) maxRetries 0
    (fst (RetryWithBackoff.retryWithBackoff fn random maxRetries))
    (snd (RetryWithBackoff.retryWithBackoff fn random maxRetries)).
Proof. apply loop_run. lia. Qed.

Lemma withRetry_run :
  run (RetryWithBackoff.plain_iteration fn random maxRetries) maxRetries 0
    (fst (RetryWithBackoff.withRetry fn random maxRetries))
    (snd (RetryWithBackoff.withRetry fn random maxRetries)).
Proof. apply loop_run. lia. Qed.

End RetryWithBackoffFacts.

(** X4.  [retryWithBackoff] and [withRetry] retry rate limits only: a call
    of [fn] that rejects with an error whose [status] is not 429 (an API
    error, or a network failure, which has no status) ends the whole call
    at once, and the error is thrown unchanged. *)
Theorem retryWithBackoff_only_retries_429
    (fn : RetryWithBackoff.thunk) (random : nat -> Q) (maxRetries n : nat)
    (e : error) (retryAfter : option string) :
  fn n = RetryWithBackoff.RejectsWith e retryAfter ->
  error_status e <> Some 429 ->
  (In (Request n) (snd (RetryWithBackoff.retryWithBackoff fn random maxRetries)) ->
   fst (RetryWithBackoff.retryWithBackoff fn random maxRetries) = Threw e
   /\ ends_with_request (snd (RetryWithBackoff.retryWithBackoff fn random maxRetries)) n)
  /\ (In (Request n) (snd (RetryWithBackoff.withRetry fn random maxRetries)) ->
      fst (RetryWithBackoff.withRetry fn random maxRetries) = Threw e
      /\ ends_with_request (snd (RetryWithBackoff.withRetry fn random maxRetries)) n).
Proof.
  intros Hfn Hst.
  assert (Hnot : RetryWithBackoff.not_rate_limited e = true).
  { unfold RetryWithBackoff.not_rate_limited. destruct (error_status e) as [s|]; [|reflexivity].
    apply negb_true_iff, Z.eqb_neq. congruence. }
  split; intros Hin.
  - apply (run_thrown _ _ _ _ _ (retryWithBackoff_run fn random maxRetries)); [assumption|].
    unfold RetryWithBackoff.iteration. now rewrite Hfn, Hnot.
  - apply (run_thrown _ _ _ _ _ (withRetry_run fn random maxRetries)); [assumption|].
    unfold RetryWithBackoff.plain_iteration. now rewrite Hfn, Hnot.
Qed.

(** X4, a run: a 404 from the first call, with four attempts allowed. *)
Lemma retryWithBackoff_only_retries_429_witness :
  error_status Cases.not_found_error <> Some 429
  /\ RetryWithBackoff.retryWithBackoff
       (Cases.answers [] (RetryWithBackoff.RejectsWith Cases.not_found_error None))
       Scenario.centred 4
     = (Threw Cases.not_found_error, [Request 0]).
Proof.
  split; [discriminate|].
  destruct (retryWithBackoff_only_retries_429
              (Cases.answers [] (RetryWithBackoff.RejectsWith Cases.not_found_error None))
              Scenario.centred 4 0 Cases.not_found_error None eq_refl
              ltac:(discriminate)) as [H _].
  destruct (H ltac:(now left)) as [Hc _].
  rewrite (surjective_pairing (RetryWithBackoff.retryWithBackoff _ _ _)), Hc.
  reflexivity.
Defined.

(** X5.  A rejection with status 429 makes [retryWithBackoff] await a timer
    and call [fn] again while a further attempt is allowed; the delay before
    jitter is the [retry-after] value of the error times 1000 ms when it is
    present, [2^(attempt+1) * 1000] ms otherwise ([withRetry] always uses
    the latter).  From attempt [maxRetries - 1] the 429 error itself is
    thrown, after exactly [maxRetries] calls. *)
Theorem retryWithBackoff_rate_limited
    (fn : RetryWithBackoff.thunk) (random : nat -> Q) (maxRetries n : nat)
    (e : error) (retryAfter : option string) :
  fn n = RetryWithBackoff.RejectsWith e retryAfter ->
  error_status e = Some 429 ->
  (In (Request n) (snd (RetryWithBackoff.retryWithBackoff fn random maxRetries)) ->
   (S n < maxRetries ->
    retried_after (snd (RetryWithBackoff.retryWithBackoff fn random maxRetries)) n
      {| delay := match retryAfter with
                  | Some (String c s) => mul (parseInt (String c s)) (Finite 1000)
                  | _ => Finite (2 ^ (Z.of_nat n + 1) * 1000)
                  end;
         random_sample := Some (random n) |})%nat
   /\ (S n = maxRetries ->
       fst (RetryWithBackoff.retryWithBackoff fn random maxRetries) = Threw e
       /\ List.length
            (requests (snd (RetryWithBackoff.retryWithBackoff fn random maxRetries)))
          = maxRetries))
  /\ (In (Request n) (snd (RetryWithBackoff.withRetry fn random maxRetries)) ->
      (S n < maxRetries ->
       retried_after (snd (RetryWithBackoff.withRetry fn random maxRetries)) n
         {| delay := Finite (2 ^ (Z.of_nat n + 1) * 1000);
            random_sample := Some (random n) |})%nat
      /\ (S n = maxRetries ->
          fst (RetryWithBackoff.withRetry fn random maxRetries) = Threw e
          /\ List.length
               (requests (snd (RetryWithBackoff.withRetry fn random maxRetries)))
             = maxRetries)).
Proof.
  intros Hfn Hst.
  assert (Hnot : RetryWithBackoff.not_rate_limited e = false).
  { unfold RetryWithBackoff.not_rate_limited. now rewrite Hst. }
  assert (Hdelay : NotionClientWithRateLimiting.rate_limit_delay retryAfter n
                   = match retryAfter with
                     | Some (String c s) => mul (parseInt (String c s)) (Finite 1000)
                     | _ => Finite (2 ^ (Z.of_nat n + 1) * 1000)
                     end).
  { unfold NotionClientWithRateLimiting.rate_limit_delay.
    destruct retryAfter as [[|c s]|]; simpl; try apply backoff_value; reflexivity. }
  pose proof (retryWithBackoff_run fn random maxRetries) as HR.
  pose proof (withRetry_run fn random maxRetries) as HW.
  split; intros Hin; (split; [intros Hlt|intros Hlast]).
  - apply (run_retried _ _ _ _ _ HR); [assumption| |lia].
    unfold RetryWithBackoff.iteration. rewrite Hfn, Hnot, Hdelay. simpl.
    destruct (Nat.leb_spec (maxRetries - 1) n); [lia|reflexivity].
  - assert (Hit : RetryWithBackoff.iteration fn random maxRetries n = Throw e).
    { unfold RetryWithBackoff.iteration. rewrite Hfn, Hnot. simpl.
      destruct (Nat.leb_spec (maxRetries - 1) n); [reflexivity|lia]. }
    destruct (run_thrown _ _ _ _ _ HR n _ Hin Hit) as [Hc _].
    split; [assumption|].
    destruct (run_requests _ _ _ _ _ HR) as [k [Hk Hle]].
    apply In_Request_requests in Hin. rewrite Hk in Hin |- *.
    apply in_seq in Hin. rewrite length_seq. lia.
  - apply (run_retried _ _ _ _ _ HW); [assumption| |lia].
    unfold RetryWithBackoff.plain_iteration. rewrite Hfn, Hnot, backoff_value. simpl.
    destruct (Nat.leb_spec (maxRetries - 1) n); [lia|reflexivity].
  - assert (Hit : RetryWithBackoff.plain_iteration fn random maxRetries n = Throw e).
    { unfold RetryWithBackoff.plain_iteration. rewrite Hfn, Hnot. simpl.
      destruct (Nat.leb_spec (maxRetries - 1) n); [reflexivity|lia]. }
    destruct (run_thrown _ _ _ _ _ HW n _ Hin Hit) as [Hc _].
    split; [assumption|].
    destruct (run_requests _ _ _ _ _ HW) as [k [Hk Hle]].
    apply In_Request_requests in Hin. rewrite Hk in Hin |- *.
    apply in_seq in Hin. rewrite length_seq. lia.
Qed.

(** X5, a run: one rate limit with [retry-after: 7], then a page. *)
Lemma retryWithBackoff_rate_limited_witness :
  error_status Cases.rate_limit_error = Some 429
  /\ retried_after
       (snd (RetryWithBackoff.retryWithBackoff
               (Cases.answers
                  [RetryWithBackoff.RejectsWith Cases.rate_limit_error (Some "7")]
                  (RetryWithBackoff.Resolves Scenario.a_page))
               Scenario.centred 4))
       0 {| delay := Finite 7000; random_sample := Some (1 # 2)%Q |}.
Proof.
  split; [reflexivity|].
  destruct (retryWithBackoff_rate_limited
              (Cases.answers [RetryWithBackoff.RejectsWith Cases.rate_limit_error (Some "7")]
                 (RetryWithBackoff.Resolves Scenario.a_page))
              Scenario.centred 4 0 Cases.rate_limit_error (Some "7") eq_refl eq_refl)
    as [H _].
  destruct (H ltac:(now left)) as [Hretry _]. apply Hretry. lia.
Defined.

(** X6.  [withRetry] and [retryWithBackoff] are the same call when no
    rejection of [fn] carries a [retry-after] value: the same calls of [fn],
    the same timers, the same outcome. *)
Theorem withRetry_is_retryWithBackoff_without_header
    (fn : RetryWithBackoff.thunk) (random : nat -> Q) (maxRetries : nat) :
  (forall n e retryAfter,
     fn n = RetryWithBackoff.RejectsWith e retryAfter ->
     retryAfter = None \/ retryAfter = Some "") ->
  RetryWithBackoff.withRetry fn random maxRetries
  = RetryWithBackoff.retryWithBackoff fn random maxRetries.
Proof.
  intros Hfn. unfold RetryWithBackoff.withRetry, RetryWithBackoff.retryWithBackoff.
  apply loop_ext. intros n.
  unfold RetryWithBackoff.plain_iteration, RetryWithBackoff.iteration.
  destruct (fn n) as [v|e h] eqn:Hn; [reflexivity|].
  destruct (Hfn n e h Hn) as [-> | ->]; reflexivity.
Qed.

(** X6, a run of both on a thunk that is rate limited twice. *)
Lemma withRetry_is_retryWithBackoff_witness :
  RetryWithBackoff.withRetry
    (Cases.answers [RetryWithBackoff.RejectsWith Cases.rate_limit_error None;
                    RetryWithBackoff.RejectsWith Cases.rate_limit_error None]
       (RetryWithBackoff.Resolves Scenario.a_page))
    Scenario.centred 4
  = RetryWithBackoff.retryWithBackoff
      (Cases.answers [RetryWithBackoff.RejectsWith Cases.rate_limit_error None;
                      RetryWithBackoff.RejectsWith Cases.rate_limit_error None]
         (RetryWithBackoff.Resolves Scenario.a_page))
      Scenario.centred 4.
Proof.
  apply withRetry_is_retryWithBackoff_without_header.
  intros n e h. unfold Cases.answers.
  destruct n as [|[|[|n]]]; simpl; intros H; try discriminate H;
    injection H as _ <-; now left.
Defined.

(** ** More on the two clients *)

(** When every pass before the last asks for a retry, the loop reaches its
    last pass, having sent every request. *)
Lemma run_all_again (iteration : nat -> step) (maxRetries : nat) attempt c tr :
  run iteration maxRetries attempt c tr ->
  (attempt < maxRetries)%nat ->
  (forall n, (attempt <= n)%nat -> (S n < maxRetries)%nat ->
     exists t, iteration n = Again t) ->
  In (Request (maxRetries - 1)) tr.
Proof.
  induction 1 as [a Hge|a d Hlt Hit|a e Hlt Hit|a t c tr Hlt Hit Hrun IH];
    intros Ha Hall.
  - lia.
  - destruct (Nat.eq_dec (S a) maxRetries) as [Heq|Hne].
    + replace (maxRetries - 1)%nat with a by lia. now left.
    + destruct (Hall a ltac:(lia) ltac:(lia)) as [t Ht]. congruence.
  - destruct (Nat.eq_dec (S a) maxRetries) as [Heq|Hne].
    + replace (maxRetries - 1)%nat with a by lia. now left.
    + destruct (Hall a ltac:(lia) ltac:(lia)) as [t Ht]. congruence.
  - destruct (Nat.eq_dec (S a) maxRetries) as [Heq|Hne].
    + replace (maxRetries - 1)%nat with a by lia. now left.
    + right; right. apply IH; [lia|]. intros n Hn Hlt'. apply Hall; lia.
Qed.

(** X7.  Under a persistent rate limit the two clients do not end with the
    loop's own [Max retries exceeded]: when every request is answered by a
    429, all [maxRetries] requests are sent and the last 429 is read like
    any error response, so the caller gets the API error built from its
    body. *)
Theorem persistent_rate_limit_surfaces_as_api_error
    (net : network) (random : nat -> Q) (maxRetries : nat)
    (r : Response) (data : json) :
  (0 < maxRetries)%nat ->
  (forall n, (n < maxRetries)%nat -> exists r', net n = Resolved r' /\ status r' = 429) ->
  net (maxRetries - 1)%nat = Resolved r -> body r = Json data -> data <> JNull ->
  (fst (E.executeWithRetry net random maxRetries)
   = Threw (Error ("Notion API error: " ++ upstream_message data r))
   /\ List.length (requests (snd (E.executeWithRetry net random maxRetries)))
      = maxRetries)
  /\ (fst (C.request net maxRetries)
      = Threw (C.api_error (upstream_message data r) data r)
      /\ List.length (requests (snd (C.request net maxRetries))) = maxRetries).
Proof.
  intros Hpos Hall Hlast Hbody Hdata.
  destruct (Hall (maxRetries - 1)%nat ltac:(lia)) as [r' [Hr' Hst]].
  assert (r' = r) by congruence. subst r'.
  assert (Hok : ok r = false) by (unfold ok; now rewrite Hst).
  assert (Hcount : forall (it : nat -> step) c tr,
            run it maxRetries 0 c tr -> In (Request (maxRetries - 1)) tr ->
            List.length (requests tr) = maxRetries).
  { intros it c tr Hrun Hin.
    destruct (run_requests _ _ _ _ _ Hrun) as [k [Hk Hle]].
    apply In_Request_requests in Hin. rewrite Hk in Hin |- *.
    apply in_seq in Hin. rewrite length_seq. lia. }
  split.
  - pose proof (executeWithRetry_run net random maxRetries) as Hrun.
    assert (Hin : In (Request (maxRetries - 1))
                    (snd (E.executeWithRetry net random maxRetries))).
    { apply (run_all_again _ _ _ _ _ Hrun Hpos). intros n _ Hn.
      destruct (Hall n ltac:(lia)) as [rn [Hrn Hsn]].
      eexists. apply (E_rate_limited net random maxRetries n rn Hrn Hsn). lia. }
    assert (Hit : E.iteration net random maxRetries (maxRetries - 1)
                  = Throw (Error ("Notion API error: " ++ upstream_message data r))).
    { assert (Hcatch : forall m,
        E.catch_block maxRetries (maxRetries - 1) (Error ("Notion API error: " ++ m))
        = Throw (Error ("Notion API error: " ++ m))).
      { intros m. unfold E.catch_block.
        change (error_message (Error ("Notion API error: " ++ m)))
          with ("Notion API error: " ++ m).
        now rewrite includes_marker, andb_false_r. }
      unfold E.iteration, E.try_block, E.read_response.
      rewrite Hlast, Hst, Z.eqb_refl. cbv zeta.
      destruct (Nat.ltb_spec (maxRetries - 1) (maxRetries - 1)); [lia|].
      rewrite Hbody, Hok.
      destruct data; try congruence; apply Hcatch. }
    split; [exact (proj1 (run_thrown _ _ _ _ _ Hrun _ _ Hin Hit))|].
    exact (Hcount _ _ _ Hrun Hin).
  - pose proof (request_run net maxRetries) as Hrun.
    assert (Hin : In (Request (maxRetries - 1)) (snd (C.request net maxRetries))).
    { apply (run_all_again _ _ _ _ _ Hrun Hpos). intros n _ Hn.
      destruct (Hall n ltac:(lia)) as [rn [Hrn Hsn]].
      eexists. apply (C_rate_limited net maxRetries n rn Hrn Hsn). lia. }
    assert (Hit : C.iteration net maxRetries (maxRetries - 1)
                  = Throw (C.api_error (upstream_message data r) data r)).
    { assert (Hcatch :
        C.catch_block maxRetries (maxRetries - 1)
          (C.api_error (upstream_message data r) data r)
        = Throw (C.api_error (upstream_message data r) data r)).
      { unfold C.catch_block.
        assert (Hno : C.no_status (C.api_error (upstream_message data r) data r) = false).
        { unfold C.no_status, C.api_error. simpl. now rewrite Hst. }
        now rewrite Hno, andb_false_r. }
      unfold C.iteration, C.try_block, C.read_response.
      rewrite Hlast, Hst, Z.eqb_refl. cbv zeta.
      destruct (Nat.ltb_spec (maxRetries - 1) (maxRetries - 1)); [lia|].
      rewrite Hbody, Hok.
      destruct data; try congruence; apply Hcatch. }
    split; [exact (proj1 (run_thrown _ _ _ _ _ Hrun _ _ Hin Hit))|].
    exact (Hcount _ _ _ Hrun Hin).
Qed.

(** X7, a run: three 429 responses and [maxRetries = 3]. *)
Lemma persistent_rate_limit_witness :
  (0 < 3)%nat
  /\ E.executeWithRetry (Scenario.script [] (Resolved (Scenario.rate_limited None)))
       Scenario.centred 3
     = (Threw (Error "Notion API error: Rate limited"),
        [Request 0; Sleep {| delay := Finite 2000; random_sample := Some (1 # 2)%Q |};
         Request 1; Sleep {| delay := Finite 4000; random_sample := Some (1 # 2)%Q |};
         Request 2]).
Proof.
  split; [lia|].
  destruct (persistent_rate_limit_surfaces_as_api_error
              (Scenario.script [] (Resolved (Scenario.rate_limited None)))
              Scenario.centred 3 (Scenario.rate_limited None)
              (JObject [("message", JString "Rate limited");
                        ("code", JString "rate_limited")])
              ltac:(lia)) as [[Hc _] _].
  - intros n _. exists (Scenario.rate_limited None).
    split; [|reflexivity]. unfold Scenario.script. now destruct n.
  - reflexivity.
  - reflexivity.
  - discriminate.
  - rewrite (surjective_pairing (E.executeWithRetry _ _ _)), Hc. reflexivity.
Defined.

(** X8.  The two clients read the body inside the [try] block, before they
    test [response.ok]: a response other than a 429 whose body cannot be
    read as JSON is handled like a network failure whatever its status, a
    200 included.  It is retried after [2^(attempt+1) * 1000] ms while a
    further attempt is allowed, and the error of [response.json()] is what
    surfaces from the last attempt. *)
Theorem unreadable_body_is_retried
    (net : network) (random : nat -> Q) (maxRetries n : nat)
    (r : Response) (message : string) :
  net n = Resolved r -> status r <> 429 -> body r = Unreadable message ->
  (includes "Notion API error" message = false ->
   In (Request n) (snd (E.executeWithRetry net random maxRetries)) ->
   (S n < maxRetries ->
    retried_after (snd (E.executeWithRetry net random maxRetries)) n
      {| delay := Finite (2 ^ (Z.of_nat n + 1) * 1000); random_sample := None |})%nat
   /\ (S n = maxRetries ->
       fst (E.executeWithRetry net random maxRetries) = Threw (Error message)))
  /\ (In (Request n) (snd (C.request net maxRetries)) ->
      (S n < maxRetries ->
       retried_after (snd (C.request net maxRetries)) n
         {| delay := Finite (2 ^ (Z.of_nat n + 1) * 1000); random_sample := None |})%nat
      /\ (S n = maxRetries ->
          fst (C.request net maxRetries) = Threw (Error message))).
Proof.
  intros Hnet Hst Hbody. apply Z.eqb_neq in Hst. rewrite <- backoff_value.
  assert (HE : includes "Notion API error" message = false ->
               E.iteration net random maxRetries n
               = if (n <? maxRetries - 1)%nat
                 then Again {| delay := backoff n; random_sample := None |}
                 else Throw (Error message)).
  { intros Hm. unfold E.iteration, E.try_block, E.read_response, E.catch_block.
    rewrite Hnet, Hst, Hbody. simpl. rewrite Hm.
    now destruct (n <? maxRetries - 1)%nat. }
  assert (HC : C.iteration net maxRetries n
               = if (n <? maxRetries - 1)%nat
                 then Again {| delay := backoff n; random_sample := None |}
                 else Throw (Error message)).
  { unfold C.iteration, C.try_block, C.read_response, C.catch_block.
    rewrite Hnet, Hst, Hbody. simpl. now destruct (n <? maxRetries - 1)%nat. }
  split; [intros Hm Hin|intros Hin]; (split; [intros Hlt|intros Hlast]).
  - apply (run_retried _ _ _ _ _ (executeWithRetry_run net random maxRetries));
      [assumption| |lia].
    rewrite (HE Hm). destruct (Nat.ltb_spec n (maxRetries - 1)); [reflexivity|lia].
  - apply (run_thrown _ _ _ _ _ (executeWithRetry_run net random maxRetries) n);
      [assumption|].
    rewrite (HE Hm). destruct (Nat.ltb_spec n (maxRetries - 1)); [lia|reflexivity].
  - apply (run_retried _ _ _ _ _ (request_run net maxRetries)); [assumption| |lia].
    rewrite HC. destruct (Nat.ltb_spec n (maxRetries - 1)); [reflexivity|lia].
  - apply (run_thrown _ _ _ _ _ (request_run net maxRetries) n); [assumption|].
    rewrite HC. destruct (Nat.ltb_spec n (maxRetries - 1)); [lia|reflexivity].
Qed.

(** X8, a run: a 200 whose body is cut short, then the page. *)
Lemma unreadable_body_witness :
  200 <> 429
  /\ retried_after
       (snd (C.request
               (Scenario.script [Resolved (Scenario.html_failure 200 "OK")]
                  (Resolved (Scenario.success Scenario.a_page)))
               3))
       0 {| delay := Finite 2000; random_sample := None |}.
Proof.
  split; [lia|].
  destruct (unreadable_body_is_retried
              (Scenario.script [Resolved (Scenario.html_failure 200 "OK")]
                 (Resolved (Scenario.success Scenario.a_page)))
              Scenario.centred 3 0 (Scenario.html_failure 200 "OK")
              "Unexpected token < in JSON at position 0"
              eq_refl ltac:(simpl; lia) eq_refl) as [_ HC].
  destruct (HC ltac:(now left)) as [Hretry _]. apply Hretry. lia.
Defined.

(** ** More on the pagination walkers *)

(** X9.  [paginateQuery] and [getAllDatabaseRows] are the same walk: against
    every upstream they send the same requests and end the same way. *)
Theorem paginateQuery_same_walk_as_getAllDatabaseRows (srv : server) :
  paginateQuery srv = getAllDatabaseRows srv.
Proof. apply paginateQuery_limit_agrees. lia. Qed.

(** X10.  Against every upstream a walk of [getAllDatabaseRows] or of
    [paginateQuery] ends after at most 100 requests; the first request
    carries no cursor and every later one a cursor that is a non-empty
    string other than "null". *)
Theorem validating_walkers_send_usable_cursors (srv : server) :
  fst (getAllDatabaseRows srv) <> OutOfFuel
  /\ (List.length (snd (getAllDatabaseRows srv)) <= 100)%nat
  /\ (exists rest, snd (getAllDatabaseRows srv) = Undefined :: rest
                   /\ Forall (fun c => exists s, c = Cursor s /\ s <> "" /\ s <> "null")
                        rest)
  /\ fst (paginateQuery srv) <> OutOfFuel
  /\ (List.length (snd (paginateQuery srv)) <= 100)%nat
  /\ (exists rest, snd (paginateQuery srv) = Undefined :: rest
                   /\ Forall (fun c => exists s, c = Cursor s /\ s <> "" /\ s <> "null")
                        rest).
Proof.
  rewrite paginateQuery_agrees.
  assert (H : fst (getAllDatabaseRows srv) <> OutOfFuel
              /\ (List.length (snd (getAllDatabaseRows srv)) <= 100)%nat
              /\ (exists rest, snd (getAllDatabaseRows srv) = Undefined :: rest
                    /\ Forall (fun c => exists s, c = Cursor s /\ s <> "" /\ s <> "null")
                         rest)).
  { split; [|split].
    - assert (Hres := G_result srv 100 101 [] Undefined 0 ltac:(lia)).
      fold (getAllDatabaseRows_limit srv 100) in Hres.
      fold (getAllDatabaseRows srv) in Hres.
      intros Hout. now rewrite Hout in Hres.
    - assert (Hlen := G_length srv 100 101 [] Undefined 0).
      fold (getAllDatabaseRows_limit srv 100) in Hlen.
      fold (getAllDatabaseRows srv) in Hlen.
      change (Nat.max 1 (100 - 0)) with 100%nat in Hlen. exact Hlen.
    - destruct (G_cursors srv 100 100 [] Undefined 0) as [rest [Htr Hall]].
      fold (getAllDatabaseRows_limit srv 100) in Htr.
      fold (getAllDatabaseRows srv) in Htr.
      exists rest. split; [exact Htr|].
      eapply Forall_impl; [|exact Hall].
      intros c [Ht Hn]. destruct c as [| |s]; try discriminate.
      exists s. split; [reflexivity|]. split.
      + intros ->. discriminate.
      + intros ->. discriminate. }
  destruct H as [H1 [H2 H3]]. repeat split; assumption.
Qed.

(** X11.  The validating walkers stop at the first page that does not name
    a next page: a page that reports [has_more: false], or [has_more: true]
    with a cursor that is absent, [null], empty or the string "null", ends
    the walk without an error, and no request follows it. *)
Theorem validating_walkers_stop_at_last_page (srv : server) (i : nat)
    (c : cursor_value) (p : page) :
  nth_error (snd (getAllDatabaseRows srv)) i = Some c ->
  srv i c = Page p ->
  (has_more p = false \/ next_cursor p = Undefined \/ next_cursor p = Null
   \/ next_cursor p = Cursor "" \/ next_cursor p = Cursor "null") ->
  List.length (snd (getAllDatabaseRows srv)) = S i
  /\ fst (getAllDatabaseRows srv)
     = Returned (flat_map results (received srv 0 (snd (getAllDatabaseRows srv))))
  /\ paginateQuery srv = getAllDatabaseRows srv.
Proof.
  intros Hnth Hsrv Hlast.
  assert (Hv : valid_cursor p = false).
  { unfold valid_cursor.
    destruct Hlast as [ -> | [ -> | [ -> | [ -> | -> ] ] ] ];
      try reflexivity; now rewrite ?andb_false_r. }
  assert (Hstop := G_stops srv 100 101 [] Undefined 0 i c p Hnth Hsrv Hv).
  assert (Hres := G_result srv 100 101 [] Undefined 0 ltac:(lia)).
  fold (getAllDatabaseRows_limit srv 100) in Hstop, Hres.
  fold (getAllDatabaseRows srv) in Hstop, Hres.
  destruct Hstop as [Hlen [rows Hret]].
  split; [exact Hlen|]. split; [|apply paginateQuery_agrees].
  rewrite Hret in Hres |- *. cbn beta iota in Hres.
  rewrite app_nil_l in Hres. now rewrite <- Hres.
Qed.

(** X11, a run: a first page with [next_cursor: "null"]. *)
Lemma validating_walkers_stop_witness :
  getAllDatabaseRows (serve Listings.unchecked) = (Returned [JNumber 1], [Undefined]).
Proof.
  destruct (validating_walkers_stop_at_last_page (serve Listings.unchecked) 0 Undefined
              (Scenario.rows [1] true (Cursor "null")) eq_refl eq_refl
              ltac:(do 4 right; reflexivity)) as [Hlen [Hret _]].
  rewrite (surjective_pairing (getAllDatabaseRows (serve Listings.unchecked))), Hret.
  reflexivity.
Defined.

(** X12.  A listing served page by page is walked to its end by the
    validating walkers when it has at most 100 pages, each page but the
    last names the next one with a valid cursor and the last one does not:
    the rows of all the pages are returned in order, after one request per
    page, each carrying the cursor of the page before. *)
Theorem validating_walkers_walk_a_complete_listing (pages : list page) :
  pages <> [] -> (List.length pages <= 100)%nat ->
  Forall (fun p => valid_cursor p = true) (removelast pages) ->
  valid_cursor (last pages (Scenario.rows [] false Null)) = false ->
  getAllDatabaseRows (serve pages)
  = (Returned (flat_map results pages), Undefined :: map next_cursor (removelast pages))
  /\ paginateQuery (serve pages)
     = (Returned (flat_map results pages), Undefined :: map next_cursor (removelast pages)).
Proof.
  intros Hne Hlen Hall Hlast. rewrite paginateQuery_agrees.
  assert (H := G_listing 100 pages pages [] [] Undefined 101 eq_refl Hne Hlen
                 ltac:(lia) Hall Hlast).
  split; exact H.
Qed.

(** X12, a run: the listing of two pages. *)
Lemma validating_walkers_complete_listing_witness :
  getAllDatabaseRows
    (serve [Scenario.rows [1; 2] true (Cursor "c1"); Scenario.rows [3] false Undefined])
  = (Returned [JNumber 1; JNumber 2; JNumber 3], [Undefined; Cursor "c1"]).
Proof.
  exact (proj1 (validating_walkers_walk_a_complete_listing
                  [Scenario.rows [1; 2] true (Cursor "c1");
                   Scenario.rows [3] false Undefined]
                  ltac:(discriminate) ltac:(simpl; lia)
                  ltac:(repeat constructor) eq_refl)).
Defined.

(** *** [getFullProperty] of the pain points *)

Lemma getFullProperty_listing (pages : list page) :
  forall (suffix pre : list page) (acc : list json) (cursor : cursor_value) (fuel : nat),
    pages = (pre ++ suffix)%list -> suffix <> [] ->
    (List.length suffix <= fuel)%nat ->
    Forall (fun p => has_more p = true) (removelast suffix) ->
    has_more (last suffix (Scenario.rows [] false Null)) = false ->
    getFullProperty_loop (serve pages) fuel acc cursor (List.length pre)
    = (Returned (acc ++ flat_map results suffix)%list,
       cursor :: map next_cursor (removelast suffix)).
Proof.
  induction suffix as [|p rest IH]; intros pre acc cursor fuel Hpages Hne Hfuel Hall Hlast;
    [congruence|].
  destruct fuel as [|fuel]; [simpl in Hfuel; lia|].
  assert (Hnth : nth_error pages (List.length pre) = Some p).
  { rewrite Hpages, nth_error_app2, Nat.sub_diag by lia. reflexivity. }
  cbn [getFullProperty_loop]. unfold serve at 1. rewrite Hnth. cbv zeta.
  destruct rest as [|q rest].
  - simpl in Hlast. rewrite Hlast. simpl. now rewrite app_nil_r.
  - assert (Hm : has_more p = true) by (now inversion Hall).
    rewrite Hm. cbn [negb].
    specialize (IH (pre ++ [p])%list (acc ++ results p)%list (next_cursor p) fuel).
    rewrite length_app, Nat.add_1_r in IH.
    rewrite IH.
    + change (flat_map results (p :: q :: rest))
        with (results p ++ flat_map results (q :: rest))%list.
      rewrite app_assoc. reflexivity.
    + now rewrite <- app_assoc.
    + discriminate.
    + simpl in Hfuel. simpl. lia.
    + now inversion Hall.
    + exact Hlast.
Qed.

(** X13.  [getFullProperty] of the pain points follows [has_more] alone: a
    listing of any length whose pages report [has_more: true] up to the
    last one is walked to its end, whatever its cursors are, and each
    [next_cursor] is sent as it came, the string "null" and an absent
    cursor included. *)
Theorem getFullProperty_follows_has_more (pages : list page) :
  pages <> [] ->
  Forall (fun p => has_more p = true) (removelast pages) ->
  has_more (last pages (Scenario.rows [] false Null)) = false ->
  getFullProperty (serve pages) (List.length pages)
  = (Returned (flat_map results pages), Undefined :: map next_cursor (removelast pages)).
Proof.
  intros Hne Hall Hlast.
  exact (getFullProperty_listing pages pages [] [] Undefined (List.length pages)
           eq_refl Hne (Nat.le_refl _) Hall Hlast).
Qed.

(** X13, a run: cursors "null" and absent are sent on. *)
Lemma getFullProperty_follows_has_more_witness :
  getFullProperty (serve Listings.unchecked) 3
  = (Returned [JNumber 1; JNumber 2; JNumber 3], [Undefined; Cursor "null"; Undefined]).
Proof.
  exact (getFullProperty_follows_has_more Listings.unchecked
           ltac:(discriminate) ltac:(repeat constructor) eq_refl).
Defined.

(** X14.  [getFullProperty] of the pain points has no safety limit: against
    an upstream whose every page reports [has_more: true] it never returns,
    however many passes it is given. *)
Theorem getFullProperty_has_no_limit (srv : server) :
  (forall n c, exists p, srv n c = Page p /\ has_more p = true) ->
  forall fuel, fst (getFullProperty srv fuel) = OutOfFuel
               /\ List.length (snd (getFullProperty srv fuel)) = fuel.
Proof.
  intros Hsrv fuel. unfold getFullProperty.
  generalize (@nil json) Undefined 0%nat.
  induction fuel as [|fuel IH]; intros acc cursor sent; [split; reflexivity|].
  simpl. destruct (Hsrv sent cursor) as [p [-> Hm]]. rewrite Hm. simpl.
  specialize (IH (acc ++ results p)%list (next_cursor p) (S sent)).
  destruct (getFullProperty_loop srv fuel (acc ++ results p) (next_cursor p) (S sent))
    as [c tr]. simpl in *. destruct IH as [-> ->]. split; reflexivity.
Qed.

(** X14, a run: 250 requests to an upstream that never runs out of pages. *)
Lemma getFullProperty_has_no_limit_witness :
  fst (getFullProperty Scenario.endless 250) = OutOfFuel
  /\ List.length (snd (getFullProperty Scenario.endless 250)) = 250%nat.
Proof.
  apply getFullProperty_has_no_limit.
  intros n c. exists (Scenario.rows [Z.of_nat n] true (Cursor "next")).
  split; reflexivity.
Defined.

(** *** [getFullProperty] of the implementation guide *)

Section PropertyItemsFacts.

Variable srv : PropertyItems.server.

Lemma guide_getFullProperty_result fuel acc cursor sent :
  match fst (PropertyItems.getFullProperty_loop srv fuel acc cursor sent) with
  | Returned all =>
      all = (acc ++ flat_map PropertyItems.items
                      (PropertyItems.received srv sent
                         (snd (PropertyItems.getFullProperty_loop srv fuel acc cursor sent))))%list
  | Threw e => exists n c, srv n c = PropertyItems.Failure e
  | OutOfFuel =>
      List.length (snd (PropertyItems.getFullProperty_loop srv fuel acc cursor sent)) = fuel
  end.
Proof.
  revert acc cursor sent; induction fuel as [|fuel IH]; intros acc cursor sent;
    [reflexivity|].
  simpl. destruct (srv sent cursor) as [r|e] eqn:Hsrv.
  - destruct (PropertyItems.has_more r).
    + destruct (truthy_cursor (PropertyItems.next_cursor r)).
      * specialize (IH (acc ++ PropertyItems.items r)%list
                      (PropertyItems.next_cursor r) (S sent)).
        destruct (PropertyItems.getFullProperty_loop srv fuel
                    (acc ++ PropertyItems.items r) (PropertyItems.next_cursor r) (S sent))
          as [c tr]. simpl in *. rewrite Hsrv.
        destruct c; [|assumption|now rewrite IH]. simpl. now rewrite app_assoc.
      * simpl. rewrite Hsrv. simpl. now rewrite app_nil_r.
    + simpl. rewrite Hsrv. simpl. now rewrite app_nil_r.
  - simpl. now exists sent, cursor.
Qed.

Lemma guide_getFullProperty_stops fuel acc cursor sent i c r :
  nth_error (snd (PropertyItems.getFullProperty_loop srv fuel acc cursor sent)) i = Some c ->
  srv (sent + i)%nat c = PropertyItems.Answer r ->
  PropertyItems.has_more r = false
  \/ truthy_cursor (PropertyItems.next_cursor r) = false ->
  List.length (snd (PropertyItems.getFullProperty_loop srv fuel acc cursor sent)) = S i
  /\ exists all, fst (PropertyItems.getFullProperty_loop srv fuel acc cursor sent)
                 = Returned all.
Proof.
  revert acc cursor sent i; induction fuel as [|fuel IH];
    intros acc cursor sent i Hnth Hsrv Hlast.
  - destruct i; discriminate.
  - simpl in *. destruct (srv sent cursor) as [q|e] eqn:Hq.
    + destruct (PropertyItems.has_more q) eqn:Hmq.
      * destruct (truthy_cursor (PropertyItems.next_cursor q)) eqn:Htq.
        -- specialize (IH (acc ++ PropertyItems.items q)%list
                         (PropertyItems.next_cursor q) (S sent)).
           destruct (PropertyItems.getFullProperty_loop srv fuel
                       (acc ++ PropertyItems.items q) (PropertyItems.next_cursor q)
                       (S sent)) as [c' tr]. simpl in *.
           destruct i as [|i].
           ++ injection Hnth as <-. rewrite Nat.add_0_r, Hq in Hsrv.
              injection Hsrv as <-. destruct Hlast; congruence.
           ++ simpl in Hnth. rewrite <- Nat.add_succ_comm in Hsrv.
              destruct (IH i Hnth Hsrv Hlast) as [Hlen Hret].
              split; [now rewrite Hlen|assumption].
        -- destruct i as [|[|i]]; try discriminate. simpl. eauto.
      * destruct i as [|[|i]]; try discriminate. simpl. eauto.
    + destruct i as [|[|i]]; try discriminate.
      injection Hnth as <-. rewrite Nat.add_0_r, Hq in Hsrv. discriminate.
Qed.

End PropertyItemsFacts.

(** X15.  [getFullProperty] of the implementation guide collects
    [response.results], or the response itself when it has none, in the
    order of arrival, and it stops without an error at the first response
    that reports [has_more: false] or that names no next cursor (absent,
    [null] or empty); the string "null" is not such a cursor. *)
Theorem guide_getFullProperty_collects_and_stops
    (srv : PropertyItems.server) (fuel i : nat) (c : cursor_value)
    (r : PropertyItems.response) :
  nth_error (snd (PropertyItems.getFullProperty srv fuel)) i = Some c ->
  srv i c = PropertyItems.Answer r ->
  PropertyItems.has_more r = false
  \/ PropertyItems.next_cursor r = Undefined \/ PropertyItems.next_cursor r = Null
  \/ PropertyItems.next_cursor r = Cursor "" ->
  List.length (snd (PropertyItems.getFullProperty srv fuel)) = S i
  /\ fst (PropertyItems.getFullProperty srv fuel)
     = Returned (flat_map PropertyItems.items
                   (PropertyItems.received srv 0
                      (snd (PropertyItems.getFullProperty srv fuel)))).
Proof.
  intros Hnth Hsrv Hlast. unfold PropertyItems.getFullProperty in *.
  assert (Hl : PropertyItems.has_more r = false
               \/ truthy_cursor (PropertyItems.next_cursor r) = false).
  { destruct Hlast as [H|[H|[H|H]]]; [now left|right; now rewrite H..]. }
  destruct (guide_getFullProperty_stops srv fuel [] Undefined 0 i c r Hnth Hsrv Hl)
    as [Hlen [all Hret]].
  split; [exact Hlen|].
  pose proof (guide_getFullProperty_result srv fuel [] Undefined 0) as Hres.
  rewrite Hret in Hres |- *. simpl in Hres. now rewrite Hres.
Qed.

(** X15, two runs: a property with a single item, and a page that reports
    more items without a cursor. *)
Lemma guide_getFullProperty_witness :
  PropertyItems.getFullProperty (fun _ _ => PropertyItems.Answer Listings.single_item) 5
  = (Returned [PropertyItems.self Listings.single_item], [Undefined])
  /\ List.length
       (snd (PropertyItems.getFullProperty
               (fun _ _ => PropertyItems.Answer Listings.more_without_cursor) 5))
     = 1%nat.
Proof.
  split.
  - destruct (guide_getFullProperty_collects_and_stops
                (fun _ _ => PropertyItems.Answer Listings.single_item) 5 0 Undefined
                Listings.single_item eq_refl eq_refl ltac:(now left)) as [_ Hret].
    rewrite (surjective_pairing (PropertyItems.getFullProperty _ _)), Hret.
    reflexivity.
  - exact (proj1 (guide_getFullProperty_collects_and_stops
                    (fun _ _ => PropertyItems.Answer Listings.more_without_cursor)
                    5 0 Undefined Listings.more_without_cursor eq_refl eq_refl
                    ltac:(right; right; now left))).
Defined.

(** ** [fetchAllBlocks] *)

Section BlocksFacts.

Import Blocks.

Variable srv : server.

Local Abbreviation fetch_ends := (Trees.fetch_ends srv).

Lemma for_each_ends (k : nat)
    (fetch : string -> nat -> completion (list fetched) * list string) :
  (forall child sent, fetch_ends k sent (fetch child sent)) ->
  forall blocks sent,
    fetch_ends (S k) sent (for_each fetch blocks sent)
    /\ forall forest, fst (for_each fetch blocks sent) = Returned forest ->
                      map Trees.block_of forest = blocks.
Proof.
  intros Hfetch. induction blocks as [|b rest IH]; intros sent.
  - split; [constructor|]. intros forest H. now injection H as <-.
  - cbn [for_each]. destruct (has_children b) eqn:Hb.
    + pose proof (Hfetch (id b) sent) as Hhere. unfold Trees.fetch_ends in Hhere.
      destruct (fetch (id b) sent) as [c tr]. cbn [fst snd] in Hhere.
      destruct c as [children|e|].
      * destruct (IH (sent + List.length tr)%nat) as [Hrest Hmap].
        unfold Trees.fetch_ends in Hrest.
        destruct (for_each fetch rest (sent + List.length tr)) as [c' tr'].
        cbn [fst snd] in Hrest, Hmap. destruct c' as [done|e|].
        -- split.
           ++ unfold Trees.fetch_ends. cbn [fst cut_at]. constructor; [now split|exact Hrest].
           ++ intros forest H. injection H as <-. cbn [map Trees.block_of].
              now rewrite (Hmap done eq_refl).
        -- split; [|discriminate]. unfold Trees.fetch_ends. cbn [fst snd].
           destruct Hrest as [before [b' [-> Hfail]]].
           exists (tr ++ before)%list, b'. split; [now rewrite app_assoc|].
           now rewrite length_app, Nat.add_assoc.
        -- destruct Hrest.
      * split; [exact Hhere|discriminate].
      * destruct Hhere.
    + destruct (IH sent) as [Hrest Hmap]. unfold Trees.fetch_ends in Hrest.
      destruct (for_each fetch rest sent) as [c' tr']. cbn [fst snd] in Hrest, Hmap.
      destruct c' as [done|e|].
      * split.
        -- unfold Trees.fetch_ends. cbn [fst cut_at]. constructor; [exact Hb|exact Hrest].
        -- intros forest H. injection H as <-. cbn [map Trees.block_of].
           now rewrite (Hmap done eq_refl).
      * split; [exact Hrest|discriminate].
      * destruct Hrest.
Qed.

Lemma fetchAllBlocks_from_ends :
  forall fuel blockId depth maxDepth sent,
    (maxDepth - depth < fuel)%nat ->
    fetch_ends (maxDepth - depth) sent
      (fetchAllBlocks_from srv fuel blockId depth maxDepth sent)
    /\ forall forest,
         fst (fetchAllBlocks_from srv fuel blockId depth maxDepth sent) = Returned forest ->
         (depth < maxDepth)%nat ->
         srv sent blockId = Children (map Trees.block_of forest).
Proof.
  induction fuel as [|fuel IH]; intros blockId depth maxDepth sent Hfuel; [lia|].
  cbn [fetchAllBlocks_from]. destruct (Nat.leb_spec maxDepth depth) as [Hle|Hlt].
  - split; [|intros; lia]. unfold Trees.fetch_ends. cbn [fst].
    replace (maxDepth - depth)%nat with 0%nat by lia. reflexivity.
  - destruct (srv sent blockId) as [blocks|e] eqn:Hsrv.
    + assert (Hfetch : forall child sent',
                 fetch_ends (maxDepth - (depth + 1)) sent'
                   (fetchAllBlocks_from srv fuel child (depth + 1) maxDepth sent')).
      { intros child sent'. apply IH. lia. }
      destruct (for_each_ends _ _ Hfetch blocks (S sent)) as [Hends Hmap].
      unfold Trees.fetch_ends in Hends.
      destruct (for_each _ blocks (S sent)) as [c tr]. cbn [fst snd] in Hends, Hmap.
      replace (maxDepth - depth)%nat with (S (maxDepth - (depth + 1))) by lia.
      split.
      * unfold Trees.fetch_ends. cbn [fst snd]. destruct c as [forest|e|]; [exact Hends| |exact Hends].
        destruct Hends as [before [b [-> Hfail]]].
        exists (blockId :: before), b. split; [reflexivity|].
        cbn [Datatypes.length]. now rewrite <- Nat.add_succ_comm.
      * cbn [fst]. intros forest -> _. now rewrite (Hmap forest eq_refl).
    + split; [|discriminate]. unfold Trees.fetch_ends. cbn [fst snd].
      exists [], blockId. split; [reflexivity|]. now rewrite Nat.add_0_r.
Qed.

End BlocksFacts.


(** ** [validateNotionId] *)

Section ValidationFacts.

Import Validation.

Lemma is_hex_not_dash (c : ascii) : is_hex c = true -> Ascii.eqb c "-" = false.
Proof.
  intros Hc. destruct (Ascii.eqb_spec c "-") as [->|]; [|reflexivity].
  vm_compute in Hc. discriminate.
Qed.

Lemma dash_hex (c : ascii) (rest : string) :
  is_hex c = true -> dash (String c rest) = String c rest.
Proof.
  intros Hc. destruct c as [[] [] [] [] [] [] [] []]; try reflexivity.
  vm_compute in Hc. discriminate.
Qed.

Lemma hex_S (n : nat) (s : string) :
  hex (S n) s
  = match s with
    | String c rest => if is_hex c then hex n rest else None
    | EmptyString => None
    end.
Proof. reflexivity. Qed.

Lemma hex_dash (n : nat) (s r : string) : hex (S n) s = Some r -> dash s = s.
Proof.
  rewrite hex_S. destruct s as [|c rest]; [discriminate|].
  destruct (is_hex c) eqn:Hc; [|discriminate]. intros _. now apply dash_hex.
Qed.

Lemma hex_split (n m : nat) :
  forall s, hex (n + m) s
            = match hex n s with
              | Some r => hex m r
              | None => None
              end.
Proof.
  induction n as [|n IH]; intros s; [reflexivity|].
  change (S n + m)%nat with (S (n + m)). rewrite !hex_S.
  destruct s as [|c rest]; [reflexivity|]. destruct (is_hex c); [apply IH|reflexivity].
Qed.

Lemma compact_dash (r : string) : compact (dash r) = compact r.
Proof.
  destruct r as [|c rest]; [reflexivity|].
  destruct c as [[] [] [] [] [] [] [] []]; reflexivity.
Qed.

Lemma hex_compact (n m : nat) :
  forall s r, hex n s = Some r -> hex (n + m) (compact s) = hex m (compact r).
Proof.
  induction n as [|n IH]; intros s r H.
  - injection H as <-. reflexivity.
  - rewrite hex_S in H. destruct s as [|c rest]; [discriminate|].
    destruct (is_hex c) eqn:Hc; [|discriminate].
    cbn [compact]. rewrite (is_hex_not_dash c Hc).
    change (S n + m)%nat with (S (n + m)). rewrite hex_S, Hc. now apply IH.
Qed.

Lemma hex_length (n : nat) :
  forall s r, hex n s = Some r -> String.length s = (n + String.length r)%nat.
Proof.
  induction n as [|n IH]; intros s r H.
  - injection H as <-. reflexivity.
  - rewrite hex_S in H. destruct s as [|c rest]; [discriminate|].
    destruct (is_hex c); [|discriminate]. cbn [String.length]. rewrite (IH _ _ H). lia.
Qed.

Lemma dash_length (r : string) :
  (String.length (dash r) <= String.length r <= S (String.length (dash r)))%nat.
Proof.
  destruct r as [|c rest]; [simpl; lia|].
  destruct c as [[] [] [] [] [] [] [] []]; cbn [dash String.length]; lia.
Qed.

Lemma at_end_Some (s : option string) : at_end s = true -> s = Some EmptyString.
Proof. destruct s as [[|c rest]|]; now try discriminate. Qed.

(** The parts of an identifier [uuidRegex] matches. *)
Lemma uuidRegex_parts (id : string) :
  uuidRegex id = true ->
  exists r1 r2 r3 r4,
    hex 8 id = Some r1 /\ hex 4 (dash r1) = Some r2 /\ hex 4 (dash r2) = Some r3
    /\ hex 4 (dash r3) = Some r4 /\ hex 12 (dash r4) = Some EmptyString.
Proof.
  unfold uuidRegex. intros H. apply at_end_Some in H.
  destruct (hex 8 id) as [r1|]; [|discriminate].
  unfold then_hex at 4 in H.
  destruct (hex 4 (dash r1)) as [r2|] eqn:H2; [|discriminate].
  unfold then_hex at 3 in H.
  destruct (hex 4 (dash r2)) as [r3|] eqn:H3; [|discriminate].
  unfold then_hex at 2 in H.
  destruct (hex 4 (dash r3)) as [r4|] eqn:H4; [|discriminate].
  unfold then_hex in H. exists r1, r2, r3, r4. auto.
Qed.

Lemma shortIdRegex_uuidRegex (id : string) :
  shortIdRegex id = true -> uuidRegex id = true.
Proof.
  unfold shortIdRegex, uuidRegex. intros H.
  apply at_end_Some in H.
  change (hex 32 id) with (hex (8 + 24) id) in H.
  rewrite (hex_split 8 24 id) in H.
  destruct (hex 8 id) as [r1|]; [|discriminate].
  unfold then_hex at 4. rewrite (hex_dash 23 r1 _ H).
  change (hex 24 r1) with (hex (4 + 20) r1) in H.
  rewrite (hex_split 4 20 r1) in H.
  destruct (hex 4 r1) as [r2|]; [|discriminate].
  unfold then_hex at 3. rewrite (hex_dash 19 r2 _ H).
  change (hex 20 r2) with (hex (4 + 16) r2) in H.
  rewrite (hex_split 4 16 r2) in H.
  destruct (hex 4 r2) as [r3|]; [|discriminate].
  unfold then_hex at 2. rewrite (hex_dash 15 r3 _ H).
  change (hex 16 r3) with (hex (4 + 12) r3) in H.
  rewrite (hex_split 4 12 r3) in H.
  destruct (hex 4 r3) as [r4|]; [|discriminate].
  unfold then_hex. rewrite (hex_dash 11 r4 _ H), H. reflexivity.
Qed.

End ValidationFacts.

(** X17.  The second test of [validateNotionId] accepts nothing the first
    does not: an identifier of 32 hexadecimal digits matches [uuidRegex],
    whose dashes are optional.  So the identifier is returned, unchanged,
    exactly when [uuidRegex] matches it, and the error is thrown otherwise. *)
Theorem validateNotionId_accepts_what_uuidRegex_matches (id name : string) :
  (Validation.shortIdRegex id = true -> Validation.uuidRegex id = true)
  /\ (Validation.uuidRegex id = true -> Validation.validateNotionId id name = Returned id)
  /\ (Validation.uuidRegex id = false ->
      Validation.validateNotionId id name
      = Threw (Error ("Invalid " ++ name ++ ": " ++ id
                      ++ ". Must be a valid UUID or 32-character hex string"))).
Proof.
  assert (Hshort := shortIdRegex_uuidRegex id).
  split; [exact Hshort|]. unfold Validation.validateNotionId. split.
  - intros ->. reflexivity.
  - intros Hu. rewrite Hu.
    destruct (Validation.shortIdRegex id) eqn:Hs; [|reflexivity].
    rewrite (Hshort eq_refl) in Hu. discriminate.
Qed.

(** X17, a run: 32 hexadecimal digits. *)
Lemma validateNotionId_accepts_witness :
  Validation.validateNotionId Trees.short_id "page_id" = Returned Trees.short_id.
Proof.
  destruct (validateNotionId_accepts_what_uuidRegex_matches Trees.short_id "page_id")
    as [Hshort [Hret _]].
  apply Hret, Hshort. reflexivity.
Defined.

(** X18.  An identifier [validateNotionId] returns holds 32 hexadecimal
    digits and nothing else but dashes, at most four of them: without its
    dashes it matches [shortIdRegex], and it is 32 to 36 characters long. *)
Theorem validateNotionId_returns_32_hex_digits (id name result : string) :
  Validation.validateNotionId id name = Returned result ->
  result = id
  /\ Validation.shortIdRegex (Validation.compact id) = true
  /\ (32 <= String.length id <= 36)%nat.
Proof.
  intros H.
  assert (Hu : Validation.uuidRegex id = true /\ result = id).
  { unfold Validation.validateNotionId in H.
    destruct (Validation.uuidRegex id) eqn:Hu.
    - cbn [negb andb] in H. now injection H as <-.
    - destruct (Validation.shortIdRegex id) eqn:Hs.
      + rewrite (shortIdRegex_uuidRegex id Hs) in Hu. discriminate.
      + discriminate. }
  destruct Hu as [Hu ->]. split; [reflexivity|].
  destruct (uuidRegex_parts id Hu) as [r1 [r2 [r3 [r4 [H1 [H2 [H3 [H4 H5]]]]]]]].
  split.
  - unfold Validation.shortIdRegex.
    pose proof (hex_compact 8 24 id r1 H1) as E1.
    pose proof (hex_compact 4 20 _ r2 H2) as E2.
    pose proof (hex_compact 4 16 _ r3 H3) as E3.
    pose proof (hex_compact 4 12 _ r4 H4) as E4.
    pose proof (hex_compact 12 0 _ _ H5) as E5.
    rewrite compact_dash in E2, E3, E4, E5.
    change (8 + 24)%nat with 32%nat in E1. change (4 + 20)%nat with 24%nat in E2.
    change (4 + 16)%nat with 20%nat in E3. change (4 + 12)%nat with 16%nat in E4.
    change (12 + 0)%nat with 12%nat in E5.
    rewrite E1, E2, E3, E4, E5. reflexivity.
  - apply hex_length in H1, H2, H3, H4, H5.
    pose proof (dash_length r1). pose proof (dash_length r2).
    pose proof (dash_length r3). pose proof (dash_length r4).
    cbn [String.length] in H5. lia.
Qed.

(** X18, a run: the dashed form of an identifier. *)
Lemma validateNotionId_returns_witness :
  Validation.shortIdRegex (Validation.compact Trees.dashed_id) = true
  /\ (32 <= String.length Trees.dashed_id <= 36)%nat.
Proof.
  exact (proj2 (validateNotionId_returns_32_hex_digits
                  Trees.dashed_id "page_id" Trees.dashed_id eq_refl)).
Defined.

(** ** The configuration *)

Section ParseIntFacts.

Lemma parse_digits_of_uint_acc (d : Decimal.uint) :
  forall acc : positive,
    parse_digits 10 (NilEmpty.string_of_uint d) (Some (Z.pos acc))
    = Some (Z.pos (Pos.of_uint_acc d acc)).
Proof.
  induction d; intros acc; cbn [NilEmpty.string_of_uint Pos.of_uint_acc];
    [reflexivity|..];
    cbn [parse_digits];
    match goal with
    | |- context [digit_value ?c] =>
        let v := eval vm_compute in (digit_value c) in
        change (digit_value c) with v
    end;
    cbv beta iota;
    match goal with
    | |- context [(?k <? 10)] => change (k <? 10) with true
    end;
    cbv beta iota; rewrite <- IHd; do 2 f_equal; lia.
Qed.

Lemma parse_digits_to_uint (p : positive) :
  parse_digits 10 (NilEmpty.string_of_uint (Pos.to_uint p)) None = Some (Z.pos p).
Proof.
  pose proof (DecimalPos.Unsigned.of_to p) as Hof.
  pose proof (DecimalPos.Unsigned.to_uint_nonnil p) as Hnil.
  assert (Hzero : forall d, Pos.of_uint d = N.pos p ->
            parse_digits 10 (NilEmpty.string_of_uint d) (Some 0) = Some (Z.pos p)).
  { induction d; intros Hd; cbn [Pos.of_uint] in Hd; try discriminate Hd;
      cbn [NilEmpty.string_of_uint parse_digits];
      match goal with
      | |- context [digit_value ?c] =>
          let v := eval vm_compute in (digit_value c) in
          change (digit_value c) with v
      end;
      cbv beta iota;
      match goal with
      | |- context [(?k <? 10)] => change (k <? 10) with true
      end;
      cbv beta iota;
      [ now apply IHd | injection Hd as <-; apply parse_digits_of_uint_acc .. ]. }
  destruct (Pos.to_uint p) as [|d|d|d|d|d|d|d|d|d|d] eqn:Hd; [congruence|..];
    cbn [Pos.of_uint] in Hof;
    cbn [NilEmpty.string_of_uint parse_digits];
    match goal with
    | |- context [digit_value ?c] =>
        let v := eval vm_compute in (digit_value c) in
        change (digit_value c) with v
    end;
    cbv beta iota;
    match goal with
    | |- context [(?k <? 10)] => change (k <? 10) with true
    end;
    cbv beta iota;
    [ now apply Hzero | injection Hof as <-; apply parse_digits_of_uint_acc .. ].
Qed.

(** A decimal numeral has no white space, no sign and no radix prefix. *)
Lemma numeral_is_plain (d : Decimal.uint) :
  d <> Decimal.Nil ->
  trim_start (NilEmpty.string_of_uint d) = NilEmpty.string_of_uint d
  /\ strip_sign (NilEmpty.string_of_uint d) = (1, NilEmpty.string_of_uint d)
  /\ strip_radix_prefix (NilEmpty.string_of_uint d) = (10, NilEmpty.string_of_uint d).
Proof.
  intros Hnil. destruct d as [|d|d|d|d|d|d|d|d|d|d]; [congruence|..];
    (split; [reflexivity|split; [reflexivity|]]); try reflexivity.
  destruct d; reflexivity.
Qed.

(** [parseInt(String(n))] is [n]. *)
Lemma parseInt_string_of_Z (n : Z) : parseInt (string_of_Z n) = Finite n.
Proof.
  unfold string_of_Z. destruct n as [|p|p]; [reflexivity|..]; cbn [Z.to_int NilEmpty.string_of_int].
  - destruct (numeral_is_plain _ (DecimalPos.Unsigned.to_uint_nonnil p)) as [Ht [Hs Hr]].
    unfold parseInt. rewrite Ht, Hs, Hr, parse_digits_to_uint. reflexivity.
  - destruct (numeral_is_plain _ (DecimalPos.Unsigned.to_uint_nonnil p)) as [Ht [Hs Hr]].
    unfold parseInt.
    change (trim_start (String "-" ?s)) with (String "-" s).
    change (strip_sign (String "-" (NilEmpty.string_of_uint (Pos.to_uint p))))
      with ((-1), NilEmpty.string_of_uint (Pos.to_uint p)).
    cbv beta iota. rewrite Hr, parse_digits_to_uint. reflexivity.
Qed.

Lemma parseInt_or_holds (variable : option string) (fallback : Z) :
  fallback <> 0 ->
  exists n, Config.parseInt_or variable fallback = Finite n /\ n <> 0.
Proof.
  intros Hf. unfold Config.parseInt_or.
  destruct (parseInt _) as [n|]; [|now exists fallback].
  destruct (Z.eqb_spec n 0); [now exists fallback|now exists n].
Qed.

Lemma parseInt_or_numeral (n fallback : Z) :
  Config.parseInt_or (Some (string_of_Z n)) fallback
  = Finite (if n =? 0 then fallback else n).
Proof.
  unfold Config.parseInt_or. rewrite parseInt_string_of_Z. now destruct (n =? 0).
Qed.

End ParseIntFacts.

(** X19.  Whatever the environment, the numeric settings of [config] are
    numbers other than 0 and [NaN], and the host is not empty: a variable
    that is unset, that does not start with a number, or that holds 0
    leaves the setting at its default. *)
Theorem config_settings_are_never_zero (env : string -> option string) :
  (exists n, Config.rateLimitPerSecond (Config.config env) = Finite n /\ n <> 0)
  /\ (exists n, Config.retryAttempts (Config.config env) = Finite n /\ n <> 0)
  /\ (exists n, Config.port (Config.config env) = Finite n /\ n <> 0)
  /\ Config.host (Config.config env) <> "".
Proof.
  unfold Config.config; cbn [Config.rateLimitPerSecond Config.retryAttempts Config.port
                             Config.host].
  repeat split; try (apply parseInt_or_holds; lia).
  unfold Config.string_or. destruct (env "HOST") as [[|c s]|]; discriminate.
Qed.

(** X20.  A variable that holds the decimal numeral of an integer other
    than 0, as [String] writes it, sets its setting to that integer, also
    when it is negative; the integer is one a double holds exactly.  The
    numeral of 0 and an unset variable give the defaults 2, 4 and 3000. *)
Theorem config_reads_decimal_numerals (env : string -> option string) (n : Z) :
  n <> 0 -> Z.abs n < 2 ^ 53 ->
  (env "NOTION_RATE_LIMIT" = Some (string_of_Z n) ->
   Config.rateLimitPerSecond (Config.config env) = Finite n)
  /\ (env "NOTION_RETRY_ATTEMPTS" = Some (string_of_Z n) ->
      Config.retryAttempts (Config.config env) = Finite n)
  /\ (env "PORT" = Some (string_of_Z n) -> Config.port (Config.config env) = Finite n)
  /\ (env "NOTION_RATE_LIMIT" = Some (string_of_Z 0) \/ env "NOTION_RATE_LIMIT" = None ->
      Config.rateLimitPerSecond (Config.config env) = Finite 2)
  /\ (env "NOTION_RETRY_ATTEMPTS" = Some (string_of_Z 0)
      \/ env "NOTION_RETRY_ATTEMPTS" = None ->
      Config.retryAttempts (Config.config env) = Finite 4)
  /\ (env "PORT" = Some (string_of_Z 0) \/ env "PORT" = None ->
      Config.port (Config.config env) = Finite 3000).
Proof.
  intros Hn _. apply Z.eqb_neq in Hn.
  unfold Config.config; cbn [Config.rateLimitPerSecond Config.retryAttempts Config.port].
  repeat split.
  - intros ->. now rewrite parseInt_or_numeral, Hn.
  - intros ->. now rewrite parseInt_or_numeral, Hn.
  - intros ->. now rewrite parseInt_or_numeral, Hn.
  - intros [ -> | -> ]; [now rewrite parseInt_or_numeral|reflexivity].
  - intros [ -> | -> ]; [now rewrite parseInt_or_numeral|reflexivity].
  - intros [ -> | -> ]; [now rewrite parseInt_or_numeral|reflexivity].
Qed.

(** X20, a run: the port 8080 is read, 0 retry attempts become 4. *)
Lemma config_reads_decimal_numerals_witness :
  Config.port (Config.config Deployments.env) = Finite 8080
  /\ Config.retryAttempts (Config.config Deployments.env) = Finite 4.
Proof.
  destruct (config_reads_decimal_numerals Deployments.env 8080 ltac:(lia) ltac:(lia))
    as [_ [_ [Hport [_ [Hretry _]]]]].
  split; [apply Hport; reflexivity|apply Hretry; left; reflexivity].
Defined.

(** ** The arguments of the tool handler *)

Section HandlerFacts.

Variable JSON_stringify : json -> nat -> string.

(** The handler settles to the text of what the [switch] statement ends
    with. *)
Lemma handler_of_switch (notionClient : client_call -> client_reply) (flag : bool)
    (request : CallToolRequest) (args : json) :
  arguments request = Some args -> truthy args = true ->
  handler notionClient JSON_stringify flag request
  = inr (text_result
           match switch notionClient (name request) args with
           | inr response => JSON_stringify response 2%nat
           | inl t => JSON_stringify (error_object (thrown_message t)) 0%nat
           end).
Proof.
  intros Hargs Htruthy. unfold handler, try_block. rewrite Hargs, Htruthy.
  destruct (switch notionClient (name request) args) as [t|response]; [reflexivity|].
  now rewrite format_response_text.
Qed.

Lemma switch_missing_argument (notionClient : client_call -> client_reply)
    (tool : string) (args : json) (keys : list string) (k : string) :
  Required.required tool Required.arguments_of = Some keys ->
  In k keys -> truthy_value (get args k) = false ->
  switch notionClient tool args = throw_Error (Required.message keys).
Proof.
  intros Hreq Hin Hfalsy.
  unfold Required.required, Required.arguments_of in Hreq.
  repeat match type of Hreq with
  | context [String.eqb ?known tool] =>
      destruct (String.eqb_spec known tool) as [Heq|_];
      [ injection Hreq as <-; subst tool;
        unfold switch; cbv zeta; unfold HttpServer.not;
        cbn [In] in Hin;
        repeat match type of Hin with
        | _ \/ _ => destruct Hin as [Hin|Hin]
        end;
        first [ solve [destruct Hin]
              | subst k; rewrite Hfalsy; cbn [negb orb]; rewrite ?orb_true_r;
                reflexivity ]
      | ]
  end.
  discriminate.
Qed.

Lemma switch_calls_client (tool : string) (args : json) (keys : list string) :
  Required.required tool Required.arguments_of = Some keys ->
  Forall (fun k => truthy_value (get args k) = true) keys ->
  exists call : client_call,
    forall notionClient : client_call -> client_reply,
      switch notionClient tool args = await (notionClient call).
Proof.
  intros Hreq Hall.
  unfold Required.required, Required.arguments_of in Hreq.
  repeat match type of Hreq with
  | context [String.eqb ?known tool] =>
      destruct (String.eqb_spec known tool) as [Heq|_];
      [ injection Hreq as <-; subst tool;
        repeat match goal with
        | H : Forall _ (_ :: _) |- _ => inversion H; subst; clear H
        end;
        eexists; intros notionClient;
        unfold switch; cbv zeta; unfold HttpServer.not;
        repeat match goal with
        | H : truthy_value (get args _) = true |- _ => rewrite H; clear H
        end;
        cbn [negb orb]; reflexivity
      | ]
  end.
  discriminate.
Qed.

End HandlerFacts.

(** X21.  A call of one of the 18 tools that lacks an argument the tool
    requires, or carries it with a falsy value ([null], [false], 0 or the
    empty string), is answered with the text
    [JSON.stringify({ error: "Missing required argument(s): ..." })], naming
    all the arguments the tool requires, whatever the client would do. *)
Theorem handler_refuses_missing_required_argument
    (notionClient : client_call -> client_reply)
    (JSON_stringify : json -> nat -> string) (enableMarkdownConversion : bool)
    (request : CallToolRequest) (args : json) (keys : list string) (k : string) :
  arguments request = Some args -> truthy args = true ->
  Required.required (name request) Required.arguments_of = Some keys ->
  In k keys -> truthy_value (get args k) = false ->
  handler notionClient JSON_stringify enableMarkdownConversion request
  = inr (text_result (JSON_stringify (error_object (Required.message keys)) 0%nat)).
Proof.
  intros Hargs Htruthy Hreq Hin Hfalsy.
  rewrite (handler_of_switch JSON_stringify _ _ _ args Hargs Htruthy).
  now rewrite (switch_missing_argument notionClient _ args keys k Hreq Hin Hfalsy).
Qed.

(** X21, a run: a block to update without the block. *)
Lemma handler_refuses_missing_argument_witness :
  handler Scenario.page_client Scenario.stringify true
    {| name := "notion_update_block";
       arguments := Some (JObject [("block_id", JString "b1"); ("block", JNull)]) |}
  = inr (text_result
           (Scenario.stringify
              (error_object "Missing required arguments: block_id and block") 0)).
Proof.
  exact (handler_refuses_missing_required_argument
           Scenario.page_client Scenario.stringify true
           {| name := "notion_update_block";
              arguments := Some (JObject [("block_id", JString "b1"); ("block", JNull)]) |}
           (JObject [("block_id", JString "b1"); ("block", JNull)])
           ["block_id"; "block"] "block"
           eq_refl eq_refl eq_refl ltac:(right; left; reflexivity) eq_refl).
Defined.

(** X22.  A call of one of the 18 tools whose required arguments are all
    truthy makes one call of the client, which the request alone
    determines, and is answered with what that call gives: the response as
    [JSON.stringify(response, null, 2)], or the message of the rejection as
    [JSON.stringify({ error: message })]. *)
Theorem handler_answers_with_the_client_reply
    (JSON_stringify : json -> nat -> string)
    (request : CallToolRequest) (args : json) (keys : list string) :
  arguments request = Some args -> truthy args = true ->
  Required.required (name request) Required.arguments_of = Some keys ->
  Forall (fun k => truthy_value (get args k) = true) keys ->
  exists call : client_call,
    forall (notionClient : client_call -> client_reply) (enableMarkdownConversion : bool),
      handler notionClient JSON_stringify enableMarkdownConversion request
      = inr (text_result
               match notionClient call with
               | Resolves response => JSON_stringify response 2%nat
               | Rejects t => JSON_stringify (error_object (thrown_message t)) 0%nat
               end).
Proof.
  intros Hargs Htruthy Hreq Hall.
  destruct (switch_calls_client (name request) args keys Hreq Hall) as [call Hcall].
  exists call. intros notionClient flag.
  rewrite (handler_of_switch JSON_stringify _ _ _ args Hargs Htruthy), Hcall.
  now destruct (notionClient call).
Qed.

(** X22, a run: a page to retrieve. *)
Lemma handler_answers_with_the_client_reply_witness :
  exists call : client_call,
    forall (notionClient : client_call -> client_reply) (enableMarkdownConversion : bool),
      handler notionClient Scenario.stringify enableMarkdownConversion
        {| name := "notion_retrieve_page";
           arguments := Some (JObject [("page_id", JString "abc123")]) |}
      = inr (text_result
               match notionClient call with
               | Resolves response => Scenario.stringify response 2%nat
               | Rejects t => Scenario.stringify (error_object (thrown_message t)) 0%nat
               end).
Proof.
  exact (handler_answers_with_the_client_reply Scenario.stringify
           {| name := "notion_retrieve_page";
              arguments := Some (JObject [("page_id", JString "abc123")]) |}
           (JObject [("page_id", JString "abc123")]) ["page_id"]
           eq_refl eq_refl eq_refl ltac:(repeat constructor)).
Defined.

(** ** The sessions *)

Section SessionFacts.

Import Sessions.

Lemma own_assign (t : registry) (key key' : string) (v : transport) :
  own (assign t key v) key' = if String.eqb key key' then Some v else own t key'.
Proof.
  induction t as [|[k x] rest IH]; cbn [assign own].
  - now destruct (String.eqb key key').
  - destruct (String.eqb_spec k key) as [->|Hk]; cbn [own].
    + now destruct (String.eqb key key').
    + destruct (String.eqb_spec k key') as [->|Hk'].
      * destruct (String.eqb_spec key key') as [->|]; [congruence|reflexivity].
      * exact IH.
Qed.

Lemma own_delete (t : registry) (key key' : string) :
  own (delete t key) key' = if String.eqb key key' then None else own t key'.
Proof.
  induction t as [|[k x] rest IH]; unfold delete; cbn [filter own fst].
  - now destruct (String.eqb key key').
  - fold (delete rest key). destruct (String.eqb_spec k key) as [->|Hk]; cbn [negb own].
    + rewrite IH. now destruct (String.eqb key key').
    + rewrite IH. destruct (String.eqb_spec k key') as [->|Hk'].
      * destruct (String.eqb_spec key key') as [->|]; [congruence|reflexivity].
      * reflexivity.
Qed.

Lemma own_onclose (t : registry) (sid key' : string) :
  own (onclose t (Some sid)) key'
  = if truthy_string sid && String.eqb sid key' then None else own t key'.
Proof.
  unfold onclose. destruct (truthy_string sid); [|reflexivity]. cbn [andb].
  unfold lookup. destruct (own t sid) as [v|] eqn:Hown.
  - apply own_delete.
  - destruct (existsb (String.eqb sid) Object_prototype).
    + apply own_delete.
    + destruct (String.eqb_spec sid key') as [<-|]; [now rewrite Hown|reflexivity].
Qed.

(** Both routes read the registry through [own] alone. *)
Lemma routes_ext (t t' : registry) (key : string) :
  own t key = own t' key ->
  (forall method body, mcp t (Some key) method body = mcp t' (Some key) method body)
  /\ messages t (Some key) = messages t' (Some key).
Proof.
  intros H. unfold mcp, messages, lookup. rewrite H. split; reflexivity.
Qed.

End SessionFacts.

(** X23.  The life of a Streamable HTTP session: once
    [onsessioninitialized] has registered its id, every request to /mcp
    that carries the id goes to its transport, whatever the method and the
    body, and /messages refuses the id; once [onclose] has run, /mcp
    refuses the id with status 400.  The id is one a transport generates:
    it is not empty and not the name "__proto__", which an assignment does
    not store as a property. *)
Theorem streamable_session_is_served_until_closed
    (transports : Sessions.registry) (sid method : string) (body : value) :
  sid <> "" -> sid <> "__proto__" ->
  Sessions.mcp (Sessions.onsessioninitialized transports sid) (Some sid) method body
  = Sessions.Handled sid Sessions.StreamableHTTP
  /\ Sessions.messages (Sessions.onsessioninitialized transports sid) (Some sid)
     = Sessions.Refused 400 (-32000)
         "Bad Request: No transport found or wrong transport type"
  /\ exists message,
       Sessions.mcp
         (Sessions.onclose (Sessions.onsessioninitialized transports sid) (Some sid))
         (Some sid) method body
       = Sessions.Refused 400 (-32000) message.
Proof.
  intros Hsid _.
  assert (Ht : truthy_string sid = true) by (destruct sid; [congruence|reflexivity]).
  unfold Sessions.mcp, Sessions.messages, Sessions.lookup. rewrite Ht.
  rewrite own_onclose, Ht, String.eqb_refl. cbn [andb].
  unfold Sessions.onsessioninitialized. rewrite own_assign, String.eqb_refl.
  repeat split.
  destruct (existsb (String.eqb sid) Sessions.Object_prototype); eexists; reflexivity.
Qed.

(** X23, a run. *)
Lemma streamable_session_witness :
  Sessions.mcp (Sessions.onsessioninitialized Deployments.open_sessions "c0de")
    (Some "c0de") "GET" undefined
  = Sessions.Handled "c0de" Sessions.StreamableHTTP.
Proof.
  exact (proj1 (streamable_session_is_served_until_closed
                  Deployments.open_sessions "c0de" "GET" undefined
                  ltac:(discriminate) ltac:(discriminate))).
Defined.

(** X24.  The life of an SSE session: once /sse has registered its id,
    /messages hands the posts that carry the id to its transport, and /mcp
    refuses the id with status 400 as a session of the other protocol; once
    the response has closed, /messages refuses the id.  The id is one a
    transport generates: not empty and not "__proto__". *)
Theorem sse_session_is_served_until_closed
    (transports : Sessions.registry) (sid method : string) (body : value) :
  sid <> "" -> sid <> "__proto__" ->
  Sessions.messages (Sessions.sse transports sid) (Some sid)
  = Sessions.Handled sid Sessions.SSE
  /\ Sessions.mcp (Sessions.sse transports sid) (Some sid) method body
     = Sessions.Refused 400 (-32000)
         "Bad Request: Session exists but uses a different transport protocol"
  /\ Sessions.messages (Sessions.sse_close (Sessions.sse transports sid) sid) (Some sid)
     = Sessions.Refused 400 (-32000)
         "Bad Request: No transport found or wrong transport type".
Proof.
  intros Hsid _.
  assert (Ht : truthy_string sid = true) by (destruct sid; [congruence|reflexivity]).
  unfold Sessions.mcp, Sessions.messages, Sessions.lookup. rewrite Ht.
  unfold Sessions.sse_close. rewrite own_delete, String.eqb_refl.
  unfold Sessions.sse. rewrite own_assign, String.eqb_refl.
  repeat split.
  now destruct (existsb (String.eqb sid) Sessions.Object_prototype).
Qed.

(** X24, a run. *)
Lemma sse_session_witness :
  Sessions.mcp (Sessions.sse Deployments.open_sessions "c0de") (Some "c0de") "POST"
    (Some (JObject [("method", JString "initialize")]))
  = Sessions.Refused 400 (-32000)
      "Bad Request: Session exists but uses a different transport protocol".
Proof.
  exact (proj1 (proj2 (sse_session_is_served_until_closed
                         Deployments.open_sessions "c0de" "POST"
                         (Some (JObject [("method", JString "initialize")]))
                         ltac:(discriminate) ltac:(discriminate)))).
Defined.

(** X25.  Sessions do not disturb each other: registering or closing a
    session, of either protocol, changes nothing in what /mcp and /messages
    do with a request that carries another id.  The id of the session is
    one a transport generates, so it is not "__proto__". *)
Theorem other_sessions_are_left_alone
    (transports : Sessions.registry) (sid other method : string) (body : value) :
  sid <> other -> sid <> "__proto__" ->
  Forall (fun changed =>
            Sessions.mcp changed (Some other) method body
            = Sessions.mcp transports (Some other) method body
            /\ Sessions.messages changed (Some other)
               = Sessions.messages transports (Some other))
    [ Sessions.onsessioninitialized transports sid;
      Sessions.sse transports sid;
      Sessions.onclose transports (Some sid);
      Sessions.sse_close transports sid ].
Proof.
  intros Hne _. apply String.eqb_neq in Hne.
  repeat constructor;
    match goal with
    | |- Sessions.mcp ?t' _ _ _ = _ =>
        apply (fun H => proj1 (routes_ext t' transports other H))
    | |- Sessions.messages ?t' _ = _ =>
        apply (fun H => proj2 (routes_ext t' transports other H))
    end;
    unfold Sessions.onsessioninitialized, Sessions.sse, Sessions.sse_close;
    rewrite ?own_assign, ?own_delete, ?own_onclose, ?Hne, ?andb_false_r; reflexivity.
Qed.

(** X25, a run: closing one session leaves the other one served. *)
Lemma other_sessions_witness :
  Sessions.mcp (Sessions.sse_close Deployments.open_sessions "a91e") (Some "7f3c")
    "GET" undefined
  = Sessions.Handled "7f3c" Sessions.StreamableHTTP.
Proof.
  pose proof (other_sessions_are_left_alone Deployments.open_sessions "a91e" "7f3c"
                "GET" undefined ltac:(discriminate) ltac:(discriminate)) as H.
  apply Forall_inv_tail, Forall_inv_tail, Forall_inv_tail, Forall_inv in H.
  destruct H as [Hmcp _]. rewrite Hmcp. reflexivity.
Defined.

(** ** [createRichText] *)

Section RichTextFacts.

Import RichText.

Lemma lookup_absent (fields : list (string * json)) (key : string) :
  ~ In key (map fst fields) -> lookup key fields = undefined.
Proof.
  induction fields as [|[k x] rest IH]; intros Hnot; [reflexivity|].
  cbn [lookup]. destruct (String.eqb_spec k key) as [->|Hk].
  - exfalso. apply Hnot. now left.
  - apply IH. intros Hin. apply Hnot. now right.
Qed.

Lemma lookup_present (fields : list (string * json)) (key : string) :
  lookup key fields = undefined -> ~ In key (map fst fields).
Proof.
  induction fields as [|[k x] rest IH]; intros Hnone; [intros []|].
  cbn [lookup] in Hnone. destruct (String.eqb_spec k key) as [->|Hk]; [discriminate|].
  intros [Heq|Hin]; [now apply Hk|now apply IH].
Qed.

Lemma lookup_replace (target : list (string * json)) (key key' : string) (v x : json) :
  lookup key target = Some x ->
  lookup key' (replace target key v)
  = if String.eqb key key' then Some v else lookup key' target.
Proof.
  induction target as [|[k y] rest IH]; intros Hsome; [discriminate|].
  cbn [replace lookup] in *. destruct (String.eqb_spec k key) as [->|Hk]; cbn [lookup].
  - now destruct (String.eqb key key').
  - destruct (String.eqb_spec k key') as [->|Hk'].
    + destruct (String.eqb_spec key key') as [->|]; [congruence|reflexivity].
    + now apply IH.
Qed.

Lemma lookup_insert_index (target : list (string * json)) (n : Z)
    (key key' : string) (v : json) :
  lookup key target = undefined ->
  lookup key' (insert_index target n key v)
  = if String.eqb key key' then Some v else lookup key' target.
Proof.
  induction target as [|[k y] rest IH]; intros Hnone; [reflexivity|].
  cbn [lookup] in Hnone. destruct (String.eqb_spec k key) as [->|Hk]; [discriminate|].
  cbn [insert_index].
  destruct (array_index k) as [m|]; [destruct (m <? n)|]; try reflexivity.
  cbn [lookup]. destruct (String.eqb_spec k key') as [->|Hk'].
  - destruct (String.eqb_spec key key') as [->|]; [congruence|reflexivity].
  - now apply IH.
Qed.

Lemma lookup_append (target : list (string * json)) (key key' : string) (v : json) :
  lookup key target = undefined ->
  lookup key' (target ++ [(key, v)])
  = if String.eqb key key' then Some v else lookup key' target.
Proof.
  induction target as [|[k y] rest IH]; intros Hnone; [reflexivity|].
  cbn [lookup] in Hnone. destruct (String.eqb_spec k key) as [->|Hk]; [discriminate|].
  cbn [app lookup]. destruct (String.eqb_spec k key') as [->|Hk'].
  - destruct (String.eqb_spec key key') as [->|]; [congruence|reflexivity].
  - now apply IH.
Qed.

Lemma lookup_set (target : list (string * json)) (key key' : string) (v : json) :
  lookup key' (set target key v)
  = if String.eqb key key' then Some v else lookup key' target.
Proof.
  unfold set. destruct (lookup key target) as [x|] eqn:Hkey.
  - now apply lookup_replace with x.
  - destruct (array_index key) as [n|].
    + now apply lookup_insert_index.
    + now apply lookup_append.
Qed.

Lemma lookup_spread (source : list (string * json)) :
  NoDup (map fst source) ->
  forall (target : list (string * json)) (key : string),
    lookup key (spread target source)
    = match lookup key source with
      | Some v => Some v
      | None => lookup key target
      end.
Proof.
  induction source as [|[k v] rest IH]; intros Hnodup target key; [reflexivity|].
  cbn [map fst] in Hnodup. inversion Hnodup as [|? ? Hnot Hrest]; subst.
  cbn [spread lookup]. rewrite (IH Hrest), lookup_set.
  destruct (String.eqb_spec k key) as [->|Hk]; [|reflexivity].
  now rewrite (lookup_absent rest key Hnot).
Qed.

(** *** The order of the properties *)

Lemma array_index_numeral (key : string) (n : Z) :
  array_index key = Some n -> key = string_of_Z n.
Proof.
  unfold array_index. destruct (parseInt key) as [m|]; [|discriminate].
  destruct ((0 <=? m) && (m <? 4294967295)); cbn [andb]; [|discriminate].
  destruct (String.eqb_spec (string_of_Z m) key) as [Heq|]; [|discriminate].
  intros H. injection H as <-. now symmetry.
Qed.

Lemma keys_replace (target : list (string * json)) (key : string) (v : json) :
  map fst (replace target key v) = map fst target.
Proof.
  induction target as [|[k x] rest IH]; [reflexivity|].
  cbn [replace]. destruct (String.eqb k key); cbn [map fst]; [reflexivity|].
  now rewrite IH.
Qed.

(** A new array index is put in its place among the array indices. *)
Lemma keys_insert_index (n : Z) (key : string) (v : json) :
  array_index key = Some n ->
  forall (indices : list string) (target : list (string * json)) (others : list string),
    map fst target = (indices ++ others)%list ->
    Forall (fun k => array_index k <> None) indices ->
    StronglySorted index_lt indices ->
    Forall (fun k => array_index k = None) others ->
    ~ In key indices ->
    exists indices',
      map fst (insert_index target n key v) = (indices' ++ others)%list
      /\ Forall (fun k => array_index k <> None) indices'
      /\ StronglySorted index_lt indices'
      /\ forall k, In k indices' -> k = key \/ In k indices.
Proof.
  intros Hkey. induction indices as [|a indices IH];
    intros target others Hkeys Hidx Hsorted Hothers Hnot.
  - exists [key]. cbn [app] in *. split; [|split; [|split]].
    + destruct target as [|[k x] rest]; [now rewrite <- Hkeys|].
      cbn [map fst] in Hkeys. cbn [insert_index].
      destruct others as [|o others]; [discriminate|].
      injection Hkeys as -> Hrest. apply Forall_inv in Hothers.
      rewrite Hothers. cbn [map fst]. now rewrite Hrest.
    + constructor; [congruence|constructor].
    + repeat constructor.
    + intros k [<-|[]]. now left.
  - destruct target as [|[k x] rest]; [discriminate|].
    cbn [map fst app] in Hkeys. injection Hkeys as -> Hrest.
    inversion Hidx as [|? ? Ha Hidx']; subst.
    inversion Hsorted as [|? ? Hsorted' Hlt]; subst.
    destruct (array_index a) as [m|] eqn:Hm; [|congruence].
    cbn [insert_index]. rewrite Hm. destruct (Z.ltb_spec m n) as [Hmn|Hnm].
    + destruct (IH rest others Hrest Hidx' Hsorted' Hothers) as [indices' [Hk [Hi [Hs Hin]]]].
      { intros Hin. apply Hnot. now right. }
      exists (a :: indices'). cbn [map fst app]. rewrite Hk.
      split; [reflexivity|]. split; [constructor; [congruence|exact Hi]|].
      split.
      * constructor; [exact Hs|]. apply Forall_forall. intros k Hk'.
        destruct (Hin k Hk') as [->|Hold].
        -- unfold index_lt. now rewrite Hm, Hkey.
        -- rewrite Forall_forall in Hlt. now apply Hlt.
      * intros k [<-|Hk']; [right; now left|].
        destruct (Hin k Hk') as [->|Hold]; [now left|right; now right].
    + assert (Hne : n <> m).
      { intros ->. apply Hnot. left.
        rewrite (array_index_numeral a m Hm), (array_index_numeral key m Hkey).
        reflexivity. }
      assert (Hka : index_lt key a).
      { unfold index_lt. rewrite Hkey, Hm. lia. }
      exists (key :: a :: indices). cbn [map fst app]. rewrite Hrest.
      split; [reflexivity|]. split; [constructor; [congruence|constructor; congruence || assumption]|].
      split.
      * constructor; [constructor; assumption|].
        constructor; [exact Hka|]. apply Forall_forall. intros k Hk'.
        rewrite Forall_forall in Hlt. specialize (Hlt k Hk').
        unfold index_lt in *. rewrite Hkey. rewrite Hm in Hlt.
        destruct (array_index k); [lia|exact Hlt].
      * intros k [<-|Hk']; [now left|now right].
Qed.

Lemma listed_set (base : list string) (target : list (string * json))
    (key : string) (v : json) :
  Forall (fun k => array_index k = None) base ->
  listed base target -> listed base (set target key v).
Proof.
  intros Hbase [indices [extra [Hkeys [Hidx [Hsorted Hextra]]]]]. unfold set.
  destruct (lookup key target) as [x|] eqn:Hlookup.
  - exists indices, extra. now rewrite keys_replace.
  - apply lookup_present in Hlookup.
    destruct (array_index key) as [n|] eqn:Hkey.
    + destruct (keys_insert_index n key v Hkey indices target (base ++ extra)%list
                  Hkeys Hidx Hsorted) as [indices' [Hk [Hi [Hs _]]]].
      * apply Forall_app. now split.
      * intros Hin. apply Hlookup. rewrite Hkeys. apply in_or_app. now left.
      * now exists indices', extra.
    + exists indices, (extra ++ [key])%list. rewrite map_app, Hkeys.
      cbn [map fst]. rewrite <- !app_assoc. split; [reflexivity|].
      split; [exact Hidx|]. split; [exact Hsorted|].
      apply Forall_app. split; [exact Hextra|]. now constructor.
Qed.

Lemma listed_spread (base : list string) (source : list (string * json)) :
  Forall (fun k => array_index k = None) base ->
  forall target, listed base target -> listed base (spread target source).
Proof.
  intros Hbase. induction source as [|[k v] rest IH]; intros target Hlisted;
    [exact Hlisted|].
  cbn [spread]. apply IH. now apply listed_set.
Qed.

End RichTextFacts.

(** X26.  [createRichText] gives the text its content and its six default
    annotations, each replaced by the annotation of the same name the
    caller passes, and nothing the caller passes is lost.  The annotations
    are listed as JavaScript lists the properties of an object: the names
    that are array indices first, ascending, then the six defaults in their
    order, then the other names the caller added. *)
Theorem createRichText_annotations_override_defaults
    (content : string) (annotations : list (string * json)) :
  NoDup (map fst annotations) ->
  exists fields,
    get (RichText.createRichText content annotations) "annotations" = Some (JObject fields)
    /\ get (RichText.createRichText content annotations) "text"
       = Some (JObject [("content", JString content)])
    /\ (forall key,
          lookup key fields
          = match lookup key annotations with
            | Some v => Some v
            | None => lookup key RichText.defaults
            end)
    /\ exists indices extra,
         map fst fields = (indices ++ map fst RichText.defaults ++ extra)%list
         /\ Forall (fun k => RichText.array_index k <> None) indices
         /\ StronglySorted RichText.index_lt indices
         /\ Forall (fun k => RichText.array_index k = None) extra.
Proof.
  intros Hnodup. exists (RichText.spread RichText.defaults annotations).
  split; [reflexivity|]. split; [reflexivity|]. split.
  - intros key. now apply lookup_spread.
  - apply (listed_spread (map fst RichText.defaults) annotations).
    + repeat constructor.
    + exists [], []. repeat split; constructor.
Qed.

(** X26, a run: bold text with two more annotations, one of them named by
    an array index. *)
Lemma createRichText_witness :
  exists fields,
    get (RichText.createRichText "bold text"
           [("zebra", JNull); ("bold", JBool true); ("2", JBool true)])
      "annotations" = Some (JObject fields)
    /\ lookup "bold" fields = Some (JBool true)
    /\ lookup "underline" fields = Some (JBool false)
    /\ map fst fields
       = ["2"; "bold"; "italic"; "strikethrough"; "underline"; "code"; "color"; "zebra"].
Proof.
  destruct (createRichText_annotations_override_defaults "bold text"
              [("zebra", JNull); ("bold", JBool true); ("2", JBool true)])
    as [fields [Hget [_ [Hlookup _]]]].
  - repeat constructor; simpl; intuition discriminate.
  - exists fields. split; [exact Hget|]. split; [|split]; try (rewrite Hlookup; reflexivity).
    injection Hget as <-. reflexivity.
Defined.
